(** * Solid: the UDisks2 storage-access life cycle and the fstab/mtab cache

    A shallow embedding of

    - [Solid::Backends::UDisks2::StorageAccess]
      (src/solid/devices/backends/udisks2/udisksstorageaccess.cpp): the
      setup / teardown / passphrase round trip driven by the three flags
      [m_setupInProgress], [m_teardownInProgress], [m_passphraseRequested]
      and the accessibility cache [m_isAccessible];
    - [Solid::Backends::Fstab::FstabHandling] (fstabhandling.cpp, the
      second file of src/solid/devices/backends/udisks2/udisksstoragedrive.cpp):
      the lazily filled, flushed-on-demand caches of /etc/fstab and of the
      live mount table, with both parsers of /etc/fstab (getmntent and
      plain text);
    - [Solid::Backends::UDisks2::StorageDrive] (the first file of
      udisksstoragedrive.cpp): the drive type, the bus and the hotplug
      test.

    Every method is a function of the platform as it answers during the
    call, the object before the call, and yields the returned value, the
    object after the call and the list of effects (bus calls, broadcasts,
    signals) in the order the code performs them. *)

From Stdlib Require Import Ascii ZArith DecimalString.
From Stdlib Require DecimalZ DecimalPos.
From stdpp Require Import base strings list gmap.

(** ** Solid::ErrorType *)

(** Modelled from the spec: the enumeration [Solid::ErrorType]
    (solidnamespace.h is not among the sources).  The code and the
    specification name [NoError] (the default of [broadcastActionDone]) and
    [UserCanceled]; the other kinds stand for the error kinds that
    [Device::errorToSolidError] maps daemon errors to, and no property
    below depends on which they are. *)
Inductive ErrorType : Set :=
| NoError
| UnauthorizedOperation
| DeviceBusy
| OperationFailed
| UserCanceled
| InvalidOption
| MissingDriver.

(** What udisks2.h, udisksstorageaccess.h and udisksdevice.cpp provide to
    the methods below; none of them is among the sources, so they are
    parameters of the development. *)
Class Udisks2 : Type := {
  UD2_DBUS_PATH_BLOCKDEVICES : string;
  s_unmountTimeout : Z;
  (* Device::errorToSolidError, Device::errorToString *)
  errorToSolidError : string → ErrorType;
  errorToString : string → string
}.

(** ** Effects *)

(** Method calls sent to the UDisks2 daemon on the system bus, with the
    object path they address. *)
Inductive DaemonCall : Set :=
| Mount (path : string) (options : list (string * string))
| Unmount (path : string)
| Unlock (path : string) (passphrase : string)
| Lock (path : string)
| Eject (path : string)
| PowerOff (path : string)
| Introspect (path : string).

(** How a call is sent: [callWithCallback] (with its timeout, if one is
    given), [call(msg, QDBus::NoBlock)], or [asyncCall] followed by
    [waitForFinished]. *)
Inductive CallMode : Set :=
| WithCallback (timeout : option Z)
| NoBlock
| Blocking.

Inductive Effect : Set :=
| SystemBusCall (mode : CallMode) (c : DaemonCall)
| BroadcastActionRequested (actionName : string)
| BroadcastActionDone (actionName : string) (error : ErrorType) (errorString : string)
| InvalidateCache
| AccessibilityChanged (accessible : bool) (udi : string)
| SetupRequested (udi : string)
| SetupDone (error : ErrorType) (errorString : string) (udi : string)
| TeardownRequested (udi : string)
| TeardownDone (error : ErrorType) (errorString : string) (udi : string)
| RegisterObject (path : string)
| UnregisterObject (path : string)
| ShowPassphraseDialog (udi returnService returnObject : string) (wId : Z) (appId : string).

(** ** The platform as one call observes it *)

(** The answers of the device object, of the buses and of the GUI toolkit
    during one method or slot invocation.  The code is single threaded and
    a slot runs to completion, so one record describes one invocation;
    between invocations the platform may change arbitrarily. *)
Record Platform : Type := {
  (* m_device->isEncryptedContainer() *)
  isEncryptedContainer : bool;
  (* m_device->isOpticalDisc() *)
  isOpticalDisc : bool;
  (* m_device->drivePath() *)
  drivePath : string;
  (* Device(path).isMounted() *)
  isMounted : string → bool;
  (* Device(path).prop(key).toBool() *)
  propBool : string → string → bool;
  (* Device(path).prop(key).toString() *)
  propString : string → string → string;
  (* Device(path).prop("CryptoBackingDevice").value<QDBusObjectPath>().path() *)
  cryptoBackingDevice : string → string;
  (* the reply to Introspect on the block-devices path: [None] when the
     reply is not valid, otherwise the "node" elements of the document in
     order, each with its "name" attribute when it has one *)
  introspectReply : option (list (option string));
  (* what QDBusConnection::callWithCallback returns: the message was sent *)
  callWithCallbackSent : bool;
  (* QDBusConnection::sessionBus().baseService() *)
  sessionBaseService : string;
  (* QGuiApplication::focusWindow(), with its winId() cast to uint *)
  focusWindow : option Z;
  (* QCoreApplication::applicationName() *)
  applicationName : string;
  (* whether the reply of soliduiserver.call("showPassphraseDialog", ...) is valid *)
  showPassphraseDialogValid : bool
}.

(** ** The object *)

Record StorageAccess : Type := {
  (* m_device->udi(): the device the interface was created for *)
  m_device : string;
  m_setupInProgress : bool;
  m_teardownInProgress : bool;
  m_passphraseRequested : bool;
  m_isAccessible : bool;
  m_lastReturnObject : string;
  (* the function-local [static QAtomicInt number] of generateReturnObjectPath *)
  number : Z
}.

Definition set_setupInProgress (b : bool) (s : StorageAccess) : StorageAccess :=
  {| m_device := m_device s; m_setupInProgress := b;
     m_teardownInProgress := m_teardownInProgress s;
     m_passphraseRequested := m_passphraseRequested s;
     m_isAccessible := m_isAccessible s;
     m_lastReturnObject := m_lastReturnObject s; number := number s |}.

Definition set_teardownInProgress (b : bool) (s : StorageAccess) : StorageAccess :=
  {| m_device := m_device s; m_setupInProgress := m_setupInProgress s;
     m_teardownInProgress := b;
     m_passphraseRequested := m_passphraseRequested s;
     m_isAccessible := m_isAccessible s;
     m_lastReturnObject := m_lastReturnObject s; number := number s |}.

Definition set_passphraseRequested (b : bool) (s : StorageAccess) : StorageAccess :=
  {| m_device := m_device s; m_setupInProgress := m_setupInProgress s;
     m_teardownInProgress := m_teardownInProgress s;
     m_passphraseRequested := b;
     m_isAccessible := m_isAccessible s;
     m_lastReturnObject := m_lastReturnObject s; number := number s |}.

Definition set_isAccessible (b : bool) (s : StorageAccess) : StorageAccess :=
  {| m_device := m_device s; m_setupInProgress := m_setupInProgress s;
     m_teardownInProgress := m_teardownInProgress s;
     m_passphraseRequested := m_passphraseRequested s;
     m_isAccessible := b;
     m_lastReturnObject := m_lastReturnObject s; number := number s |}.

Definition set_lastReturnObject (p : string) (s : StorageAccess) : StorageAccess :=
  {| m_device := m_device s; m_setupInProgress := m_setupInProgress s;
     m_teardownInProgress := m_teardownInProgress s;
     m_passphraseRequested := m_passphraseRequested s;
     m_isAccessible := m_isAccessible s;
     m_lastReturnObject := p; number := number s |}.

Definition set_number (n : Z) (s : StorageAccess) : StorageAccess :=
  {| m_device := m_device s; m_setupInProgress := m_setupInProgress s;
     m_teardownInProgress := m_teardownInProgress s;
     m_passphraseRequested := m_passphraseRequested s;
     m_isAccessible := m_isAccessible s;
     m_lastReturnObject := m_lastReturnObject s; number := n |}.

(** ** A reader / state / writer monad for the methods *)

Definition M (A : Type) : Type :=
  Platform → StorageAccess → A * StorageAccess * list Effect.

Definition ret {A} (a : A) : M A := λ _ s, (a, s, []).

Definition bind {A B} (c : M A) (k : A → M B) : M B :=
  λ w s,
    let '(a, s1, e1) := c w s in
    let '(b, s2, e2) := k a w s1 in
    (b, s2, e1 ++ e2).

Definition platform : M Platform := λ w s, (w, s, []).
Definition this : M StorageAccess := λ _ s, (s, s, []).
Definition modify (f : StorageAccess → StorageAccess) : M unit := λ _ s, (tt, f s, []).
Definition perform (e : Effect) : M unit := λ _ s, (tt, s, [e]).

Notation "x <- c1 ;; c2" := (bind c1 (λ x, c2))
  (at level 100, c1 at next level, right associativity).
Notation "c1 ;; c2" := (bind c1 (λ _, c2))
  (at level 100, right associativity).

(** The three components of the outcome of running a method. *)
Definition result {A} (r : A * StorageAccess * list Effect) : A := r.1.1.
Definition after {A} (r : A * StorageAccess * list Effect) : StorageAccess := r.1.2.
Definition effects {A} (r : A * StorageAccess * list Effect) : list Effect := r.2.

Arguments result {A} !r /.
Arguments after {A} !r /.
Arguments effects {A} !r /.

(** ** The methods of StorageAccess *)

(** [static QAtomicInt number]: a 32-bit integer, [number++] wraps. *)
Definition wrap32 (z : Z) : Z := ((z + 2 ^ 31) mod 2 ^ 32 - 2 ^ 31)%Z.

(** [QString::number(int)] *)
Definition QString_number (z : Z) : string := NilZero.string_of_int (Z.to_int z).

Section Methods.
Context `{Udisks2}.

Definition isLuksDevice : M bool :=
  w <- platform ;;
  ret (isEncryptedContainer w).

(** The loop of [clearTextPath] over the node list of the introspection
    document: the first node whose device names this device as its
    CryptoBackingDevice. *)
Fixpoint clearTextPath_nodes (w : Platform) (udi : string)
    (nodeList : list (option string)) : string :=
  match nodeList with
  | [] => ""
  | None :: rest => clearTextPath_nodes w udi rest
  | Some name :: rest =>
      let holder := UD2_DBUS_PATH_BLOCKDEVICES +:+ "/" +:+ name in
      if String.eqb udi (cryptoBackingDevice w holder) then holder
      else clearTextPath_nodes w udi rest
  end.

Definition clearTextPath : M string :=
  perform (SystemBusCall Blocking (Introspect UD2_DBUS_PATH_BLOCKDEVICES)) ;;
  w <- platform ;;
  s <- this ;;
  ret (match introspectReply w with
       | Some nodeList => clearTextPath_nodes w (m_device s) nodeList
       | None => ""
       end).

Definition isAccessible : M bool :=
  luks <- isLuksDevice ;;
  if luks then
    path <- clearTextPath ;;
    if String.eqb path "" || String.eqb path "/" then ret false
    else w <- platform ;; ret (isMounted w path)
  else
    w <- platform ;;
    s <- this ;;
    ret (isMounted w (m_device s)).

Definition updateCache : M unit :=
  a <- isAccessible ;;
  modify (set_isAccessible a).

Definition checkAccessibility : M unit :=
  s <- this ;;
  let old_isAccessible := m_isAccessible s in
  updateCache ;;
  s' <- this ;;
  if negb (Bool.eqb old_isAccessible (m_isAccessible s')) then
    perform (AccessibilityChanged (m_isAccessible s') (m_device s'))
  else ret tt.

(** The path a Mount or Unmount call addresses: the cleartext device of
    an unlocked container, the device itself otherwise. *)
Definition mount_path : M string :=
  s <- this ;;
  luks <- isLuksDevice ;;
  if luks then
    ctPath <- clearTextPath ;;
    ret (if negb (String.eqb ctPath "") then ctPath else m_device s)
  else ret (m_device s).

Definition mount : M bool :=
  path <- mount_path ;;
  w <- platform ;;
  s <- this ;;
  let options :=
    if String.eqb (propString w (m_device s) "IdType") "vfat"
    then [("options", "flush")] else [] in
  perform (SystemBusCall (WithCallback None) (Mount path options)) ;;
  ret (callWithCallbackSent w).

Definition unmount : M bool :=
  path <- mount_path ;;
  w <- platform ;;
  perform (SystemBusCall (WithCallback (Some s_unmountTimeout)) (Unmount path)) ;;
  ret (callWithCallbackSent w).

Definition generateReturnObjectPath : M string :=
  s <- this ;;
  modify (set_number (wrap32 (number s + 1))) ;;
  ret ("/org/kde/solid/UDisks2StorageAccess_" +:+ QString_number (number s)).

Definition requestPassphrase : M bool :=
  s <- this ;;
  w <- platform ;;
  let udi := m_device s in
  let returnService := sessionBaseService w in
  returnObject <- generateReturnObjectPath ;;
  modify (set_lastReturnObject returnObject) ;;
  perform (RegisterObject returnObject) ;;
  let wId := match focusWindow w with Some id => id | None => 0%Z end in
  let appId := applicationName w in
  perform (ShowPassphraseDialog udi returnService returnObject wId appId) ;;
  modify (set_passphraseRequested (showPassphraseDialogValid w)) ;;
  ret (showPassphraseDialogValid w).

Definition callCryptoSetup (passphrase : string) : M unit :=
  s <- this ;;
  perform (SystemBusCall (WithCallback None) (Unlock (m_device s) passphrase)).

Definition callCryptoTeardown (actOnParent : bool) : M bool :=
  s <- this ;;
  w <- platform ;;
  let path :=
    if actOnParent then cryptoBackingDevice w (m_device s) else m_device s in
  perform (SystemBusCall (WithCallback None) (Lock path)) ;;
  ret (callWithCallbackSent w).

Definition setup : M bool :=
  s <- this ;;
  if m_teardownInProgress s || m_setupInProgress s then ret false
  else
    modify (set_setupInProgress true) ;;
    perform (BroadcastActionRequested "setup") ;;
    w <- platform ;;
    locked <- (if isEncryptedContainer w
               then ctPath <- clearTextPath ;; ret (String.eqb ctPath "")
               else ret false) ;;
    if locked then requestPassphrase else mount.

Definition teardown : M bool :=
  s <- this ;;
  if m_teardownInProgress s || m_setupInProgress s then ret false
  else
    modify (set_teardownInProgress true) ;;
    perform (BroadcastActionRequested "teardown") ;;
    unmount.

(** The eject / power-off step of a finished unmount. *)
Definition ejectOrPowerOff : M unit :=
  w <- platform ;;
  let drivePath := drivePath w in
  if negb (String.eqb drivePath "") || negb (String.eqb drivePath "/") then
    if propBool w drivePath "MediaRemovable"
       && propBool w drivePath "MediaAvailable"
       && negb (isOpticalDisc w)
    then perform (SystemBusCall NoBlock (Eject drivePath))
    else if propBool w drivePath "CanPowerOff" && negb (isOpticalDisc w)
    then perform (SystemBusCall NoBlock (PowerOff drivePath))
    else ret tt
  else ret tt.

Definition slotDBusReply : M unit :=
  s <- this ;;
  if m_setupInProgress s then
    luks <- isLuksDevice ;;
    notYet <- (if luks then a <- isAccessible ;; ret (negb a) else ret false) ;;
    if notYet then
      mount ;; ret tt
    else
      modify (set_setupInProgress false) ;;
      perform InvalidateCache ;;
      perform (BroadcastActionDone "setup" NoError "") ;;
      checkAccessibility
  else if m_teardownInProgress s then
    ctPath <- clearTextPath ;;
    luks <- isLuksDevice ;;
    let haveCt := negb (String.eqb ctPath "") && negb (String.eqb ctPath "/") in
    if luks && haveCt then
      callCryptoTeardown false ;; ret tt
    else if haveCt then
      callCryptoTeardown true ;; ret tt
    else
      ejectOrPowerOff ;;
      modify (set_teardownInProgress false) ;;
      perform InvalidateCache ;;
      perform (BroadcastActionDone "teardown" NoError "") ;;
      checkAccessibility
  else ret tt.

Definition slotDBusError (name message : string) : M unit :=
  s <- this ;;
  if m_setupInProgress s then
    modify (set_setupInProgress false) ;;
    perform (BroadcastActionDone "setup" (errorToSolidError name)
               (errorToString name +:+ ": " +:+ message)) ;;
    checkAccessibility
  else if m_teardownInProgress s then
    modify (set_teardownInProgress false) ;;
    perform (BroadcastActionDone "teardown" (errorToSolidError name)
               (errorToString name +:+ ": " +:+ message)) ;;
    checkAccessibility
  else ret tt.

Definition slotSetupRequested : M unit :=
  modify (set_setupInProgress true) ;;
  s <- this ;;
  perform (SetupRequested (m_device s)).

Definition slotSetupDone (error : ErrorType) (errorString : string) : M unit :=
  modify (set_setupInProgress false) ;;
  checkAccessibility ;;
  s <- this ;;
  perform (SetupDone error errorString (m_device s)).

Definition slotTeardownRequested : M unit :=
  modify (set_teardownInProgress true) ;;
  s <- this ;;
  perform (TeardownRequested (m_device s)).

Definition slotTeardownDone (error : ErrorType) (errorString : string) : M unit :=
  modify (set_teardownInProgress false) ;;
  checkAccessibility ;;
  s <- this ;;
  perform (TeardownDone error errorString (m_device s)).

Definition passphraseReply (passphrase : string) : M unit :=
  s <- this ;;
  if m_passphraseRequested s then
    perform (UnregisterObject (m_lastReturnObject s)) ;;
    modify (set_passphraseRequested false) ;;
    if negb (String.eqb passphrase "") then
      callCryptoSetup passphrase
    else
      modify (set_setupInProgress false) ;;
      perform (BroadcastActionDone "setup" UserCanceled "")
  else ret tt.

End Methods.

(** ** The object in its event loop *)

(** What can happen to the object: the two public requests, the reply of
    the passphrase dialog, the completion (reply or error) of the
    outstanding call number [i], the device's [changed()] signal (connected
    to [checkAccessibility]) and the four slots registered with
    [registerAction], which receive the broadcasts of every process. *)
Inductive Input : Set :=
| CallSetup
| CallTeardown
| PassphraseReply (passphrase : string)
| DBusReply (i : nat)
| DBusError (i : nat) (name message : string)
| DeviceChanged
| SetupRequestedSignal
| SetupDoneSignal (error : ErrorType) (errorString : string)
| TeardownRequestedSignal
| TeardownDoneSignal (error : ErrorType) (errorString : string).

(** The asynchronous continuations and signals, as opposed to a fresh
    request of the caller. *)
Definition is_callback (i : Input) : bool :=
  match i with
  | CallSetup | CallTeardown => false
  | _ => true
  end.

(** What an observer of the object sees, in order: an outstanding call
    completes (successfully or with an error), or the object performs an
    effect. *)
Inductive Obs : Set :=
| Completed (c : DaemonCall) (success : bool)
| Did (e : Effect).

Record Sys : Type := {
  object : StorageAccess;
  (* the calls sent with callWithCallback whose reply is still due *)
  pending : list DaemonCall;
  trace : list Obs
}.

(** The calls an invocation registered a callback for. *)
Definition with_callback (e : Effect) : option DaemonCall :=
  match e with
  | SystemBusCall (WithCallback _) c => Some c
  | _ => None
  end.

Definition registered (w : Platform) (es : list Effect) : list DaemonCall :=
  if callWithCallbackSent w then omap with_callback es else [].

Section EventLoop.
Context `{Udisks2}.

(** The method or slot an input invokes (the returned value is dropped). *)
Definition handler (i : Input) : M unit :=
  match i with
  | CallSetup => setup ;; ret tt
  | CallTeardown => teardown ;; ret tt
  | PassphraseReply passphrase => passphraseReply passphrase
  | DBusReply _ => slotDBusReply
  | DBusError _ name message => slotDBusError name message
  | DeviceChanged => checkAccessibility
  | SetupRequestedSignal => slotSetupRequested
  | SetupDoneSignal error errorString => slotSetupDone error errorString
  | TeardownRequestedSignal => slotTeardownRequested
  | TeardownDoneSignal error errorString => slotTeardownDone error errorString
  end.

(** The completion an input delivers, if it is one: [None] at the outer
    level when no such call is outstanding. *)
Definition completion (i : Input) (σ : Sys) : option (list Obs * list DaemonCall) :=
  match i with
  | DBusReply n =>
      c ← pending σ !! n; Some ([Completed c true], delete n (pending σ))
  | DBusError n _ _ =>
      c ← pending σ !! n; Some ([Completed c false], delete n (pending σ))
  | _ => Some ([], pending σ)
  end.

Definition step (w : Platform) (i : Input) (σ : Sys) : option Sys :=
  '(done, rest) ← completion i σ;
  let r := handler i w (object σ) in
  Some {| object := after r;
          pending := rest ++ registered w (effects r);
          trace := trace σ ++ done ++ map Did (effects r) |}.

Fixpoint run (inputs : list (Platform * Input)) (σ : Sys) : option Sys :=
  match inputs with
  | [] => Some σ
  | (w, i) :: inputs' => σ' ← step w i σ; run inputs' σ'
  end.

End EventLoop.

(** A freshly observed object with no call outstanding. *)
Definition idle (s : StorageAccess) : Sys :=
  {| object := s; pending := []; trace := [] |}.

(** Every Mount call of the trace comes after the successful completion of
    an Unlock call. *)
Definition mounts_follow_unlock (tr : list Obs) : Prop :=
  ∀ pre post mode path options,
    tr = pre ++ Did (SystemBusCall mode (Mount path options)) :: post →
    ∃ p passphrase, Completed (Unlock p passphrase) true ∈ pre.

(** The calls that act on the device, as opposed to the read-only
    introspection query. *)
Definition is_action_call (e : Effect) : bool :=
  match e with
  | SystemBusCall _ (Introspect _) => false
  | SystemBusCall _ _ => true
  | _ => false
  end.

Definition is_daemon_call (e : Effect) : bool :=
  match e with
  | SystemBusCall _ _ => true
  | _ => false
  end.

Definition is_broadcast (e : Effect) : bool :=
  match e with
  | BroadcastActionRequested _ | BroadcastActionDone _ _ _ => true
  | _ => false
  end.

Definition is_done_broadcast (e : Effect) : bool :=
  match e with
  | BroadcastActionDone _ _ _ => true
  | _ => false
  end.

Definition is_eject (e : Effect) : bool :=
  match e with
  | SystemBusCall _ (Eject _) => true
  | _ => false
  end.

Definition is_powerOff (e : Effect) : bool :=
  match e with
  | SystemBusCall _ (PowerOff _) => true
  | _ => false
  end.

Definition is_mount (e : Effect) : bool :=
  match e with
  | SystemBusCall _ (Mount _ _) => true
  | _ => false
  end.

Definition is_accessibilityChanged (e : Effect) : bool :=
  match e with
  | AccessibilityChanged _ _ => true
  | _ => false
  end.

(** How many effects of a list satisfy a test. *)
Definition count (p : Effect → bool) (es : list Effect) : nat :=
  length (filter (λ e, p e = true) es).

(** A checker for [mounts_follow_unlock], scanning the trace from its
    start; [seen] tells whether an Unlock call has completed successfully
    so far. *)
Definition is_unlock (c : DaemonCall) : bool :=
  match c with
  | Unlock _ _ => true
  | _ => false
  end.

Definition is_unlock_completion (o : Obs) : bool :=
  match o with
  | Completed c true => is_unlock c
  | _ => false
  end.

Definition is_mount_obs (o : Obs) : bool :=
  match o with
  | Did e => is_mount e
  | _ => false
  end.

Definition unlocked (tr : list Obs) : bool := existsb is_unlock_completion tr.

Fixpoint safe (seen : bool) (tr : list Obs) : bool :=
  match tr with
  | [] => true
  | o :: tr' =>
      (if is_mount_obs o then seen else true)
      && safe (seen || is_unlock_completion o) tr'
  end.

(** An effect is calm when it is no Mount call and registers a callback
    for nothing but an Unlock call; a method is calm when all its effects
    are, on every platform and object. *)
Definition calm_effect (e : Effect) : Prop :=
  is_mount e = false ∧ ∀ c, with_callback e = Some c → is_unlock c = true.

Definition calm {A} (c : M A) : Prop :=
  ∀ w s, Forall calm_effect (effects (c w s)).

(** The invariant of a setup that started on a locked container: the
    trace is safe so far, and as long as no Unlock has completed the only
    calls whose reply is due are Unlock calls. *)
Definition unlock_pending (σ : Sys) : Prop :=
  safe false (trace σ) = true
  ∧ (unlocked (trace σ) = true
     ∨ Forall (λ c, is_unlock c = true) (pending σ)).

(** ** FstabHandling: the caches of /etc/fstab and of the mount table *)

Module Fstab.

(** One record of a mount table as [getmntent] (or [getmntinfo]) returns
    it: source, target, filesystem type and options.  The development
    fixes the configuration HAVE_SETMNTENT of [_k_updateFstabMountPointsCache];
    the live mount table is read by either branch of
    [_k_updateMtabMountPointsCache], which treat a record alike. *)
Record mntent : Set := {
  mnt_fsname : string;
  mnt_dir : string;
  mnt_type : string;
  mnt_opts : string
}.

(** The two tables at the moment of a query: [None] when the file cannot
    be opened ([setmntent] returns a null pointer). *)
Record Files : Set := {
  etc_fstab : option (list mntent);
  mnttab : option (list mntent)
}.

(** [QMultiHash<QString, QString>]: every inserted pair is kept, the most
    recently inserted first, which is the order [values] lists them in.
    The order of [keys] is unspecified in Qt; here it is that of the
    pairs. *)
Definition QStringMultiHash : Set := list (string * string).

Definition mh_insert (k v : string) (h : QStringMultiHash) : QStringMultiHash :=
  (k, v) :: h.

Definition mh_values (k : string) (h : QStringMultiHash) : list string :=
  map snd (filter (λ kv, kv.1 = k) h).

Definition mh_keys (h : QStringMultiHash) : list string := map fst h.

(** [QStringList::removeDuplicates]: the first occurrence of each string
    stays, in order. *)
Fixpoint removeDuplicates_from (seen l : list string) : list string :=
  match l with
  | [] => []
  | x :: rest =>
      if bool_decide (x ∈ seen) then removeDuplicates_from seen rest
      else x :: removeDuplicates_from (x :: seen) rest
  end.

Definition removeDuplicates (l : list string) : list string :=
  removeDuplicates_from [] l.

(** [QString::split(sep)], empty parts kept. *)
Fixpoint split_from (sep : ascii) (cur : string) (s : string) : list string :=
  match s with
  | EmptyString => [String.rev cur]
  | String c rest =>
      if Ascii.eqb c sep then String.rev cur :: split_from sep EmptyString rest
      else split_from sep (String c cur) rest
  end.

Definition split (sep : ascii) (s : string) : list string :=
  split_from sep EmptyString s.

Record FstabHandling : Type := {
  m_fstabCacheValid : bool;
  m_mtabCacheValid : bool;
  m_mtabCache : QStringMultiHash;
  m_fstabCache : QStringMultiHash;
  m_fstabOptionsCache : QStringMultiHash;
  (* QHash<QString, QString>: one value per key, insert replaces *)
  m_fstabFstypeCache : gmap string string
}.

(** The constructor: both caches invalid and empty. *)
Definition new_FstabHandling : FstabHandling :=
  {| m_fstabCacheValid := false; m_mtabCacheValid := false;
     m_mtabCache := []; m_fstabCache := []; m_fstabOptionsCache := [];
     m_fstabFstypeCache := ∅ |}.

Definition _k_isFstabNetworkFileSystem (fstype devName : string) : bool :=
  if String.eqb fstype "nfs"
     || String.eqb fstype "nfs4"
     || String.eqb fstype "smbfs"
     || String.eqb fstype "cifs"
     || String.prefix "//" devName
  then true else false.

Definition _k_isFstabSupportedLocalFileSystem (fstype : string) : bool :=
  if String.eqb fstype "fuse.encfs"
     || String.eqb fstype "fuse.cryfs"
     || String.eqb fstype "overlay"
  then true else false.

Definition _k_deviceNameForMountpoint (source fstype mountpoint : string) : string :=
  if String.prefix "fuse." fstype || String.eqb fstype "overlay"
  then fstype +:+ mountpoint
  else source.

(** The body of the [while] loop over /etc/fstab for one record. *)
Definition fstab_record (st : FstabHandling) (fe : mntent) : FstabHandling :=
  let fsname := mnt_fsname fe in
  let fstype := mnt_type fe in
  if _k_isFstabNetworkFileSystem fstype fsname
     || _k_isFstabSupportedLocalFileSystem fstype
  then
    let mountpoint := mnt_dir fe in
    let device := _k_deviceNameForMountpoint fsname fstype mountpoint in
    let options := split ","%char (mnt_opts fe) in
    {| m_fstabCacheValid := m_fstabCacheValid st;
       m_mtabCacheValid := m_mtabCacheValid st;
       m_mtabCache := m_mtabCache st;
       m_fstabCache := mh_insert device mountpoint (m_fstabCache st);
       m_fstabOptionsCache :=
         foldl (λ h o, mh_insert device o h) (m_fstabOptionsCache st) options;
       m_fstabFstypeCache := <[device := fstype]> (m_fstabFstypeCache st) |}
  else st.

Definition _k_updateFstabMountPointsCache (f : Files) (st : FstabHandling)
    : FstabHandling :=
  if m_fstabCacheValid st then st
  else
    let cleared :=
      {| m_fstabCacheValid := m_fstabCacheValid st;
         m_mtabCacheValid := m_mtabCacheValid st;
         m_mtabCache := m_mtabCache st;
         m_fstabCache := [];
         m_fstabOptionsCache := [];
         m_fstabFstypeCache := m_fstabFstypeCache st |} in
    match etc_fstab f with
    | None => cleared
    | Some records =>
        let parsed := foldl fstab_record cleared records in
        {| m_fstabCacheValid := true;
           m_mtabCacheValid := m_mtabCacheValid parsed;
           m_mtabCache := m_mtabCache parsed;
           m_fstabCache := m_fstabCache parsed;
           m_fstabOptionsCache := m_fstabOptionsCache parsed;
           m_fstabFstypeCache := m_fstabFstypeCache parsed |}
    end.

(** The body of the loop over the mount table for one record; the device
    name passed to the network test is the empty [QString()]. *)
Definition mtab_record (st : FstabHandling) (fe : mntent) : FstabHandling :=
  let type := mnt_type fe in
  if _k_isFstabNetworkFileSystem type ""
     || _k_isFstabSupportedLocalFileSystem type
  then
    let fsname := mnt_fsname fe in
    let mountpoint := mnt_dir fe in
    let device := _k_deviceNameForMountpoint fsname type mountpoint in
    {| m_fstabCacheValid := m_fstabCacheValid st;
       m_mtabCacheValid := m_mtabCacheValid st;
       m_mtabCache := mh_insert device mountpoint (m_mtabCache st);
       m_fstabCache := m_fstabCache st;
       m_fstabOptionsCache := m_fstabOptionsCache st;
       m_fstabFstypeCache := <[device := type]> (m_fstabFstypeCache st) |}
  else st.

Definition _k_updateMtabMountPointsCache (f : Files) (st : FstabHandling)
    : FstabHandling :=
  if m_mtabCacheValid st then st
  else
    let cleared :=
      {| m_fstabCacheValid := m_fstabCacheValid st;
         m_mtabCacheValid := m_mtabCacheValid st;
         m_mtabCache := [];
         m_fstabCache := m_fstabCache st;
         m_fstabOptionsCache := m_fstabOptionsCache st;
         m_fstabFstypeCache := m_fstabFstypeCache st |} in
    match mnttab f with
    | None => cleared
    | Some records =>
        let parsed := foldl mtab_record cleared records in
        {| m_fstabCacheValid := m_fstabCacheValid parsed;
           m_mtabCacheValid := true;
           m_mtabCache := m_mtabCache parsed;
           m_fstabCache := m_fstabCache parsed;
           m_fstabOptionsCache := m_fstabOptionsCache parsed;
           m_fstabFstypeCache := m_fstabFstypeCache parsed |}
    end.

Definition deviceList (f : Files) (st : FstabHandling)
    : list string * FstabHandling :=
  let st := _k_updateFstabMountPointsCache f st in
  let st := _k_updateMtabMountPointsCache f st in
  (removeDuplicates (mh_keys (m_fstabCache st) ++ mh_keys (m_mtabCache st)), st).

Definition mountPoints (device : string) (f : Files) (st : FstabHandling)
    : list string * FstabHandling :=
  let st := _k_updateFstabMountPointsCache f st in
  let st := _k_updateMtabMountPointsCache f st in
  (removeDuplicates
     (mh_values device (m_fstabCache st) ++ mh_values device (m_mtabCache st)),
   st).

Definition options (device : string) (f : Files) (st : FstabHandling)
    : list string * FstabHandling :=
  let st := _k_updateFstabMountPointsCache f st in
  (mh_values device (m_fstabOptionsCache st), st).

Definition fstype (device : string) (f : Files) (st : FstabHandling)
    : string * FstabHandling :=
  let st := _k_updateFstabMountPointsCache f st in
  (default "" (m_fstabFstypeCache st !! device), st).

Definition currentMountPoints (device : string) (f : Files) (st : FstabHandling)
    : list string * FstabHandling :=
  let st := _k_updateMtabMountPointsCache f st in
  (mh_values device (m_mtabCache st), st).

Definition flushMtabCache (st : FstabHandling) : FstabHandling :=
  {| m_fstabCacheValid := m_fstabCacheValid st;
     m_mtabCacheValid := false;
     m_mtabCache := m_mtabCache st;
     m_fstabCache := m_fstabCache st;
     m_fstabOptionsCache := m_fstabOptionsCache st;
     m_fstabFstypeCache := m_fstabFstypeCache st |}.

Definition flushFstabCache (st : FstabHandling) : FstabHandling :=
  {| m_fstabCacheValid := false;
     m_mtabCacheValid := m_mtabCacheValid st;
     m_mtabCache := m_mtabCache st;
     m_fstabCache := m_fstabCache st;
     m_fstabOptionsCache := m_fstabOptionsCache st;
     m_fstabFstypeCache := m_fstabFstypeCache st |}.

(** The five queries under one type, with their answers. *)
Inductive Query : Set :=
| DeviceList
| MountPoints (device : string)
| Options (device : string)
| Fstype (device : string)
| CurrentMountPoints (device : string).

Inductive Answer : Set :=
| QStringList (l : list string)
| QString (s : string).

Definition ask (q : Query) (f : Files) (st : FstabHandling)
    : Answer * FstabHandling :=
  match q with
  | DeviceList => let '(l, st') := deviceList f st in (QStringList l, st')
  | MountPoints d => let '(l, st') := mountPoints d f st in (QStringList l, st')
  | Options d => let '(l, st') := options d f st in (QStringList l, st')
  | Fstype d => let '(s, st') := fstype d f st in (QString s, st')
  | CurrentMountPoints d =>
      let '(l, st') := currentMountPoints d f st in (QStringList l, st')
  end.

(** The operations a client can perform on the cache, and a session of
    them, each against the files as they are at that moment. *)
Inductive Op : Set :=
| Ask (q : Query)
| FlushFstab
| FlushMtab.

Definition apply_op (o : Op) (f : Files) (st : FstabHandling) : FstabHandling :=
  match o with
  | Ask q => (ask q f st).2
  | FlushFstab => flushFstabCache st
  | FlushMtab => flushMtabCache st
  end.

Definition session (ops : list (Op * Files)) (st : FstabHandling) : FstabHandling :=
  foldl (λ st '(o, f), apply_op o f st) st ops.

(** The record is kept by the parse of /etc/fstab, resp. of the mount
    table. *)
Definition fstab_keeps (fe : mntent) : bool :=
  _k_isFstabNetworkFileSystem (mnt_type fe) (mnt_fsname fe)
  || _k_isFstabSupportedLocalFileSystem (mnt_type fe).

Definition mtab_keeps (fe : mntent) : bool :=
  _k_isFstabNetworkFileSystem (mnt_type fe) ""
  || _k_isFstabSupportedLocalFileSystem (mnt_type fe).

(** The device name a kept record is filed under. *)
Definition device_of (fe : mntent) : string :=
  _k_deviceNameForMountpoint (mnt_fsname fe) (mnt_type fe) (mnt_dir fe).

(** The retention rule in the words of the specification: a network
    filesystem type, a source name starting with "//", or one of the
    supported local filesystems. *)
Definition spec_keeps (fe : mntent) : bool :=
  bool_decide (mnt_type fe ∈ ["nfs"; "nfs4"; "smbfs"; "cifs"])
  || String.prefix "//" (mnt_fsname fe)
  || bool_decide (mnt_type fe ∈ ["fuse.encfs"; "fuse.cryfs"; "overlay"]).

(** The pairs a parse files in the mount-point cache, oldest first, and
    the pairs it files in the options cache. *)
Definition fstab_pairs (records : list mntent) : list (string * string) :=
  map (λ fe, (device_of fe, mnt_dir fe)) (filter (λ fe, fstab_keeps fe = true) records).

Definition mtab_pairs (records : list mntent) : list (string * string) :=
  map (λ fe, (device_of fe, mnt_dir fe)) (filter (λ fe, mtab_keeps fe = true) records).

Definition option_pairs (records : list mntent) : list (string * string) :=
  filter (λ fe, fstab_keeps fe = true) records
    ≫= λ fe, map (λ o, (device_of fe, o)) (split ","%char (mnt_opts fe)).

(** A table with only the records its parse keeps. *)
Definition kept (f : Files) : Files :=
  {| etc_fstab := filter (λ fe, fstab_keeps fe = true) <$> etc_fstab f;
     mnttab := filter (λ fe, mtab_keeps fe = true) <$> mnttab f |}.

(** No record of the tables is filed under the device [d]. *)
Definition absent (d : string) (f : Files) : Prop :=
  (∀ records fe, etc_fstab f = Some records → fe ∈ records →
     fstab_keeps fe = true → device_of fe ≠ d)
  ∧ (∀ records fe, mnttab f = Some records → fe ∈ records →
       mtab_keeps fe = true → device_of fe ≠ d).

(** Which caches a query consults. *)
Definition consults_fstab (q : Query) : bool :=
  match q with
  | CurrentMountPoints _ => false
  | _ => true
  end.

Definition consults_mtab (q : Query) : bool :=
  match q with
  | DeviceList | MountPoints _ | CurrentMountPoints _ => true
  | _ => false
  end.

Definition is_ask (o : Op) : bool :=
  match o with
  | Ask _ => true
  | _ => false
  end.

(** Concrete tables: a root filesystem, a CIFS share, and the same share
    mounted with a type that is not in the lists. *)
Definition root_ext4 : mntent :=
  {| mnt_fsname := "/dev/sda1"; mnt_dir := "/"; mnt_type := "ext4";
     mnt_opts := "rw,relatime" |}.

Definition cifs_share : mntent :=
  {| mnt_fsname := "//srv/share"; mnt_dir := "/mnt/share"; mnt_type := "cifs";
     mnt_opts := "rw,user" |}.

Definition smb3_share : mntent :=
  {| mnt_fsname := "//srv/share"; mnt_dir := "/mnt/share"; mnt_type := "smb3";
     mnt_opts := "rw" |}.

(** The share is mounted by hand: it is in the mount table only. *)
Definition mounted_by_hand : Files :=
  {| etc_fstab := Some [root_ext4]; mnttab := Some [root_ext4; cifs_share] |}.

Definition mounted_as_smb3 : Files :=
  {| etc_fstab := Some [root_ext4]; mnttab := Some [root_ext4; smb3_share] |}.

(** The share is configured and mounted; later it is gone from both. *)
Definition share_configured : Files :=
  {| etc_fstab := Some [root_ext4; cifs_share];
     mnttab := Some [root_ext4; cifs_share] |}.

Definition share_removed : Files :=
  {| etc_fstab := Some [root_ext4]; mnttab := Some [root_ext4] |}.

End Fstab.

(** ** Repetition and concrete instances *)

(** [n] invocations of a slot in a row, against the same platform. *)
Fixpoint repeatM (n : nat) (c : M unit) : M unit :=
  match n with
  | O => ret tt
  | S n' => c ;; repeatM n' c
  end.

(** Sample values for the parameters, for the concrete instances below:
    the block-devices path and the unmount timeout of UDisks2 clients, and
    a mapping of daemon error names that tells a busy device from any
    other failure. *)
Definition sample_udisks2 : Udisks2 :=
  {| UD2_DBUS_PATH_BLOCKDEVICES := "/org/freedesktop/UDisks2/block_devices";
     s_unmountTimeout := 2147483647;
     errorToSolidError := λ name,
       if String.eqb name "org.freedesktop.UDisks2.Error.DeviceBusy"
       then DeviceBusy else OperationFailed;
     errorToString := λ name, name |}.

(** An object for the device /org/x/block_1, idle. *)
Definition block_1 : StorageAccess :=
  {| m_device := "/org/x/block_1";
     m_setupInProgress := false; m_teardownInProgress := false;
     m_passphraseRequested := false; m_isAccessible := false;
     m_lastReturnObject := ""; number := 1 |}.

(** A plain partition of a USB hard disk: mounted, the drive is not
    media-removable but can be powered off. *)
Definition usb_disk : Platform :=
  {| isEncryptedContainer := false; isOpticalDisc := false;
     drivePath := "/org/x/drive_1";
     isMounted := λ _, false;
     propBool := λ _ key, String.eqb key "CanPowerOff";
     propString := λ _ _, "";
     cryptoBackingDevice := λ _, "/";
     introspectReply := Some [Some "block_1"];
     callWithCallbackSent := true;
     sessionBaseService := ":1.42"; focusWindow := None;
     applicationName := "dolphin";
     showPassphraseDialogValid := true |}.

(** A card in a reader: the drive is media-removable with media present. *)
Definition card_reader : Platform :=
  {| isEncryptedContainer := false; isOpticalDisc := false;
     drivePath := "/org/x/drive_1";
     isMounted := λ _, false;
     propBool := λ _ key,
       String.eqb key "MediaRemovable" || String.eqb key "MediaAvailable";
     propString := λ _ _, "";
     cryptoBackingDevice := λ _, "/";
     introspectReply := Some [Some "block_1"];
     callWithCallbackSent := true;
     sessionBaseService := ":1.42"; focusWindow := None;
     applicationName := "dolphin";
     showPassphraseDialogValid := true |}.

(** An encrypted container: [cleartext] is the name of the node that
    names the container as its backing device (none while it is locked),
    [mounted] tells whether that cleartext device is mounted. *)
Definition luks (cleartext : option string) (mounted : bool) : Platform :=
  {| isEncryptedContainer := true; isOpticalDisc := false;
     drivePath := "/org/x/drive_1";
     isMounted := λ path,
       mounted && String.eqb path "/org/freedesktop/UDisks2/block_devices/dm_0";
     propBool := λ _ _, false;
     propString := λ _ _, "";
     cryptoBackingDevice := λ path,
       if String.eqb path "/org/freedesktop/UDisks2/block_devices/dm_0"
       then "/org/x/block_1" else "/";
     introspectReply :=
       Some (Some "block_1" :: match cleartext with
                               | Some name => [Some name]
                               | None => []
                               end);
     callWithCallbackSent := true;
     sessionBaseService := ":1.42"; focusWindow := None;
     applicationName := "dolphin";
     showPassphraseDialogValid := true |}.

(** The scenario of the specification: setup of the locked container,
    the passphrase "secret", the Unlock call succeeds (the cleartext device
    dm_0 appears), the Mount call succeeds (it is mounted). *)
Definition unlock_scenario : list (Platform * Input) :=
  [(luks None false, CallSetup);
   (luks None false, PassphraseReply "secret");
   (luks (Some "dm_0") false, DBusReply 0);
   (luks (Some "dm_0") true, DBusReply 0)].

(** ** More of StorageAccess: predicates for its further properties *)

Definition is_unmount (e : Effect) : bool :=
  match e with
  | SystemBusCall _ (Unmount _) => true
  | _ => false
  end.

Definition is_lock (e : Effect) : bool :=
  match e with
  | SystemBusCall _ (Lock _) => true
  | _ => false
  end.

Definition is_unlock_call (e : Effect) : bool :=
  match e with
  | SystemBusCall _ (Unlock _ _) => true
  | _ => false
  end.

Definition is_dialog (e : Effect) : bool :=
  match e with
  | ShowPassphraseDialog _ _ _ _ _ => true
  | _ => false
  end.

(** The slots that receive the "requested" broadcasts set a flag
    unconditionally. *)
Definition is_requested_signal (i : Input) : bool :=
  match i with
  | SetupRequestedSignal | TeardownRequestedSignal => true
  | _ => false
  end.

(** What starts or announces a setup. *)
Definition starts_setup (i : Input) : bool :=
  match i with
  | CallSetup | SetupRequestedSignal => true
  | _ => false
  end.

(** At most one of setup and teardown is in progress. *)
Definition exclusive (s : StorageAccess) : Prop :=
  m_setupInProgress s && m_teardownInProgress s = false.

(** A Hoare triple for the methods: from an object that satisfies [P], on
    every platform, the method ends with a result and an object that
    satisfy [Q], and all its effects satisfy [E]. *)
Definition hoare {A} (P : StorageAccess → Prop) (c : M A)
    (Q : A → StorageAccess → Prop) (E : Effect → Prop) : Prop :=
  ∀ w s, P s →
    Q (result (c w s)) (after (c w s)) ∧ Forall E (effects (c w s)).

(** [k] calls of [generateReturnObjectPath] in a row, with the paths they
    return. *)
Fixpoint returnObjectPaths (k : nat) (w : Platform) (s : StorageAccess)
    : list string :=
  match k with
  | O => []
  | S k' =>
      result (generateReturnObjectPath w s)
      :: returnObjectPaths k' w (after (generateReturnObjectPath w s))
  end.

(** A method keeps the invariant [P] of the object, with effects in
    [E]. *)
Definition keeps {A} (P : StorageAccess → Prop) (E : Effect → Prop) (c : M A) : Prop :=
  hoare P c (λ _ s, P s) E.

(** The invariants every field update other than the setting of an
    in-progress flag or of the passphrase request respects. *)
Definition settled (P : StorageAccess → Prop) : Prop :=
  ∀ s, P s →
    (∀ b, P (set_isAccessible b s))
    ∧ P (set_setupInProgress false s)
    ∧ P (set_teardownInProgress false s)
    ∧ P (set_passphraseRequested false s)
    ∧ (∀ p, P (set_lastReturnObject p s))
    ∧ (∀ n, P (set_number n s)).

(** Neither a setup nor a passphrase request is under way. *)
Definition no_setup (s : StorageAccess) : Prop :=
  m_setupInProgress s = false ∧ m_passphraseRequested s = false.

(** The effects that belong to a setup: the passphrase dialog, Unlock and
    Mount. *)
Definition is_setup_effect (e : Effect) : bool :=
  is_mount e || is_unlock_call e || is_dialog e.

(** ** StorageAccess::filePath and StorageAccess::isIgnored *)

(** An entry of the libmount table: [mnt_fs_get_srcpath] and
    [mnt_fs_get_root] may be null pointers ([None]); [mnt_fs_get_target] is
    decoded with [QFile::decodeName], for which a null pointer is the empty
    byte array. *)
Record libmnt_fs : Set := {
  fs_srcpath : option string;
  fs_root : option string;
  fs_target : string
}.

(** What [filePath] and [isIgnored] read besides [Platform]. *)
Record MountView : Type := {
  (* config-solid.h: whether libmount is used *)
  HAVE_LIBMOUNT : bool;
  (* the table of /proc/self/mountinfo in file order: [None] when
     mnt_new_table() fails or mnt_table_parse_mtab() does not return 0 *)
  mountinfo : option (list libmnt_fs);
  (* qdbus_cast<QByteArrayList>(Device(path).prop("MountPoints")) *)
  propMountPoints : string → list string;
  (* m_device->prop("Device").toByteArray() *)
  propDevice : string;
  (* m_device->prop("UserspaceMountOptions").toStringList() *)
  propUserspaceMountOptions : list string;
  (* QFile::decodeName *)
  decodeName : string → string;
  (* QDir::homePath(): the absolute path of the home directory, the root
     path if there is none, so never empty *)
  homePath : string;
  homePath_not_empty : homePath ≠ EmptyString
}.

(** [b.endsWith('\x00') ? b.chopped(1) : b] *)
Fixpoint chop_nul (b : string) : string :=
  match b with
  | EmptyString => EmptyString
  | String c EmptyString => if Ascii.eqb c zero then EmptyString else b
  | String c rest => String c (chop_nul rest)
  end.

(** The test of the loop of [baseMountPoint] on one entry: the source is
    the device and the root of the mounted tree is "/". *)
Definition is_base_mount (devicePath : string) (fs : libmnt_fs) : bool :=
  match fs_srcpath fs with
  | Some src => String.eqb src devicePath
  | None => String.eqb devicePath ""
  end
  && match fs_root fs with
     | Some r => String.eqb r "/"
     | None => false
     end.

(** The table is walked backwards (MNT_ITER_BACKWARD) up to the first
    entry that passes the test. *)
Definition baseMountPoint (m : MountView) (dev : string) : string :=
  if HAVE_LIBMOUNT m then
    match mountinfo m with
    | Some table =>
        let devicePath := chop_nul dev in
        match List.find (is_base_mount devicePath) (rev table) with
        | Some fs => decodeName m (fs_target fs)
        | None => ""
        end
    | None => ""
    end
  else "".

Section FilePath.
Context `{Udisks2}.

Definition filePath (m : MountView) : M string :=
  luks <- isLuksDevice ;;
  if luks then
    path <- clearTextPath ;;
    if String.eqb path "" || String.eqb path "/" then ret ""
    else
      match propMountPoints m path with
      | first :: _ => ret (decodeName m first)
      | [] => ret ""
      end
  else
    s <- this ;;
    match propMountPoints m (m_device s) with
    | [] => ret ""
    | first :: others =>
        let potentialMountPoint := decodeName m (chop_nul first) in
        match others with
        | [] => ret potentialMountPoint
        | _ :: _ =>
            let basePoint := baseMountPoint m (propDevice m) in
            ret (if negb (String.eqb basePoint "") then basePoint
                 else potentialMountPoint)
        end
    end.

(** [path.startsWith(needle)] is [String.prefix needle path]: the three
    needles are not empty, and for such a needle [startsWith] is false of
    the null and of the empty [QString] alike, which [filePath] returns
    for a device without a mount point. *)
Definition isIgnored (m : MountView) : M bool :=
  w <- platform ;;
  s <- this ;;
  if propBool w (m_device s) "HintIgnore" then ret true
  else if bool_decide ("x-gdu.hide" ∈ propUserspaceMountOptions m) then ret true
  else
    path <- filePath m ;;
    let inUserPath :=
      String.prefix "/media/" path
      || String.prefix "/run/media/" path
      || String.prefix (homePath m) path in
    ret (negb inUserPath).

End FilePath.

(** ** StorageDrive (udisksstoragedrive.cpp) *)

Module StorageDrive.

(** The enumerators of [Solid::StorageDrive::DriveType] and
    [Solid::StorageDrive::Bus] that the methods return (the enumerations
    themselves are declared in a header that is not among the sources). *)
Inductive DriveType : Set :=
| HardDisk | CdromDrive | Floppy | CompactFlash | MemoryStick | SmartMedia | SdMmc.

Inductive Bus : Set :=
| Ide | Usb | Ieee1394 | Scsi | Sata | Platform.

(** The two platforms the preprocessor branches provide for; any other
    build stops at [#error]. *)
Inductive Build : Set :=
| UDEV_FOUND
| Q_OS_FREEBSD.

(** The properties of the drive the methods read. *)
Record Properties : Set := {
  (* m_device->prop("Size").toULongLong() *)
  Size : Z;
  (* m_device->prop("MediaRemovable").toBool(), prop("Removable").toBool() *)
  MediaRemovable : bool;
  Removable : bool;
  (* m_device->prop("MediaCompatibility").toStringList() *)
  MediaCompatibility : list string;
  (* m_device->isOpticalDrive() *)
  isOpticalDrive : bool;
  (* m_device->prop("ConnectionBus").toString() *)
  ConnectionBus : string;
  (* m_udevDevice.deviceProperty("ID_BUS").toString() *)
  ID_BUS : string;
  (* m_udevDevice.deviceProperty("ID_ATA_SATA").toInt() *)
  ID_ATA_SATA : Z;
  (* m_udevDevice.deviceProperty("UDISKS_SYSTEM"): [None] when it is not
     valid, its toBool() otherwise *)
  UDISKS_SYSTEM : option bool;
  (* m_device->prop("bsdisks_IsHotpluggable").toBool() *)
  bsdisks_IsHotpluggable : bool;
  (* m_device->prop("bsdisks_ConnectionBus").toString() *)
  bsdisks_ConnectionBus : string;
  (* m_device->prop("bsdisks_AtaSata").toString() *)
  bsdisks_AtaSata : string
}.

(** [QStringList::contains] *)
Definition contains (l : list string) (x : string) : bool :=
  bool_decide (x ∈ l).

Definition size (p : Properties) : Z := Size p.

Definition isRemovable (p : Properties) : bool :=
  MediaRemovable p || Removable p.

Definition driveType (p : Properties) : DriveType :=
  let mediaTypes := MediaCompatibility p in
  if isOpticalDrive p then CdromDrive
  else if contains mediaTypes "floppy" then Floppy
  else if contains mediaTypes "flash_cf" then CompactFlash
  else if contains mediaTypes "flash_ms" then MemoryStick
  else if contains mediaTypes "flash_sm" then SmartMedia
  else if contains mediaTypes "flash_sd" || contains mediaTypes "flash_sdhc"
          || contains mediaTypes "flash_mmc" || contains mediaTypes "flash_sdxc"
  then SdMmc
  else HardDisk.

Definition bus (b : Build) (p : Properties) : Bus :=
  let bus := ConnectionBus p in
  let udevBus :=
    match b with
    | UDEV_FOUND => ID_BUS p
    | Q_OS_FREEBSD => bsdisks_ConnectionBus p
    end in
  if String.eqb udevBus "ata" then
    match b with
    | UDEV_FOUND => if Z.eqb (ID_ATA_SATA p) 1 then Sata else Ide
    | Q_OS_FREEBSD => if String.eqb (bsdisks_AtaSata p) "sata" then Sata else Ide
    end
  else if String.eqb bus "usb" then Usb
  else if String.eqb bus "ieee1394" then Ieee1394
  else if String.eqb udevBus "scsi" then Scsi
  else Platform.

Definition bus_eqb (x y : Bus) : bool :=
  match x, y with
  | Ide, Ide | Usb, Usb | Ieee1394, Ieee1394 | Scsi, Scsi | Sata, Sata
  | Platform, Platform => true
  | _, _ => false
  end.

Definition isHotpluggable (b : Build) (p : Properties) : bool :=
  let _bus := bus b p in
  match b with
  | UDEV_FOUND =>
      bus_eqb _bus Usb || bus_eqb _bus Ieee1394
      || match UDISKS_SYSTEM p with
         | Some system => negb system
         | None => false
         end
  | Q_OS_FREEBSD => bsdisks_IsHotpluggable p
  end.

(** The media types [driveType] recognises. *)
Definition known_media : list string :=
  ["floppy"; "flash_cf"; "flash_ms"; "flash_sm";
   "flash_sd"; "flash_sdhc"; "flash_mmc"; "flash_sdxc"].

End StorageDrive.

(** ** More of FstabHandling: notions for its further properties *)

Module FstabMore.
Import Fstab.

(** [QStringList::join(sep)], the inverse of [split]. *)
Fixpoint join (sep : ascii) (parts : list string) : string :=
  match parts with
  | [] => EmptyString
  | [part] => part
  | part :: rest => part +:+ String sep (join sep rest)
  end.

(** The separator occurs in the string. *)
Fixpoint occurs (sep : ascii) (s : string) : bool :=
  match s with
  | EmptyString => false
  | String c rest => Ascii.eqb c sep || occurs sep rest
  end.

(** Both tables are read again: what a notification of a change of both
    files makes the next [deviceList] do. *)
Definition refresh (f : Files) (st : FstabHandling) : FstabHandling :=
  (deviceList f (flushFstabCache (flushMtabCache st))).2.

End FstabMore.

(** ** FstabHandling without setmntent: /etc/fstab read as text *)

Module FstabText.
Import Fstab FstabMore.

(** [QChar::isSpace] on the characters a string of this development
    holds, those with a code point below 256: U+0009 to U+000D (tab, line
    feed, vertical tab, form feed, carriage return), U+0020 (space),
    U+0085 (next line) and U+00A0 (no-break space). *)
Definition QChar_isSpace (c : ascii) : bool :=
  let n := N_of_ascii c in
  ((9 <=? n) && (n <=? 13) || (n =? 32) || (n =? 133) || (n =? 160))%N.

(** The maximal runs of characters that are no white space, in order;
    [cur] is the run being read, last character first. *)
Fixpoint words_go (cur : option string) (s : string) : list string :=
  match s with
  | EmptyString => option_list (String.rev <$> cur)
  | String a s =>
      if QChar_isSpace a
      then option_list (String.rev <$> cur) ++ words_go None s
      else words_go (Some (from_option (String a) (String a EmptyString) cur)) s
  end.

Definition words : string → list string := words_go None.

(** [QString::simplified]: the white space ([QChar::isSpace]) at both
    ends is removed and every inner run of white space becomes one space
    character. *)
Definition simplified (s : string) : string :=
  join " "%char (words s).

(** [QStringList::at(i)] on a list known to be long enough. *)
Definition at_ (items : list string) (i : nat) : string :=
  nth i items EmptyString.

(** The body of the [while] loop over the lines of /etc/fstab, for one
    line as [readLine] returns it; [solaris] tells whether Q_OS_SOLARIS is
    defined. *)
Definition fstab_line (solaris : bool) (st : FstabHandling) (raw : string)
    : FstabHandling :=
  let line := simplified raw in
  if String.eqb line "" || String.prefix "#" line then st
  else
    let items := split " "%char line in
    if Nat.ltb (length items) (if solaris then 5 else 4) then st
    else if _k_isFstabNetworkFileSystem (at_ items 2) (at_ items 0)
            || _k_isFstabSupportedLocalFileSystem (at_ items 2)
    then
      let device := at_ items 0 in
      let mountpoint := at_ items 1 in
      {| m_fstabCacheValid := m_fstabCacheValid st;
         m_mtabCacheValid := m_mtabCacheValid st;
         m_mtabCache := m_mtabCache st;
         m_fstabCache := mh_insert device mountpoint (m_fstabCache st);
         m_fstabOptionsCache := m_fstabOptionsCache st;
         m_fstabFstypeCache := m_fstabFstypeCache st |}
    else st.

(** [_k_updateFstabMountPointsCache] in the build without HAVE_SETMNTENT:
    [lines] are the lines of the file, [None] when it cannot be opened. *)
Definition _k_updateFstabMountPointsCache_text (solaris : bool)
    (lines : option (list string)) (st : FstabHandling) : FstabHandling :=
  if m_fstabCacheValid st then st
  else
    let cleared :=
      {| m_fstabCacheValid := m_fstabCacheValid st;
         m_mtabCacheValid := m_mtabCacheValid st;
         m_mtabCache := m_mtabCache st;
         m_fstabCache := [];
         m_fstabOptionsCache := [];
         m_fstabFstypeCache := m_fstabFstypeCache st |} in
    match lines with
    | None => cleared
    | Some ls =>
        let parsed := foldl (fstab_line solaris) cleared ls in
        {| m_fstabCacheValid := true;
           m_mtabCacheValid := m_mtabCacheValid parsed;
           m_mtabCache := m_mtabCache parsed;
           m_fstabCache := m_fstabCache parsed;
           m_fstabOptionsCache := m_fstabOptionsCache parsed;
           m_fstabFstypeCache := m_fstabFstypeCache parsed |}
    end.

(** The string holds a white-space character. *)
Fixpoint has_space (s : string) : bool :=
  match s with
  | EmptyString => false
  | String c rest => QChar_isSpace c || has_space rest
  end.

(** The line has at least four (Solaris: five) words, is no comment and
    names a kept type: [d] and [p] are its first two words. *)
Definition line_gives (solaris : bool) (line d p : string) : Prop :=
  ∃ ty rest,
    words line = d :: p :: ty :: rest
    ∧ String.prefix "#" d = false
    ∧ (if solaris then 2 else 1) ≤ length rest
    ∧ _k_isFstabNetworkFileSystem ty d || _k_isFstabSupportedLocalFileSystem ty = true.

End FstabText.

(** ** Further concrete instances *)


(** block_1 is /dev/sdb1, mounted once. *)
Definition mounted_once : MountView :=
  {| HAVE_LIBMOUNT := true;
     mountinfo :=
       Some [ {| fs_srcpath := Some "/dev/sdb1"; fs_root := Some "/";
                 fs_target := "/run/media/user/disk" |} ];
     propMountPoints := λ path,
       if String.eqb path "/org/x/block_1"
       then ["/run/media/user/disk" +:+ String zero EmptyString] else [];
     propDevice := "/dev/sdb1" +:+ String zero EmptyString;
     propUserspaceMountOptions := [];
     decodeName := λ b, b;
     homePath := "/home/user";
     homePath_not_empty := ltac:(discriminate) |}.

(** Teardown of the unlocked, mounted container. *)
Definition teardown_scenario : list (Platform * Input) :=
  [(luks (Some "dm_0") true, CallTeardown);
   (luks (Some "dm_0") false, DBusReply 0);
   (luks None false, DBusReply 0)].

(** An /etc/fstab as text. *)
Definition fstab_text : list string :=
  ["# /etc/fstab: static file system information.";
   "";
   "/dev/sda1   /            ext4   defaults   0 1";
   "  //srv/share  /mnt/share  cifs  rw,user  0 0  ";
   "srv:/export /mnt/export nfs"].

(** ** Requests and their answers *)

(** The four slots for the broadcasts, of other objects or of the object
    itself. *)
Definition is_signal (i : Input) : bool :=
  match i with
  | SetupRequestedSignal | SetupDoneSignal _ _
  | TeardownRequestedSignal | TeardownDoneSignal _ _ => true
  | _ => false
  end.

(** The inputs that deliver the completion of a call. *)
Definition is_completion (i : Input) : bool :=
  match i with
  | DBusReply _ | DBusError _ _ _ => true
  | _ => false
  end.

Definition is_requested (action : string) (e : Effect) : bool :=
  match e with
  | BroadcastActionRequested a => String.eqb a action
  | _ => false
  end.

Definition is_done (action : string) (e : Effect) : bool :=
  match e with
  | BroadcastActionDone a _ _ => String.eqb a action
  | _ => false
  end.

(** The effects of a trace, in order. *)
Definition performed (tr : list Obs) : list Effect :=
  omap (λ o, match o with Did e => Some e | Completed _ _ => None end) tr.

(** Every request broadcast so far was answered by a done broadcast of
    the same action, but the one in progress. *)
Definition answered (σ : Sys) : Prop :=
  count (is_requested "setup") (performed (trace σ))
  = count (is_done "setup") (performed (trace σ))
    + Nat.b2n (m_setupInProgress (object σ))
  ∧ count (is_requested "teardown") (performed (trace σ))
    = count (is_done "teardown") (performed (trace σ))
      + Nat.b2n (m_teardownInProgress (object σ)).

(** At most one call is outstanding, and only while an action is in
    progress and no passphrase is being asked for. *)
Definition one_outstanding (σ : Sys) : Prop :=
  length (pending σ) ≤ 1
  ∧ (pending σ ≠ [] →
     m_setupInProgress (object σ) || m_teardownInProgress (object σ) = true
     ∧ m_passphraseRequested (object σ) = false).

Definition orderly (σ : Sys) : Prop :=
  answered σ
  ∧ exclusive (object σ)
  ∧ (m_passphraseRequested (object σ) = true → m_setupInProgress (object σ) = true)
  ∧ one_outstanding σ.

(** An effect that is no broadcast of an action and registers no
    callback. *)
Definition silent (e : Effect) : Prop :=
  is_broadcast e = false ∧ with_callback e = None.

(** An invocation that leaves the three flags as they are, broadcasts
    nothing and registers no callback. *)
Definition neutral {A} (s : StorageAccess) (r : A * StorageAccess * list Effect)
    : Prop :=
  m_setupInProgress (after r) = m_setupInProgress s
  ∧ m_teardownInProgress (after r) = m_teardownInProgress s
  ∧ m_passphraseRequested (after r) = m_passphraseRequested s
  ∧ Forall silent (effects r).

(** An invocation whose broadcasts account for its changes of the flags
    and which leaves at most one callback registered, none without an
    action in progress and none while it asks for a passphrase. *)
Definition accounts {A} (w : Platform) (s : StorageAccess)
    (r : A * StorageAccess * list Effect) : Prop :=
  count (is_requested "setup") (effects r) + Nat.b2n (m_setupInProgress s)
  = count (is_done "setup") (effects r) + Nat.b2n (m_setupInProgress (after r))
  ∧ count (is_requested "teardown") (effects r) + Nat.b2n (m_teardownInProgress s)
    = count (is_done "teardown") (effects r)
      + Nat.b2n (m_teardownInProgress (after r))
  ∧ exclusive (after r)
  ∧ (m_passphraseRequested (after r) = true →
     m_setupInProgress (after r) = true ∧ registered w (effects r) = [])
  ∧ length (registered w (effects r)) ≤ 1
  ∧ (registered w (effects r) ≠ [] →
     m_setupInProgress (after r) || m_teardownInProgress (after r) = true).

(** The object accepts a request or expects a passphrase. *)
Definition acts (s : StorageAccess) : Prop :=
  m_setupInProgress s || m_teardownInProgress s = false
  ∨ m_passphraseRequested s = true.

(** The cleartext device is mounted by the time the reply to the Unlock
    call is handled (the desktop mounted it as soon as it appeared). *)
Definition mounted_at_unlock_scenario : list (Platform * Input) :=
  [(luks None false, CallSetup);
   (luks None false, PassphraseReply "secret");
   (luks (Some "dm_0") true, DBusReply 0)].




(** A line of /etc/fstab whose first two fields are separated by a
    no-break space (U+00A0). *)
Definition no_break_space_line : string :=
  "//x" +:+ String (ascii_of_N 160) "/mnt nfs rw".


(** * Properties of StorageAccess *)

Section MethodFacts.
Context `{Udisks2}.

(** [isAccessible] is a query: it leaves the object as it is, and its
    answer depends on the object only through the device it wraps. *)
Lemma isAccessible_after (w : Platform) (s : StorageAccess) :
  after (isAccessible w s) = s.
Proof.
  unfold isAccessible, isLuksDevice, clearTextPath, bind, ret, platform, this, perform, after.
  simpl. destruct (isEncryptedContainer w); simpl; [|reflexivity].
  destruct (_ || _); reflexivity.
Qed.

Lemma isAccessible_same_device (w : Platform) (s s' : StorageAccess) :
  m_device s = m_device s' →
  result (isAccessible w s) = result (isAccessible w s') ∧
  effects (isAccessible w s) = effects (isAccessible w s').
Proof.
  intros Hd.
  unfold isAccessible, isLuksDevice, clearTextPath, bind, ret, platform, this, perform,
    result, effects.
  simpl. destruct (isEncryptedContainer w); simpl; rewrite Hd; [|done].
  destruct (_ || _); done.
Qed.

(** The only effect of [isAccessible] is the read-only introspection
    query. *)
Lemma isAccessible_effects (w : Platform) (s : StorageAccess) :
  effects (isAccessible w s) =
    if isEncryptedContainer w
    then [SystemBusCall Blocking (Introspect UD2_DBUS_PATH_BLOCKDEVICES)]
    else [].
Proof.
  unfold isAccessible, isLuksDevice, clearTextPath, bind, ret, platform, this, perform,
    effects.
  simpl. destruct (isEncryptedContainer w); simpl; [|done].
  destruct (_ || _); done.
Qed.

(** [checkAccessibility], in one equation: the cache takes the recomputed
    value, the effects are those of the recomputation followed by the
    signal when, and only when, the value differs from the cached one. *)
Lemma checkAccessibility_eq (w : Platform) (s : StorageAccess) :
  checkAccessibility w s =
    (tt, set_isAccessible (result (isAccessible w s)) s,
     effects (isAccessible w s) ++
       if Bool.eqb (m_isAccessible s) (result (isAccessible w s)) then []
       else [AccessibilityChanged (result (isAccessible w s)) (m_device s)]).
Proof.
  pose proof (isAccessible_after w s) as Ha.
  unfold checkAccessibility, updateCache, bind, this, modify, ret, perform.
  unfold after, result, effects in *.
  destruct (isAccessible w s) as [[a s1] e1]. simpl in *. subst s1.
  destruct (Bool.eqb (m_isAccessible s) a); simpl; rewrite ?app_nil_r; reflexivity.
Qed.

End MethodFacts.

Lemma count_app (p : Effect → bool) (es1 es2 : list Effect) :
  count p (es1 ++ es2) = count p es1 + count p es2.
Proof. unfold count. by rewrite filter_app, length_app. Qed.

Lemma count_cons (p : Effect → bool) (e : Effect) (es : list Effect) :
  count p (e :: es) = (if p e then 1 else 0) + count p es.
Proof.
  unfold count. rewrite filter_cons.
  case_decide as E; rewrite E || (apply not_true_is_false in E; rewrite E); done.
Qed.

Lemma count_nil (p : Effect → bool) : count p [] = 0.
Proof. reflexivity. Qed.

Section Accessibility.
Context `{Udisks2}.

(** Repeating [checkAccessibility] against an unchanged platform once the
    cache agrees with it emits nothing. *)
Lemma repeat_checkAccessibility_stable (w : Platform) (n : nat) (s : StorageAccess) :
  m_isAccessible s = result (isAccessible w s) →
  after (repeatM n checkAccessibility w s) = s ∧
  count is_accessibilityChanged (effects (repeatM n checkAccessibility w s)) = 0.
Proof.
  induction n as [|n IH]; intros Hs; [done|].
  destruct (IH Hs) as [IHa IHc].
  cbn [repeatM]. unfold bind. rewrite checkAccessibility_eq, <- Hs.
  rewrite Bool.eqb_reflx, app_nil_r.
  assert (set_isAccessible (m_isAccessible s) s = s) as -> by by destruct s.
  pose proof (isAccessible_effects w s) as He.
  unfold after, effects in *.
  destruct (repeatM n checkAccessibility w s) as [[[] s2] e2]; simpl in *.
  split; [done|]. rewrite count_app, IHc, He.
  by destruct (isEncryptedContainer w).
Qed.

(** C2: [checkAccessibility] stores the recomputed accessibility, and
    emits [accessibilityChanged], with the new value and the device
    identifier, exactly when that value differs from the cached one; when
    it is the same the object is left as it was and the only effect is the
    recomputation's own read-only introspection query; repeated against an
    unchanged platform, any number of calls emit at most one notification
    in total. *)
Theorem checkAccessibility_notifies_iff_changed (w : Platform) (s : StorageAccess) :
  after (checkAccessibility w s) = set_isAccessible (result (isAccessible w s)) s
  ∧ filter (λ e, is_accessibilityChanged e = true) (effects (checkAccessibility w s))
    = (if Bool.eqb (m_isAccessible s) (result (isAccessible w s)) then []
       else [AccessibilityChanged (result (isAccessible w s)) (m_device s)])
  ∧ (m_isAccessible s = result (isAccessible w s) →
     after (checkAccessibility w s) = s
     ∧ effects (checkAccessibility w s)
       = (if isEncryptedContainer w
          then [SystemBusCall Blocking (Introspect UD2_DBUS_PATH_BLOCKDEVICES)]
          else []))
  ∧ (m_isAccessible s ≠ result (isAccessible w s) →
     m_isAccessible (after (checkAccessibility w s)) = result (isAccessible w s)
     ∧ count is_accessibilityChanged (effects (checkAccessibility w s)) = 1)
  ∧ ∀ n, count is_accessibilityChanged
           (effects (repeatM n checkAccessibility w s)) ≤ 1.
Proof.
  assert (∀ b, filter (λ e, is_accessibilityChanged e = true)
                 (effects (isAccessible w s) ++ b)
               = filter (λ e, is_accessibilityChanged e = true) b) as Hf.
  { intros b. rewrite filter_app, isAccessible_effects.
    by destruct (isEncryptedContainer w). }
  rewrite checkAccessibility_eq. cbn [after effects fst snd].
  split; [done|]. split.
  { rewrite Hf. by destruct (Bool.eqb _ _). }
  split.
  { intros Hs. rewrite <- Hs at 1 2. rewrite Bool.eqb_reflx, app_nil_r.
    split; [by destruct s | apply isAccessible_effects]. }
  split.
  { intros Hs. split; [done|]. unfold count. rewrite Hf.
    destruct (Bool.eqb _ _) eqn:E; [|done].
    by apply Bool.eqb_prop in E. }
  intros [|n]; [cbn; lia|].
  cbn [repeatM]. unfold bind. rewrite checkAccessibility_eq.
  set (now := result (isAccessible w s)).
  destruct (repeat_checkAccessibility_stable w n (set_isAccessible now s)) as [_ Hc].
  { symmetry. by apply isAccessible_same_device. }
  destruct (repeatM n checkAccessibility w (set_isAccessible now s)) as [[[] s2] e2].
  cbn [effects fst snd] in *. rewrite !count_app, Hc, isAccessible_effects.
  destruct (isEncryptedContainer w), (Bool.eqb _ _);
    rewrite ?count_cons, ?count_nil; cbn; lia.
Qed.

End Accessibility.

Ltac unfold_M := unfold bind, ret, this, modify, perform, platform.

Section Requests.
Context `{Udisks2}.

(** C1: while a setup or a teardown is in progress, [setup()] and
    [teardown()] return false at once: the object is left exactly as it
    was (the flags, the accessibility cache and every other field) and no
    effect at all is performed, so no platform request is sent and nothing
    is broadcast. *)
Theorem request_rejected_while_busy (w : Platform) (s : StorageAccess) :
  m_setupInProgress s = true ∨ m_teardownInProgress s = true →
  setup w s = (false, s, []) ∧ teardown w s = (false, s, []).
Proof.
  intros Hbusy.
  assert (m_teardownInProgress s || m_setupInProgress s = true) as Hor.
  { destruct Hbusy as [-> | ->]; by rewrite ?orb_true_r. }
  unfold setup, teardown. unfold_M. by rewrite Hor.
Qed.

(** C4: a passphrase reply that arrives while no passphrase is requested
    is ignored, whatever the passphrase: the object keeps every field and
    no effect is performed. *)
Theorem unrequested_passphraseReply_ignored
    (w : Platform) (s : StorageAccess) (passphrase : string) :
  m_passphraseRequested s = false →
  passphraseReply passphrase w s = (tt, s, []).
Proof.
  intros Hreq. unfold passphraseReply. unfold_M. by rewrite Hreq.
Qed.

(** C3: the reply "" to a requested passphrase unregisters the reply
    object, clears [m_passphraseRequested] and [m_setupInProgress], and
    broadcasts setup-done with [UserCanceled] once; it sends no call to the
    daemon (no Unlock, nor any other) and keeps the accessibility cache. *)
Theorem empty_passphraseReply_cancels (w : Platform) (s : StorageAccess) :
  m_passphraseRequested s = true →
  passphraseReply "" w s
    = (tt, set_setupInProgress false (set_passphraseRequested false s),
       [UnregisterObject (m_lastReturnObject s);
        BroadcastActionDone "setup" UserCanceled ""])
  ∧ m_setupInProgress (after (passphraseReply "" w s)) = false
  ∧ filter (λ e, is_broadcast e = true) (effects (passphraseReply "" w s))
    = [BroadcastActionDone "setup" UserCanceled ""]
  ∧ count is_daemon_call (effects (passphraseReply "" w s)) = 0
  ∧ m_isAccessible (after (passphraseReply "" w s)) = m_isAccessible s.
Proof.
  intros Hreq.
  assert (passphraseReply "" w s
    = (tt, set_setupInProgress false (set_passphraseRequested false s),
       [UnregisterObject (m_lastReturnObject s);
        BroadcastActionDone "setup" UserCanceled ""])) as ->.
  { unfold passphraseReply. unfold_M. by rewrite Hreq. }
  done.
Qed.

(** [checkAccessibility] neither calls the daemon to act on a device nor
    broadcasts anything. *)
Lemma checkAccessibility_quiet (w : Platform) (s : StorageAccess) :
  count is_action_call (effects (checkAccessibility w s)) = 0
  ∧ count is_done_broadcast (effects (checkAccessibility w s)) = 0.
Proof.
  rewrite checkAccessibility_eq. cbn [effects snd].
  rewrite !count_app, isAccessible_effects.
  destruct (isEncryptedContainer w), (Bool.eqb _ _);
    rewrite ?count_cons, ?count_nil; done.
Qed.

Lemma checkAccessibility_cache (w : Platform) (s : StorageAccess) :
  m_isAccessible (after (checkAccessibility w s)) = result (isAccessible w s).
Proof. by rewrite checkAccessibility_eq. Qed.

(** C7: an error reported by the daemon while a setup (or else a
    teardown) is in progress clears that flag, broadcasts the action's
    done-notification exactly once, with the error kind mapped from the
    error name and the message "<error string>: <message>", and then
    rechecks accessibility; no call that acts on a device is sent, so
    nothing is retried. *)
Theorem daemon_error_ends_action
    (w : Platform) (s : StorageAccess) (name message : string) :
  m_setupInProgress s = true ∨ m_teardownInProgress s = true →
  (m_setupInProgress s = true →
   slotDBusError name message w s
     = (tt, after (checkAccessibility w (set_setupInProgress false s)),
        BroadcastActionDone "setup" (errorToSolidError name)
          (errorToString name +:+ ": " +:+ message)
        :: effects (checkAccessibility w (set_setupInProgress false s)))
   ∧ m_setupInProgress (after (slotDBusError name message w s)) = false)
  ∧ (m_setupInProgress s = false →
     slotDBusError name message w s
       = (tt, after (checkAccessibility w (set_teardownInProgress false s)),
          BroadcastActionDone "teardown" (errorToSolidError name)
            (errorToString name +:+ ": " +:+ message)
          :: effects (checkAccessibility w (set_teardownInProgress false s)))
     ∧ m_teardownInProgress (after (slotDBusError name message w s)) = false)
  ∧ count is_done_broadcast (effects (slotDBusError name message w s)) = 1
  ∧ count is_action_call (effects (slotDBusError name message w s)) = 0
  ∧ m_isAccessible (after (slotDBusError name message w s))
    = result (isAccessible w s).
Proof.
  intros Hbusy.
  assert (∀ s', after (checkAccessibility w s') = set_isAccessible (result (isAccessible w s')) s')
    as Hafter by (intros; by rewrite checkAccessibility_eq).
  destruct (m_setupInProgress s) eqn:Hs.
  - assert (slotDBusError name message w s
      = (tt, after (checkAccessibility w (set_setupInProgress false s)),
         BroadcastActionDone "setup" (errorToSolidError name)
           (errorToString name +:+ ": " +:+ message)
         :: effects (checkAccessibility w (set_setupInProgress false s)))) as ->.
    { unfold slotDBusError. unfold_M. rewrite Hs.
      by destruct (checkAccessibility w (set_setupInProgress false s)) as [[[] ?] ?]. }
    cbn [after effects fst snd].
    destruct (checkAccessibility_quiet w (set_setupInProgress false s)) as [Hc Hd].
    rewrite !count_cons, Hc, Hd, Hafter.
    repeat split; try done.
    cbn. by apply isAccessible_same_device.
  - destruct Hbusy as [|Ht]; [done|].
    assert (slotDBusError name message w s
      = (tt, after (checkAccessibility w (set_teardownInProgress false s)),
         BroadcastActionDone "teardown" (errorToSolidError name)
           (errorToString name +:+ ": " +:+ message)
         :: effects (checkAccessibility w (set_teardownInProgress false s)))) as ->.
    { unfold slotDBusError. unfold_M. rewrite Hs, Ht.
      by destruct (checkAccessibility w (set_teardownInProgress false s)) as [[[] ?] ?]. }
    cbn [after effects fst snd].
    destruct (checkAccessibility_quiet w (set_teardownInProgress false s)) as [Hc Hd].
    rewrite !count_cons, Hc, Hd, Hafter.
    repeat split; try done.
    cbn. by apply isAccessible_same_device.
Qed.

End Requests.

Section TeardownCompletion.
Context `{Udisks2}.

Lemma ejectOrPowerOff_after (w : Platform) (s : StorageAccess) :
  after (ejectOrPowerOff w s) = s.
Proof.
  unfold ejectOrPowerOff. unfold_M.
  repeat (destruct (_ || _) || destruct (_ && _)); reflexivity.
Qed.

(** The eject / power-off step sends Eject when the drive is
    media-removable, has media and the device is not optical; otherwise
    PowerOff when the drive can power off and the device is not optical;
    otherwise nothing. *)
Lemma ejectOrPowerOff_effects (w : Platform) (s : StorageAccess) :
  effects (ejectOrPowerOff w s) =
    if propBool w (drivePath w) "MediaRemovable"
       && propBool w (drivePath w) "MediaAvailable"
       && negb (isOpticalDisc w)
    then [SystemBusCall NoBlock (Eject (drivePath w))]
    else if propBool w (drivePath w) "CanPowerOff" && negb (isOpticalDisc w)
    then [SystemBusCall NoBlock (PowerOff (drivePath w))]
    else [].
Proof.
  unfold ejectOrPowerOff. unfold_M.
  assert (negb (String.eqb (drivePath w) "") || negb (String.eqb (drivePath w) "/") = true)
    as ->.
  { destruct (String.eqb_spec (drivePath w) "") as [->|]; done. }
  repeat (destruct (_ && _)); reflexivity.
Qed.

(** The last branch of [slotDBusReply] during a teardown: no cleartext
    device is found for the device. *)
Lemma slotDBusReply_teardown_finishes (w : Platform) (s : StorageAccess) :
  m_setupInProgress s = false →
  m_teardownInProgress s = true →
  result (clearTextPath w s) = "" ∨ result (clearTextPath w s) = "/" →
  slotDBusReply w s
    = (tt, after (checkAccessibility w (set_teardownInProgress false s)),
       SystemBusCall Blocking (Introspect UD2_DBUS_PATH_BLOCKDEVICES)
       :: effects (ejectOrPowerOff w s)
       ++ [InvalidateCache; BroadcastActionDone "teardown" NoError ""]
       ++ effects (checkAccessibility w (set_teardownInProgress false s))).
Proof.
  intros Hs Ht Hct.
  pose proof (ejectOrPowerOff_after w s) as Ha.
  unfold slotDBusReply, clearTextPath, isLuksDevice in *. unfold_M.
  unfold bind, ret, this, perform, platform in Hct. cbn in Hct.
  rewrite Hs, Ht. cbn -[ejectOrPowerOff checkAccessibility].
  set (ct := match introspectReply w with
             | Some nodeList => clearTextPath_nodes w (m_device s) nodeList
             | None => ""
             end) in *.
  assert (negb (String.eqb ct "") && negb (String.eqb ct "/") = false) as ->.
  { destruct Hct as [-> | ->]; done. }
  rewrite andb_false_r.
  destruct (ejectOrPowerOff w s) as [[[] s1] e1]. cbn in Ha. subst s1.
  destruct (checkAccessibility w (set_teardownInProgress false s)) as [[[] s2] e2].
  reflexivity.
Qed.

(** C6, as the code has it: when an unmount completes during a teardown
    and no cleartext device is involved, exactly one Eject (and no
    PowerOff) is sent if the drive is media-removable, has media and the
    device is not optical; nothing of the two is sent if the device is
    optical; and otherwise (the drive is not media-removable, or holds no
    media) no Eject is sent and one PowerOff is sent exactly when the drive
    can power off. *)
Theorem teardown_completion_ejects_or_powers_off (w : Platform) (s : StorageAccess) :
  m_setupInProgress s = false →
  m_teardownInProgress s = true →
  result (clearTextPath w s) = "" ∨ result (clearTextPath w s) = "/" →
  count is_eject (effects (slotDBusReply w s))
    = (if propBool w (drivePath w) "MediaRemovable"
          && propBool w (drivePath w) "MediaAvailable"
          && negb (isOpticalDisc w)
       then 1 else 0)
  ∧ count is_powerOff (effects (slotDBusReply w s))
    = (if propBool w (drivePath w) "MediaRemovable"
          && propBool w (drivePath w) "MediaAvailable"
          && negb (isOpticalDisc w)
       then 0
       else if isOpticalDisc w then 0
       else if propBool w (drivePath w) "CanPowerOff" then 1 else 0).
Proof.
  intros Hs Ht Hct.
  rewrite (slotDBusReply_teardown_finishes w s Hs Ht Hct). cbn [effects snd].
  rewrite !count_cons, !count_app, !count_cons, count_nil.
  rewrite checkAccessibility_eq. cbn [effects snd].
  rewrite !count_app, isAccessible_effects, ejectOrPowerOff_effects.
  destruct (propBool w (drivePath w) "MediaRemovable"),
    (propBool w (drivePath w) "MediaAvailable"),
    (propBool w (drivePath w) "CanPowerOff"),
    (isOpticalDisc w), (isEncryptedContainer w), (Bool.eqb _ _);
    rewrite ?count_cons, ?count_nil; done.
Qed.

End TeardownCompletion.

(** ** Setup of a locked container: the order of Unlock and Mount *)

Lemma safe_app (seen : bool) (tr1 tr2 : list Obs) :
  safe seen (tr1 ++ tr2) = safe seen tr1 && safe (seen || unlocked tr1) tr2.
Proof.
  revert seen. induction tr1 as [|o tr1 IH]; intros seen; cbn.
  - by rewrite orb_false_r.
  - rewrite IH, <- andb_assoc, <- orb_assoc. done.
Qed.

Lemma safe_seen (tr : list Obs) : safe true tr = true.
Proof. induction tr as [|o tr IH]; cbn; [done|]. by destruct (is_mount_obs o). Qed.

Lemma safe_without_mount (seen : bool) (tr : list Obs) :
  Forall (λ o, is_mount_obs o = false) tr → safe seen tr = true.
Proof.
  intros Hf. revert seen. induction Hf as [|o tr Ho _ IH]; intros seen; cbn; [done|].
  by rewrite Ho, IH.
Qed.

Lemma unlocked_app (tr1 tr2 : list Obs) :
  unlocked (tr1 ++ tr2) = unlocked tr1 || unlocked tr2.
Proof. apply existsb_app. Qed.

(** The checker is sound for [mounts_follow_unlock]. *)
Lemma safe_sound_from (seen : bool) (tr : list Obs) :
  safe seen tr = true →
  ∀ pre post mode path options,
    tr = pre ++ Did (SystemBusCall mode (Mount path options)) :: post →
    seen = true ∨ ∃ p passphrase, Completed (Unlock p passphrase) true ∈ pre.
Proof.
  revert seen. induction tr as [|o tr IH]; intros seen Hsafe pre post mode path options Heq.
  - by destruct pre.
  - cbn in Hsafe. apply andb_prop in Hsafe as [Hhere Hrest].
    destruct pre as [|o' pre]; simplify_eq/=; [by left|].
    destruct (IH _ Hrest _ _ _ _ _ eq_refl) as [Hseen | (p & pass & Hin)].
    + apply orb_prop in Hseen as [-> | Hc]; [by left|]. right.
      destruct o' as [[] []|]; try done. eexists _, _. by left.
    + right. eexists _, _. by right.
Qed.

Lemma safe_sound (tr : list Obs) :
  safe false tr = true → mounts_follow_unlock tr.
Proof.
  intros Hsafe pre post mode path options Heq.
  by destruct (safe_sound_from _ _ Hsafe _ _ _ _ _ Heq).
Qed.

Lemma calm_ret {A} (a : A) : calm (ret a).
Proof. intros w s. constructor. Qed.

Lemma calm_this : calm this.
Proof. intros w s. constructor. Qed.

Lemma calm_platform : calm platform.
Proof. intros w s. constructor. Qed.

Lemma calm_modify (f : StorageAccess → StorageAccess) : calm (modify f).
Proof. intros w s. constructor. Qed.

Lemma calm_perform (e : Effect) : calm_effect e → calm (perform e).
Proof. intros He w s. cbn. constructor; [done | constructor]. Qed.

Lemma calm_bind {A B} (c : M A) (k : A → M B) :
  calm c → (∀ a, calm (k a)) → calm (bind c k).
Proof.
  intros Hc Hk w s. specialize (Hc w s). unfold bind.
  destruct (c w s) as [[a s1] e1]. specialize (Hk a w s1).
  destruct (k a w s1) as [[b s2] e2]. cbn in *. by apply Forall_app.
Qed.

Ltac calm_step :=
  first
    [ apply calm_ret | apply calm_this | apply calm_platform | apply calm_modify
    | apply calm_perform; split; [reflexivity | by intros ? [=]]
    | apply calm_perform; split; [reflexivity | by intros ? [= <-]]
    | apply calm_bind; [|intros ?]
    | match goal with |- calm (if ?b then _ else _) => destruct b end ].

Section CalmCallbacks.
Context `{Udisks2}.

Lemma calm_isAccessible : calm isAccessible.
Proof. unfold isAccessible, isLuksDevice, clearTextPath. repeat calm_step. Qed.

Lemma calm_checkAccessibility : calm checkAccessibility.
Proof.
  unfold checkAccessibility, updateCache.
  repeat (apply calm_isAccessible || calm_step).
Qed.

(** Every input but a new request and a successful reply is handled
    calmly. *)
Lemma calm_handler (i : Input) :
  is_callback i = true → (∀ n, i ≠ DBusReply n) → calm (handler i).
Proof.
  intros Hcb Hnr. destruct i; try done; cbn [handler].
  - unfold passphraseReply, callCryptoSetup. repeat calm_step.
  - by destruct (Hnr i).
  - unfold slotDBusError. repeat (apply calm_checkAccessibility || calm_step).
  - apply calm_checkAccessibility.
  - unfold slotSetupRequested. repeat calm_step.
  - unfold slotSetupDone. repeat (apply calm_checkAccessibility || calm_step).
  - unfold slotTeardownRequested. repeat calm_step.
  - unfold slotTeardownDone. repeat (apply calm_checkAccessibility || calm_step).
Qed.

End CalmCallbacks.

Lemma calm_no_mount (es : list Effect) :
  Forall calm_effect es → Forall (λ o, is_mount_obs o = false) (map Did es).
Proof.
  intros Hc. apply Forall_map. eapply Forall_impl; [done|]. by intros e [? _].
Qed.

Lemma calm_registered (w : Platform) (es : list Effect) :
  Forall calm_effect es → Forall (λ c, is_unlock c = true) (registered w es).
Proof.
  intros Hc. unfold registered. destruct (callWithCallbackSent w); [|done].
  induction Hc as [|e es [_ He] _ IH]; cbn; [done|].
  destruct (with_callback e) eqn:E; [|done]. constructor; [by apply He | done].
Qed.

Section UnlockBeforeMount.
Context `{Udisks2}.

Lemma completion_other (i : Input) (σ : Sys) (done : list Obs) (rest : list DaemonCall) :
  (∀ n, i ≠ DBusReply n) →
  completion i σ = Some (done, rest) →
  Forall (λ o, is_mount_obs o = false) done
  ∧ (Forall (λ c, is_unlock c = true) (pending σ) →
     Forall (λ c, is_unlock c = true) rest).
Proof.
  intros Hnr Hc. destruct i; cbn in Hc; simplify_eq; try by repeat constructor.
  - by destruct (Hnr i).
  - destruct (pending σ !! i) eqn:E; simplify_eq/=.
    split; [by repeat constructor|]. apply Forall_delete.
Qed.

Lemma step_unlock_pending (w : Platform) (i : Input) (σ σ' : Sys) :
  is_callback i = true →
  unlock_pending σ →
  step w i σ = Some σ' →
  unlock_pending σ'.
Proof.
  intros Hcb [Hsafe Hpend] Hstep. unfold step in Hstep.
  destruct (completion i σ) as [[done rest]|] eqn:Hc; simplify_eq/=.
  unfold unlock_pending; cbn.
  rewrite safe_app, Hsafe, !unlocked_app. cbn.
  destruct (unlocked (trace σ)) eqn:Hu; cbn.
  { split; [apply safe_seen | by left]. }
  destruct Hpend as [|Hpend]; [done|].
  assert ((∃ n, i = DBusReply n) ∨ (∀ n, i ≠ DBusReply n)) as [[n ->]|Hnr']
    by (destruct i; eauto; by right).
  - (* the reply to an Unlock call *)
    cbn in Hc. destruct (pending σ !! n) as [c|] eqn:E; simplify_eq/=.
    assert (is_unlock c = true) as Hc.
    { eapply Forall_lookup_1 in Hpend; done. }
    rewrite Hc. cbn. split; [apply safe_seen | by left].
  - destruct (completion_other _ _ _ _ Hnr' Hc) as [Hdone Hrest].
    pose proof (calm_handler i Hcb Hnr' w (object σ)) as Hcalm.
    split.
    + apply safe_without_mount, Forall_app. split; [done | by apply calm_no_mount].
    + right. apply Forall_app. split; [by apply Hrest | by apply calm_registered].
Qed.

Lemma run_unlock_pending (inputs : list (Platform * Input)) (σ σ' : Sys) :
  Forall (λ wi, is_callback wi.2 = true) inputs →
  unlock_pending σ →
  run inputs σ = Some σ' →
  unlock_pending σ'.
Proof.
  intros Hcb. revert σ. induction Hcb as [|[w i] inputs Hi _ IH]; intros σ Hinv Hrun.
  - by simplify_eq/=.
  - cbn in Hrun. destruct (step w i σ) as [σ1|] eqn:Hstep; simplify_eq/=.
    eapply IH; [|done]. by eapply step_unlock_pending.
Qed.

(** [setup()] on an idle object for a locked container: the flag is set,
    the request is broadcast, and the passphrase dialog is requested. *)
Lemma setup_locked (w : Platform) (s : StorageAccess) :
  m_setupInProgress s = false →
  m_teardownInProgress s = false →
  isEncryptedContainer w = true →
  result (clearTextPath w s) = "" →
  setup w s =
    (showPassphraseDialogValid w,
     set_passphraseRequested (showPassphraseDialogValid w)
       (set_lastReturnObject
          ("/org/kde/solid/UDisks2StorageAccess_" +:+ QString_number (number s))
          (set_number (wrap32 (number s + 1)) (set_setupInProgress true s))),
     [BroadcastActionRequested "setup";
      SystemBusCall Blocking (Introspect UD2_DBUS_PATH_BLOCKDEVICES);
      RegisterObject
        ("/org/kde/solid/UDisks2StorageAccess_" +:+ QString_number (number s));
      ShowPassphraseDialog (m_device s) (sessionBaseService w)
        ("/org/kde/solid/UDisks2StorageAccess_" +:+ QString_number (number s))
        (match focusWindow w with Some id => id | None => 0%Z end)
        (applicationName w)]).
Proof.
  intros Hs Ht Henc Hct.
  unfold setup, requestPassphrase, generateReturnObjectPath, clearTextPath in *.
  unfold bind, ret, this, modify, perform, platform in *.
  cbn in Hct |- *. rewrite Hs, Ht. cbn -[mount]. rewrite Henc. cbn -[mount].
  rewrite Hct. reflexivity.
Qed.

End UnlockBeforeMount.

Section SetupCompletion.
Context `{Udisks2}.

(** [mount()] leaves the object as it is and sends exactly one Mount
    call, after the introspection query when the device is a container. *)
Lemma mount_eq (w : Platform) (s : StorageAccess) :
  mount w s =
    (callWithCallbackSent w, s,
     (if isEncryptedContainer w
      then [SystemBusCall Blocking (Introspect UD2_DBUS_PATH_BLOCKDEVICES)]
      else [])
     ++ [SystemBusCall (WithCallback None)
           (Mount (result (mount_path w s))
              (if String.eqb (propString w (m_device s) "IdType") "vfat"
               then [("options", "flush")] else []))]).
Proof.
  unfold mount, mount_path, isLuksDevice, clearTextPath. unfold_M. cbn.
  destruct (isEncryptedContainer w); reflexivity.
Qed.

(** A successful reply while a setup is in progress on a container. *)
Lemma slotDBusReply_setup_container (w : Platform) (s : StorageAccess) :
  m_setupInProgress s = true →
  isEncryptedContainer w = true →
  slotDBusReply w s =
    if result (isAccessible w s) then
      (tt, after (checkAccessibility w (set_setupInProgress false s)),
       effects (isAccessible w s)
       ++ [InvalidateCache; BroadcastActionDone "setup" NoError ""]
       ++ effects (checkAccessibility w (set_setupInProgress false s)))
    else
      (tt, s, effects (isAccessible w s) ++ effects (mount w s)).
Proof.
  intros Hs Henc.
  pose proof (isAccessible_after w s) as Ha.
  unfold slotDBusReply, isLuksDevice. unfold_M. rewrite Hs.
  cbn -[isAccessible mount checkAccessibility]. rewrite Henc.
  destruct (isAccessible w s) as [[a s1] e1]. cbn in Ha. subst s1.
  cbn -[mount checkAccessibility]. destruct a; cbn -[mount checkAccessibility].
  - destruct (checkAccessibility w (set_setupInProgress false s)) as [[[] s2] e2].
    cbn. by rewrite app_nil_r.
  - rewrite mount_eq. cbn. by rewrite !app_nil_r.
Qed.

End SetupCompletion.

Section LockedSetup.
Context `{Udisks2}.

Lemma step_CallSetup_idle (w : Platform) (s : StorageAccess) :
  step w CallSetup (idle s) =
    Some {| object := after (setup w s);
            pending := registered w (effects (setup w s));
            trace := map Did (effects (setup w s)) |}.
Proof.
  unfold step. cbn -[setup]. unfold bind.
  destruct (setup w s) as [[b s1] e1]. cbn. by rewrite app_nil_r.
Qed.

(** C5: [setup()] on an idle object whose device is an encrypted
    container with no cleartext device sets [m_setupInProgress] and sends
    no call that acts on a device; in every continuation of that request
    (the callbacks and signals delivered to the object, on whatever
    platform states), each Mount call comes after the successful completion
    of an Unlock call; and a successful reply handled while the setup is in
    progress clears the flag (with the cache invalidation, the setup-done
    broadcast and the accessibility recheck) only if the cleartext device is
    mounted by then: as long as it is not, the reply sends the Mount call
    and leaves the object, flag included, as it is, without any broadcast;
    if it is mounted already when the Unlock call completes, the flag is
    cleared then, and no Mount call is sent. *)
Theorem locked_setup_mounts_after_unlock (w0 : Platform) (s : StorageAccess) :
  m_setupInProgress s = false →
  m_teardownInProgress s = false →
  isEncryptedContainer w0 = true →
  result (clearTextPath w0 s) = "" →
  m_setupInProgress (after (setup w0 s)) = true
  ∧ count is_action_call (effects (setup w0 s)) = 0
  ∧ (∀ inputs σ,
       Forall (λ wi, is_callback wi.2 = true) inputs →
       run ((w0, CallSetup) :: inputs) (idle s) = Some σ →
       mounts_follow_unlock (trace σ))
  ∧ (∀ w s',
       m_setupInProgress s' = true →
       isEncryptedContainer w = true →
       if result (isAccessible w s') then
         m_setupInProgress (after (slotDBusReply w s')) = false
         ∧ filter (λ e, is_broadcast e = true) (effects (slotDBusReply w s'))
           = [BroadcastActionDone "setup" NoError ""]
         ∧ InvalidateCache ∈ effects (slotDBusReply w s')
         ∧ m_isAccessible (after (slotDBusReply w s')) = true
         ∧ count is_mount (effects (slotDBusReply w s')) = 0
       else
         after (slotDBusReply w s') = s'
         ∧ count is_mount (effects (slotDBusReply w s')) = 1
         ∧ count is_broadcast (effects (slotDBusReply w s')) = 0
         ∧ count is_accessibilityChanged (effects (slotDBusReply w s')) = 0).
Proof.
  intros Hs Ht Henc Hct.
  pose proof (setup_locked w0 s Hs Ht Henc Hct) as Hsetup.
  split; [by rewrite Hsetup|]. split; [by rewrite Hsetup|]. split.
  - intros inputs σ Hcb Hrun. apply safe_sound.
    cbn [run] in Hrun. rewrite step_CallSetup_idle, Hsetup in Hrun.
    cbn [mbind option_bind] in Hrun.
    eapply (run_unlock_pending inputs) in Hrun as [Hsafe _]; [done..|].
    split; [reflexivity|]. right. cbn.
    unfold registered. by destruct (callWithCallbackSent w0).
  - intros w s' Hs' Henc'.
    rewrite (slotDBusReply_setup_container w s' Hs' Henc').
    destruct (result (isAccessible w s')) eqn:Hacc.
    + rewrite checkAccessibility_eq. cbn [after effects fst snd].
      assert (result (isAccessible w (set_setupInProgress false s')) = true) as ->.
      { rewrite <- Hacc. by apply isAccessible_same_device. }
      rewrite !isAccessible_effects, Henc'.
      split; [done|]. split.
      { cbn. by destruct (m_isAccessible s'). }
      split; [set_solver|]. split; [done|].
      cbn. by destruct (m_isAccessible s').
    + rewrite mount_eq, isAccessible_effects, Henc'. cbn [after effects fst snd].
      done.
Qed.

End LockedSetup.

(** * Properties of the fstab / mtab cache *)

Module FstabFacts.
Import Fstab.

Lemma fstab_record_eq (st : FstabHandling) (fe : mntent) :
  fstab_record st fe =
    if fstab_keeps fe then
      {| m_fstabCacheValid := m_fstabCacheValid st;
         m_mtabCacheValid := m_mtabCacheValid st;
         m_mtabCache := m_mtabCache st;
         m_fstabCache := (device_of fe, mnt_dir fe) :: m_fstabCache st;
         m_fstabOptionsCache :=
           rev (map (λ o, (device_of fe, o)) (split ","%char (mnt_opts fe)))
           ++ m_fstabOptionsCache st;
         m_fstabFstypeCache := <[device_of fe := mnt_type fe]> (m_fstabFstypeCache st) |}
    else st.
Proof.
  unfold fstab_record, fstab_keeps, device_of.
  destruct (_ || _); [|done]. f_equal.
  generalize (m_fstabOptionsCache st).
  induction (split "," (mnt_opts fe)) as [|o os IH]; intros h; cbn; [done|].
  by rewrite IH, <- app_assoc.
Qed.

Lemma mtab_record_eq (st : FstabHandling) (fe : mntent) :
  mtab_record st fe =
    if mtab_keeps fe then
      {| m_fstabCacheValid := m_fstabCacheValid st;
         m_mtabCacheValid := m_mtabCacheValid st;
         m_mtabCache := (device_of fe, mnt_dir fe) :: m_mtabCache st;
         m_fstabCache := m_fstabCache st;
         m_fstabOptionsCache := m_fstabOptionsCache st;
         m_fstabFstypeCache := <[device_of fe := mnt_type fe]> (m_fstabFstypeCache st) |}
    else st.
Proof. reflexivity. Qed.

(** The loop over /etc/fstab, field by field. *)
Lemma foldl_fstab_record (records : list mntent) (st : FstabHandling) :
  m_fstabCacheValid (foldl fstab_record st records) = m_fstabCacheValid st
  ∧ m_mtabCacheValid (foldl fstab_record st records) = m_mtabCacheValid st
  ∧ m_mtabCache (foldl fstab_record st records) = m_mtabCache st
  ∧ m_fstabCache (foldl fstab_record st records)
    = rev (fstab_pairs records) ++ m_fstabCache st
  ∧ m_fstabOptionsCache (foldl fstab_record st records)
    = rev (option_pairs records) ++ m_fstabOptionsCache st
  ∧ m_fstabFstypeCache (foldl fstab_record st records)
    = foldl (λ m fe, <[device_of fe := mnt_type fe]> m) (m_fstabFstypeCache st)
        (filter (λ fe, fstab_keeps fe = true) records).
Proof.
  revert st. induction records as [|fe records IH]; intros st; [done|].
  cbn [foldl]. destruct (IH (fstab_record st fe)) as (-> & -> & -> & -> & -> & ->).
  rewrite fstab_record_eq. unfold fstab_pairs, option_pairs.
  rewrite filter_cons. destruct (fstab_keeps fe) eqn:Hk.
  - rewrite decide_True by done. cbn.
    rewrite rev_app_distr, <- !app_assoc. done.
  - by rewrite decide_False by done.
Qed.

Lemma foldl_mtab_record (records : list mntent) (st : FstabHandling) :
  m_fstabCacheValid (foldl mtab_record st records) = m_fstabCacheValid st
  ∧ m_mtabCacheValid (foldl mtab_record st records) = m_mtabCacheValid st
  ∧ m_fstabCache (foldl mtab_record st records) = m_fstabCache st
  ∧ m_fstabOptionsCache (foldl mtab_record st records) = m_fstabOptionsCache st
  ∧ m_mtabCache (foldl mtab_record st records)
    = rev (mtab_pairs records) ++ m_mtabCache st
  ∧ m_fstabFstypeCache (foldl mtab_record st records)
    = foldl (λ m fe, <[device_of fe := mnt_type fe]> m) (m_fstabFstypeCache st)
        (filter (λ fe, mtab_keeps fe = true) records).
Proof.
  revert st. induction records as [|fe records IH]; intros st; [done|].
  cbn [foldl]. destruct (IH (mtab_record st fe)) as (-> & -> & -> & -> & -> & ->).
  rewrite mtab_record_eq. unfold mtab_pairs.
  rewrite filter_cons. destruct (mtab_keeps fe) eqn:Hk.
  - rewrite decide_True by done. cbn. by rewrite <- !app_assoc.
  - by rewrite decide_False by done.
Qed.

End FstabFacts.

Module CacheFacts.
Import Fstab FstabFacts.

Lemma elem_of_removeDuplicates_from (seen l : list string) (x : string) :
  x ∈ removeDuplicates_from seen l ↔ x ∈ l ∧ x ∉ seen.
Proof.
  revert seen. induction l as [|y l IH]; intros seen; cbn.
  - set_solver.
  - case_bool_decide as Hy.
    + rewrite IH. set_solver.
    + rewrite elem_of_cons, IH. destruct (decide (x = y)) as [->|]; set_solver.
Qed.

Lemma elem_of_removeDuplicates (l : list string) (x : string) :
  x ∈ removeDuplicates l ↔ x ∈ l.
Proof. unfold removeDuplicates. rewrite elem_of_removeDuplicates_from. set_solver. Qed.

Lemma elem_of_mh_values (k v : string) (h : QStringMultiHash) :
  v ∈ mh_values k h ↔ (k, v) ∈ h.
Proof.
  unfold mh_values. rewrite list_elem_of_fmap. split.
  - intros ([k' v'] & -> & [Hin Hk]%list_elem_of_filter). cbn in *. by subst.
  - intros Hin. exists (k, v). split; [done|]. by apply list_elem_of_filter.
Qed.

Lemma elem_of_mh_keys (k v : string) (h : QStringMultiHash) :
  (k, v) ∈ h → k ∈ mh_keys h.
Proof. intros Hin. unfold mh_keys. apply list_elem_of_fmap. by exists (k, v). Qed.

Lemma elem_of_rev {A} (l : list A) (x : A) : x ∈ rev l ↔ x ∈ l.
Proof. rewrite !list_elem_of_In. symmetry. apply in_rev. Qed.

Lemma elem_of_fstab_pairs (records : list mntent) (fe : mntent) :
  fe ∈ records → fstab_keeps fe = true →
  (device_of fe, mnt_dir fe) ∈ rev (fstab_pairs records).
Proof.
  intros Hin Hk. rewrite elem_of_rev.
  unfold fstab_pairs. apply list_elem_of_fmap. exists fe. split; [done|].
  by apply list_elem_of_filter.
Qed.

Lemma elem_of_mtab_pairs (records : list mntent) (fe : mntent) :
  fe ∈ records → mtab_keeps fe = true →
  (device_of fe, mnt_dir fe) ∈ rev (mtab_pairs records).
Proof.
  intros Hin Hk. rewrite elem_of_rev.
  unfold mtab_pairs. apply list_elem_of_fmap. exists fe. split; [done|].
  by apply list_elem_of_filter.
Qed.

(** The three cases of [_k_updateFstabMountPointsCache]. *)
Lemma updateFstab_valid (f : Files) (st : FstabHandling) :
  m_fstabCacheValid st = true → _k_updateFstabMountPointsCache f st = st.
Proof. intros Hv. unfold _k_updateFstabMountPointsCache. by rewrite Hv. Qed.

Lemma updateFstab_parse (f : Files) (st : FstabHandling) (records : list mntent) :
  m_fstabCacheValid st = false →
  etc_fstab f = Some records →
  _k_updateFstabMountPointsCache f st =
    {| m_fstabCacheValid := true;
       m_mtabCacheValid := m_mtabCacheValid st;
       m_mtabCache := m_mtabCache st;
       m_fstabCache := rev (fstab_pairs records);
       m_fstabOptionsCache := rev (option_pairs records);
       m_fstabFstypeCache :=
         foldl (λ m fe, <[device_of fe := mnt_type fe]> m) (m_fstabFstypeCache st)
           (filter (λ fe, fstab_keeps fe = true) records) |}.
Proof.
  intros Hv Hf. unfold _k_updateFstabMountPointsCache. rewrite Hv, Hf.
  match goal with |- context [foldl fstab_record ?c records] =>
    destruct (foldl_fstab_record records c) as (_ & -> & -> & -> & -> & ->) end.
  cbn. by rewrite !app_nil_r.
Qed.

Lemma updateFstab_unreadable (f : Files) (st : FstabHandling) :
  m_fstabCacheValid st = false →
  etc_fstab f = None →
  _k_updateFstabMountPointsCache f st =
    {| m_fstabCacheValid := false;
       m_mtabCacheValid := m_mtabCacheValid st;
       m_mtabCache := m_mtabCache st;
       m_fstabCache := [];
       m_fstabOptionsCache := [];
       m_fstabFstypeCache := m_fstabFstypeCache st |}.
Proof.
  intros Hv Hf. unfold _k_updateFstabMountPointsCache. by rewrite Hv, Hf.
Qed.

(** The three cases of [_k_updateMtabMountPointsCache]. *)
Lemma updateMtab_valid (f : Files) (st : FstabHandling) :
  m_mtabCacheValid st = true → _k_updateMtabMountPointsCache f st = st.
Proof. intros Hv. unfold _k_updateMtabMountPointsCache. by rewrite Hv. Qed.

Lemma updateMtab_parse (f : Files) (st : FstabHandling) (records : list mntent) :
  m_mtabCacheValid st = false →
  mnttab f = Some records →
  _k_updateMtabMountPointsCache f st =
    {| m_fstabCacheValid := m_fstabCacheValid st;
       m_mtabCacheValid := true;
       m_mtabCache := rev (mtab_pairs records);
       m_fstabCache := m_fstabCache st;
       m_fstabOptionsCache := m_fstabOptionsCache st;
       m_fstabFstypeCache :=
         foldl (λ m fe, <[device_of fe := mnt_type fe]> m) (m_fstabFstypeCache st)
           (filter (λ fe, mtab_keeps fe = true) records) |}.
Proof.
  intros Hv Hf. unfold _k_updateMtabMountPointsCache. rewrite Hv, Hf.
  match goal with |- context [foldl mtab_record ?c records] =>
    destruct (foldl_mtab_record records c) as (-> & _ & -> & -> & -> & ->) end.
  cbn. by rewrite !app_nil_r.
Qed.

Lemma updateMtab_unreadable (f : Files) (st : FstabHandling) :
  m_mtabCacheValid st = false →
  mnttab f = None →
  _k_updateMtabMountPointsCache f st =
    {| m_fstabCacheValid := m_fstabCacheValid st;
       m_mtabCacheValid := false;
       m_mtabCache := [];
       m_fstabCache := m_fstabCache st;
       m_fstabOptionsCache := m_fstabOptionsCache st;
       m_fstabFstypeCache := m_fstabFstypeCache st |}.
Proof.
  intros Hv Hf. unfold _k_updateMtabMountPointsCache. by rewrite Hv, Hf.
Qed.

(** Neither update touches the validity or the contents of the other
    table's mount-point cache. *)
Lemma updateFstab_mtab (f : Files) (st : FstabHandling) :
  m_mtabCacheValid (_k_updateFstabMountPointsCache f st) = m_mtabCacheValid st
  ∧ m_mtabCache (_k_updateFstabMountPointsCache f st) = m_mtabCache st.
Proof.
  destruct (m_fstabCacheValid st) eqn:Hv; [by rewrite updateFstab_valid|].
  destruct (etc_fstab f) as [records|] eqn:Hf.
  - by rewrite (updateFstab_parse f st records).
  - by rewrite updateFstab_unreadable.
Qed.

Lemma updateMtab_fstab (f : Files) (st : FstabHandling) :
  m_fstabCacheValid (_k_updateMtabMountPointsCache f st) = m_fstabCacheValid st
  ∧ m_fstabCache (_k_updateMtabMountPointsCache f st) = m_fstabCache st
  ∧ m_fstabOptionsCache (_k_updateMtabMountPointsCache f st) = m_fstabOptionsCache st.
Proof.
  destruct (m_mtabCacheValid st) eqn:Hv; [by rewrite updateMtab_valid|].
  destruct (mnttab f) as [records|] eqn:Hf.
  - by rewrite (updateMtab_parse f st records).
  - by rewrite updateMtab_unreadable.
Qed.

End CacheFacts.

Module FstypeFacts.
Import Fstab FstabFacts CacheFacts.

(** Inserting the types of a list of records never removes a key, and
    leaves the value of a device none of the records is filed under. *)
Lemma foldl_insert_is_Some (records : list mntent) (m : gmap string string) (d : string) :
  is_Some (m !! d) →
  is_Some (foldl (λ m fe, <[device_of fe := mnt_type fe]> m) m records !! d).
Proof.
  revert m. induction records as [|fe records IH]; intros m Hd; [done|].
  cbn. apply IH. rewrite lookup_insert_is_Some. destruct (decide (device_of fe = d)); auto.
Qed.

Lemma foldl_insert_other (records : list mntent) (m : gmap string string) (d : string) :
  Forall (λ fe, device_of fe ≠ d) records →
  foldl (λ m fe, <[device_of fe := mnt_type fe]> m) m records !! d = m !! d.
Proof.
  intros Hf. revert m. induction Hf as [|fe records Hfe _ IH]; intros m; [done|].
  cbn. by rewrite IH, lookup_insert_ne.
Qed.

Lemma updateFstab_fstype (f : Files) (st : FstabHandling) (d : string) :
  (is_Some (m_fstabFstypeCache st !! d) →
   is_Some (m_fstabFstypeCache (_k_updateFstabMountPointsCache f st) !! d))
  ∧ (absent d f →
     m_fstabFstypeCache (_k_updateFstabMountPointsCache f st) !! d
     = m_fstabFstypeCache st !! d).
Proof.
  destruct (m_fstabCacheValid st) eqn:Hv; [by rewrite updateFstab_valid|].
  destruct (etc_fstab f) as [records|] eqn:Hf.
  - rewrite (updateFstab_parse f st records) by done. cbn. split.
    + apply foldl_insert_is_Some.
    + intros [Ha _]. apply foldl_insert_other, Forall_forall.
      intros fe [Hin Hk]%list_elem_of_filter. by eapply Ha.
  - by rewrite updateFstab_unreadable.
Qed.

Lemma updateMtab_fstype (f : Files) (st : FstabHandling) (d : string) :
  (is_Some (m_fstabFstypeCache st !! d) →
   is_Some (m_fstabFstypeCache (_k_updateMtabMountPointsCache f st) !! d))
  ∧ (absent d f →
     m_fstabFstypeCache (_k_updateMtabMountPointsCache f st) !! d
     = m_fstabFstypeCache st !! d).
Proof.
  destruct (m_mtabCacheValid st) eqn:Hv; [by rewrite updateMtab_valid|].
  destruct (mnttab f) as [records|] eqn:Hf.
  - rewrite (updateMtab_parse f st records) by done. cbn. split.
    + apply foldl_insert_is_Some.
    + intros [_ Ha]. apply foldl_insert_other, Forall_forall.
      intros fe [Hin Hk]%list_elem_of_filter. by eapply Ha.
  - by rewrite updateMtab_unreadable.
Qed.

(** The state a query leaves behind, by the caches it consults. *)
Lemma ask_state (q : Query) (f : Files) (st : FstabHandling) :
  (ask q f st).2 =
    match consults_fstab q, consults_mtab q with
    | true, true =>
        _k_updateMtabMountPointsCache f (_k_updateFstabMountPointsCache f st)
    | true, false => _k_updateFstabMountPointsCache f st
    | false, _ => _k_updateMtabMountPointsCache f st
    end.
Proof. by destruct q. Qed.

Lemma apply_op_fstype (o : Op) (f : Files) (st : FstabHandling) (d : string) :
  (is_Some (m_fstabFstypeCache st !! d) →
   is_Some (m_fstabFstypeCache (apply_op o f st) !! d))
  ∧ (absent d f →
     m_fstabFstypeCache (apply_op o f st) !! d = m_fstabFstypeCache st !! d).
Proof.
  destruct o as [q| |]; cbn [apply_op]; [|done..].
  rewrite ask_state.
  destruct (consults_fstab q), (consults_mtab q);
    try apply updateFstab_fstype; try apply updateMtab_fstype.
  split.
  - intros Hd. by apply updateMtab_fstype, updateFstab_fstype.
  - intros Ha.
    rewrite (proj2 (updateMtab_fstype f _ d) Ha).
    by apply updateFstab_fstype.
Qed.

Lemma session_fstype (ops : list (Op * Files)) (st : FstabHandling) (d : string) :
  (is_Some (m_fstabFstypeCache st !! d) →
   is_Some (m_fstabFstypeCache (session ops st) !! d))
  ∧ (Forall (λ step, absent d step.2) ops →
     m_fstabFstypeCache (session ops st) !! d = m_fstabFstypeCache st !! d).
Proof.
  revert st. unfold session.
  induction ops as [|[o f] ops IH]; intros st; cbn [foldl]; [done|].
  destruct (apply_op_fstype o f st d) as [Hsome Hsame].
  destruct (IH (apply_op o f st)) as [IHsome IHsame]. split.
  - intros Hd. by apply IHsome, Hsome.
  - intros [Ha Hrest]%Forall_cons. cbn in Ha. by rewrite IHsame, Hsame.
Qed.

(** C10: no operation on the cache (no query, with the re-parse it may
    trigger, and no flush) removes a device from the filesystem-type map:
    a device that has a type cached keeps one through every session; and
    through a session in which no table holds a kept record filed under
    the device (its entry is gone from the files), whatever flushes and
    re-parses occur, the cached type stays the same, and [fstype] goes on
    returning it. *)
Theorem fstype_cache_never_cleared
    (ops : list (Op * Files)) (st : FstabHandling) (d t : string) :
  m_fstabFstypeCache st !! d = Some t →
  is_Some (m_fstabFstypeCache (session ops st) !! d)
  ∧ (Forall (λ step, absent d step.2) ops →
     m_fstabFstypeCache (session ops st) !! d = Some t
     ∧ ∀ f, absent d f → (fstype d f (session ops st)).1 = t).
Proof.
  intros Hd. destruct (session_fstype ops st d) as [Hsome Hsame]. split.
  - apply Hsome. by rewrite Hd.
  - intros Habs. rewrite (Hsame Habs), Hd. split; [done|].
    intros f Ha. unfold fstype. cbn [fst].
    by rewrite (proj2 (updateFstab_fstype f _ d) Ha), (Hsame Habs), Hd.
Qed.

End FstypeFacts.

Module RetentionFacts.
Import Fstab FstabFacts CacheFacts FstypeFacts.

Lemma bool_decide_elem_of (x : string) (l : list string) :
  bool_decide (x ∈ l) = existsb (String.eqb x) l.
Proof.
  induction l as [|y l IH]; cbn.
  - by apply bool_decide_eq_false_2, not_elem_of_nil.
  - rewrite <- IH. destruct (String.eqb_spec x y) as [->|Hne]; cbn.
    + apply bool_decide_eq_true_2. by left.
    + apply bool_decide_ext. set_solver.
Qed.

Lemma fstab_keeps_spec (fe : mntent) : fstab_keeps fe = spec_keeps fe.
Proof.
  unfold fstab_keeps, spec_keeps, _k_isFstabNetworkFileSystem,
    _k_isFstabSupportedLocalFileSystem.
  rewrite !bool_decide_elem_of. cbn.
  repeat match goal with |- context [String.eqb ?a ?b] =>
    destruct (String.eqb a b) end;
  by destruct (String.prefix "//" (mnt_fsname fe)).
Qed.

Lemma mtab_keeps_types (fe : mntent) :
  mtab_keeps fe =
    bool_decide (mnt_type fe ∈
      ["nfs"; "nfs4"; "smbfs"; "cifs"; "fuse.encfs"; "fuse.cryfs"; "overlay"]).
Proof.
  unfold mtab_keeps, _k_isFstabNetworkFileSystem, _k_isFstabSupportedLocalFileSystem.
  rewrite bool_decide_elem_of. cbn.
  repeat match goal with |- context [String.eqb ?a ?b] =>
    destruct (String.eqb a b) end; done.
Qed.

(** A record the parse does not keep leaves the state untouched, so the
    parse of a table is the parse of its kept records. *)
Lemma foldl_fstab_record_kept (records : list mntent) (st : FstabHandling) :
  foldl fstab_record st (filter (λ fe, fstab_keeps fe = true) records)
  = foldl fstab_record st records.
Proof.
  revert st. induction records as [|fe records IH]; intros st; [done|].
  rewrite filter_cons. cbn [foldl]. destruct (fstab_keeps fe) eqn:Hk.
  - rewrite decide_True by done. cbn [foldl]. apply IH.
  - rewrite decide_False by done. rewrite IH. f_equal.
    by rewrite fstab_record_eq, Hk.
Qed.

Lemma foldl_mtab_record_kept (records : list mntent) (st : FstabHandling) :
  foldl mtab_record st (filter (λ fe, mtab_keeps fe = true) records)
  = foldl mtab_record st records.
Proof.
  revert st. induction records as [|fe records IH]; intros st; [done|].
  rewrite filter_cons. cbn [foldl]. destruct (mtab_keeps fe) eqn:Hk.
  - rewrite decide_True by done. cbn [foldl]. apply IH.
  - rewrite decide_False by done. rewrite IH. f_equal.
    by rewrite mtab_record_eq, Hk.
Qed.

Lemma updateFstab_kept (f : Files) (st : FstabHandling) :
  _k_updateFstabMountPointsCache (kept f) st = _k_updateFstabMountPointsCache f st.
Proof.
  unfold _k_updateFstabMountPointsCache, kept. cbn.
  destruct (m_fstabCacheValid st); [done|].
  destruct (etc_fstab f) as [records|]; cbn; [|done].
  by rewrite foldl_fstab_record_kept.
Qed.

Lemma updateMtab_kept (f : Files) (st : FstabHandling) :
  _k_updateMtabMountPointsCache (kept f) st = _k_updateMtabMountPointsCache f st.
Proof.
  unfold _k_updateMtabMountPointsCache, kept. cbn.
  destruct (m_mtabCacheValid st); [done|].
  destruct (mnttab f) as [records|]; cbn; [|done].
  by rewrite foldl_mtab_record_kept.
Qed.

Lemma ask_kept (q : Query) (f : Files) (st : FstabHandling) :
  ask q (kept f) st = ask q f st.
Proof.
  destruct q; cbn;
    unfold deviceList, mountPoints, options, fstype, currentMountPoints;
    by rewrite ?updateFstab_kept, ?updateMtab_kept.
Qed.

(** What the re-parse of a table leaves in the answers. *)
Lemma fstab_record_answered (f : Files) (st : FstabHandling)
    (records : list mntent) (fe : mntent) :
  m_fstabCacheValid st = false →
  etc_fstab f = Some records → fe ∈ records → fstab_keeps fe = true →
  mnt_dir fe ∈ (mountPoints (device_of fe) f st).1
  ∧ device_of fe ∈ (deviceList f st).1.
Proof.
  intros Hv Hf Hin Hk. unfold mountPoints, deviceList. cbn [fst].
  destruct (updateMtab_fstab f (_k_updateFstabMountPointsCache f st)) as (_ & -> & _).
  rewrite (updateFstab_parse f st records) by done. cbn [m_fstabCache].
  pose proof (elem_of_fstab_pairs records fe Hin Hk) as Hp. split.
  - apply elem_of_removeDuplicates, elem_of_app. left. by apply elem_of_mh_values.
  - apply elem_of_removeDuplicates, elem_of_app. left. by eapply elem_of_mh_keys.
Qed.

Lemma mtab_record_answered (f : Files) (st : FstabHandling)
    (records : list mntent) (fe : mntent) :
  m_mtabCacheValid st = false →
  mnttab f = Some records → fe ∈ records → mtab_keeps fe = true →
  mnt_dir fe ∈ (currentMountPoints (device_of fe) f st).1
  ∧ mnt_dir fe ∈ (mountPoints (device_of fe) f st).1
  ∧ device_of fe ∈ (deviceList f st).1.
Proof.
  intros Hv Hf Hin Hk. unfold currentMountPoints, mountPoints, deviceList. cbn [fst].
  pose proof (elem_of_mtab_pairs records fe Hin Hk) as Hp.
  destruct (updateFstab_mtab f st) as [Hv' Hc'].
  rewrite (updateMtab_parse f st records) by done.
  rewrite (updateMtab_parse f _ records) by (by rewrite ?Hv').
  cbn [m_mtabCache]. split; [by apply elem_of_mh_values|]. split.
  - apply elem_of_removeDuplicates, elem_of_app. right. by apply elem_of_mh_values.
  - apply elem_of_removeDuplicates, elem_of_app. right. by eapply elem_of_mh_keys.
Qed.

(** C9, as the code has it: the parse of /etc/fstab keeps a record exactly
    when its type is nfs, nfs4, smbfs or cifs, its source name starts with
    "//", or its type is fuse.encfs, fuse.cryfs or overlay; the parse of
    the live mount table keeps a record exactly when its type is one of
    these seven, whatever its source name; a kept record of a table that is
    parsed shows in the answers, and the records that are not kept are
    invisible to every query: each answers as on the tables without
    them. *)
Theorem parse_keeps_network_and_supported :
  (∀ fe, fstab_keeps fe = spec_keeps fe)
  ∧ (∀ fe, mtab_keeps fe =
       bool_decide (mnt_type fe ∈
         ["nfs"; "nfs4"; "smbfs"; "cifs"; "fuse.encfs"; "fuse.cryfs"; "overlay"]))
  ∧ (∀ f st records,
       m_fstabCacheValid st = false → etc_fstab f = Some records →
       m_fstabCache (_k_updateFstabMountPointsCache f st) = rev (fstab_pairs records)
       ∧ m_fstabOptionsCache (_k_updateFstabMountPointsCache f st)
         = rev (option_pairs records))
  ∧ (∀ f st records,
       m_mtabCacheValid st = false → mnttab f = Some records →
       m_mtabCache (_k_updateMtabMountPointsCache f st) = rev (mtab_pairs records))
  ∧ (∀ f st records fe,
       m_fstabCacheValid st = false →
       etc_fstab f = Some records → fe ∈ records → fstab_keeps fe = true →
       mnt_dir fe ∈ (mountPoints (device_of fe) f st).1
       ∧ device_of fe ∈ (deviceList f st).1)
  ∧ (∀ f st records fe,
       m_mtabCacheValid st = false →
       mnttab f = Some records → fe ∈ records → mtab_keeps fe = true →
       mnt_dir fe ∈ (currentMountPoints (device_of fe) f st).1
       ∧ mnt_dir fe ∈ (mountPoints (device_of fe) f st).1
       ∧ device_of fe ∈ (deviceList f st).1)
  ∧ (∀ q f st, ask q f st = ask q (kept f) st).
Proof.
  split; [apply fstab_keeps_spec|]. split; [apply mtab_keeps_types|].
  split.
  { intros f st records Hv Hf. by rewrite (updateFstab_parse f st records). }
  split.
  { intros f st records Hv Hf. by rewrite (updateMtab_parse f st records). }
  split; [apply fstab_record_answered|].
  split; [apply mtab_record_answered|].
  intros q f st. by rewrite ask_kept.
Qed.

End RetentionFacts.

Module StabilityFacts.
Import Fstab FstabFacts CacheFacts FstypeFacts RetentionFacts.

Lemma ask_valid (q : Query) (f f' : Files) (st : FstabHandling) :
  m_fstabCacheValid st = true → m_mtabCacheValid st = true →
  ask q f st = ask q f' st ∧ (ask q f st).2 = st.
Proof.
  intros Hf Hm.
  destruct q; cbn;
    unfold deviceList, mountPoints, options, fstype, currentMountPoints;
    by rewrite ?updateFstab_valid, ?updateMtab_valid.
Qed.

(** A query all of whose consulted caches are valid does not read the files
    and does not change the state. *)
Lemma ask_consulted_valid (q : Query) (f f' : Files) (st : FstabHandling) :
  (consults_fstab q = true → m_fstabCacheValid st = true) →
  (consults_mtab q = true → m_mtabCacheValid st = true) →
  ask q f st = ask q f' st ∧ (ask q f st).2 = st.
Proof.
  intros Hf Hm.
  destruct q; cbn in Hf, Hm; cbn;
    unfold deviceList, mountPoints, options, fstype, currentMountPoints;
    by rewrite ?updateFstab_valid, ?updateMtab_valid by auto.
Qed.

Lemma session_valid (ops : list (Op * Files)) (st : FstabHandling) :
  m_fstabCacheValid st = true → m_mtabCacheValid st = true →
  Forall (λ step, is_ask step.1 = true) ops →
  session ops st = st.
Proof.
  intros Hf Hm Hops. unfold session.
  induction Hops as [|[[q| |] f] ops Ho _ IH]; try done.
  cbn [foldl apply_op]. by rewrite (proj2 (ask_valid q f f st Hf Hm)).
Qed.

Lemma updateFstab_becomes_valid (f : Files) (st : FstabHandling) :
  is_Some (etc_fstab f) → m_fstabCacheValid (_k_updateFstabMountPointsCache f st) = true.
Proof.
  intros [records Hf].
  destruct (m_fstabCacheValid st) eqn:Hv; [by rewrite updateFstab_valid|].
  by rewrite (updateFstab_parse f st records).
Qed.

Lemma updateMtab_becomes_valid (f : Files) (st : FstabHandling) :
  is_Some (mnttab f) → m_mtabCacheValid (_k_updateMtabMountPointsCache f st) = true.
Proof.
  intros [records Hf].
  destruct (m_mtabCacheValid st) eqn:Hv; [by rewrite updateMtab_valid|].
  by rewrite (updateMtab_parse f st records).
Qed.

Lemma ask_becomes_valid (q : Query) (f : Files) (st : FstabHandling) :
  (consults_fstab q = true → is_Some (etc_fstab f) →
   m_fstabCacheValid (ask q f st).2 = true)
  ∧ (consults_mtab q = true → is_Some (mnttab f) →
     m_mtabCacheValid (ask q f st).2 = true).
Proof.
  rewrite ask_state. split; intros Hq Hf.
  - rewrite Hq. destruct (consults_mtab q).
    + destruct (updateMtab_fstab f (_k_updateFstabMountPointsCache f st)) as [-> _].
      by apply updateFstab_becomes_valid.
    + by apply updateFstab_becomes_valid.
  - rewrite Hq. destruct (consults_fstab q); by apply updateMtab_becomes_valid.
Qed.

Lemma ask_after_flushFstab (q : Query) (f : Files) (st : FstabHandling)
    (records : list mntent) :
  consults_fstab q = true → etc_fstab f = Some records →
  m_fstabCache (ask q f (flushFstabCache st)).2 = rev (fstab_pairs records)
  ∧ m_fstabOptionsCache (ask q f (flushFstabCache st)).2 = rev (option_pairs records).
Proof.
  intros Hq Hf. rewrite ask_state, Hq.
  destruct (consults_mtab q).
  - destruct (updateMtab_fstab f (_k_updateFstabMountPointsCache f (flushFstabCache st)))
      as (_ & -> & ->).
    by rewrite (updateFstab_parse f _ records).
  - by rewrite (updateFstab_parse f _ records).
Qed.

Lemma ask_after_flushMtab (q : Query) (f : Files) (st : FstabHandling)
    (records : list mntent) :
  consults_mtab q = true → mnttab f = Some records →
  m_mtabCache (ask q f (flushMtabCache st)).2 = rev (mtab_pairs records).
Proof.
  intros Hq Hf. rewrite ask_state, Hq.
  destruct (consults_fstab q).
  - destruct (updateFstab_mtab f (flushMtabCache st)) as [Hv Hc].
    by rewrite (updateMtab_parse f _ records).
  - by rewrite (updateMtab_parse f _ records).
Qed.

(** C8, as the code has it: a query whose consulted caches are valid
    answers the same whatever the files hold by then and leaves the state
    as it is, and once both caches are valid no run of queries changes the
    state, so every answer stays the same until a flush; a query validates
    each cache it consults when the table can be read; and the first query
    that consults a flushed cache re-parses the whole table, so that the
    mount-point cache (and, for /etc/fstab, the options cache) holds exactly
    the pairs of the records kept from the table as it is then, and
    [mountPoints], [deviceList] and [currentMountPoints] show every kept
    record of it. *)
Theorem caches_stable_while_valid :
  (∀ q f f' st,
     (consults_fstab q = true → m_fstabCacheValid st = true) →
     (consults_mtab q = true → m_mtabCacheValid st = true) →
     ask q f st = ask q f' st ∧ (ask q f st).2 = st)
  ∧ (∀ st ops,
       m_fstabCacheValid st = true → m_mtabCacheValid st = true →
       Forall (λ step, is_ask step.1 = true) ops → session ops st = st)
  ∧ (∀ q f st,
       (consults_fstab q = true → is_Some (etc_fstab f) →
        m_fstabCacheValid (ask q f st).2 = true)
       ∧ (consults_mtab q = true → is_Some (mnttab f) →
          m_mtabCacheValid (ask q f st).2 = true))
  ∧ (∀ q f st records,
       consults_fstab q = true → etc_fstab f = Some records →
       m_fstabCache (ask q f (flushFstabCache st)).2 = rev (fstab_pairs records)
       ∧ m_fstabOptionsCache (ask q f (flushFstabCache st)).2
         = rev (option_pairs records))
  ∧ (∀ q f st records,
       consults_mtab q = true → mnttab f = Some records →
       m_mtabCache (ask q f (flushMtabCache st)).2 = rev (mtab_pairs records))
  ∧ (∀ f st records fe,
       etc_fstab f = Some records → fe ∈ records → fstab_keeps fe = true →
       mnt_dir fe ∈ (mountPoints (device_of fe) f (flushFstabCache st)).1
       ∧ device_of fe ∈ (deviceList f (flushFstabCache st)).1)
  ∧ (∀ f st records fe,
       mnttab f = Some records → fe ∈ records → mtab_keeps fe = true →
       mnt_dir fe ∈ (currentMountPoints (device_of fe) f (flushMtabCache st)).1
       ∧ mnt_dir fe ∈ (mountPoints (device_of fe) f (flushMtabCache st)).1
       ∧ device_of fe ∈ (deviceList f (flushMtabCache st)).1).
Proof.
  split; [apply ask_consulted_valid|].
  split; [intros st ops; apply session_valid|].
  split; [apply ask_becomes_valid|].
  split; [apply ask_after_flushFstab|].
  split; [apply ask_after_flushMtab|].
  split.
  - intros f st records fe. by apply fstab_record_answered.
  - intros f st records fe. by apply mtab_record_answered.
Qed.

End StabilityFacts.

(** * Concrete runs *)

(** The scenario of the specification, run: the dialog is requested, the
    passphrase leads to Unlock, its completion to Mount on the cleartext
    device, and the completion of Mount to one setup-done broadcast
    without error and to the accessibility change; nothing stays due. *)
Example unlock_scenario_trace :
  run (H := sample_udisks2) unlock_scenario (idle block_1) =
    Some
      {| object :=
           {| m_device := "/org/x/block_1";
              m_setupInProgress := false; m_teardownInProgress := false;
              m_passphraseRequested := false; m_isAccessible := true;
              m_lastReturnObject := "/org/kde/solid/UDisks2StorageAccess_1";
              number := 2 |};
         pending := [];
         trace :=
           [Did (BroadcastActionRequested "setup");
            Did (SystemBusCall Blocking
                   (Introspect "/org/freedesktop/UDisks2/block_devices"));
            Did (RegisterObject "/org/kde/solid/UDisks2StorageAccess_1");
            Did (ShowPassphraseDialog "/org/x/block_1" ":1.42"
                   "/org/kde/solid/UDisks2StorageAccess_1" 0 "dolphin");
            Did (UnregisterObject "/org/kde/solid/UDisks2StorageAccess_1");
            Did (SystemBusCall (WithCallback None)
                   (Unlock "/org/x/block_1" "secret"));
            Completed (Unlock "/org/x/block_1" "secret") true;
            Did (SystemBusCall Blocking
                   (Introspect "/org/freedesktop/UDisks2/block_devices"));
            Did (SystemBusCall Blocking
                   (Introspect "/org/freedesktop/UDisks2/block_devices"));
            Did (SystemBusCall (WithCallback None)
                   (Mount "/org/freedesktop/UDisks2/block_devices/dm_0" []));
            Completed (Mount "/org/freedesktop/UDisks2/block_devices/dm_0" []) true;
            Did (SystemBusCall Blocking
                   (Introspect "/org/freedesktop/UDisks2/block_devices"));
            Did InvalidateCache;
            Did (BroadcastActionDone "setup" NoError "");
            Did (SystemBusCall Blocking
                   (Introspect "/org/freedesktop/UDisks2/block_devices"));
            Did (AccessibilityChanged true "/org/x/block_1")] |}.
Proof. vm_compute. reflexivity. Qed.

(** The scenario with the dialog canceled: one setup-done broadcast with
    [UserCanceled], no Unlock and no Mount, the accessibility cache as
    before. *)
Example cancel_scenario_trace :
  run (H := sample_udisks2)
    [(luks None false, CallSetup); (luks None false, PassphraseReply "")]
    (idle block_1) =
    Some
      {| object :=
           {| m_device := "/org/x/block_1";
              m_setupInProgress := false; m_teardownInProgress := false;
              m_passphraseRequested := false; m_isAccessible := false;
              m_lastReturnObject := "/org/kde/solid/UDisks2StorageAccess_1";
              number := 2 |};
         pending := [];
         trace :=
           [Did (BroadcastActionRequested "setup");
            Did (SystemBusCall Blocking
                   (Introspect "/org/freedesktop/UDisks2/block_devices"));
            Did (RegisterObject "/org/kde/solid/UDisks2StorageAccess_1");
            Did (ShowPassphraseDialog "/org/x/block_1" ":1.42"
                   "/org/kde/solid/UDisks2StorageAccess_1" 0 "dolphin");
            Did (UnregisterObject "/org/kde/solid/UDisks2StorageAccess_1");
            Did (BroadcastActionDone "setup" UserCanceled "")] |}.
Proof. vm_compute. reflexivity. Qed.

(** Teardown of the unlocked, mounted container: Unmount on the cleartext
    device, on its completion Lock on the container, on its completion
    (the cleartext device is gone) the teardown-done broadcast and the
    accessibility change. *)
Example teardown_scenario_trace :
  trace <$> run (H := sample_udisks2)
    [(luks (Some "dm_0") true, CallTeardown);
     (luks (Some "dm_0") false, DBusReply 0);
     (luks None false, DBusReply 0)]
    (idle (set_isAccessible true block_1)) =
    Some
      [Did (BroadcastActionRequested "teardown");
       Did (SystemBusCall Blocking
              (Introspect "/org/freedesktop/UDisks2/block_devices"));
       Did (SystemBusCall (WithCallback (Some 2147483647%Z))
              (Unmount "/org/freedesktop/UDisks2/block_devices/dm_0"));
       Completed (Unmount "/org/freedesktop/UDisks2/block_devices/dm_0") true;
       Did (SystemBusCall Blocking
              (Introspect "/org/freedesktop/UDisks2/block_devices"));
       Did (SystemBusCall (WithCallback None) (Lock "/org/x/block_1"));
       Completed (Lock "/org/x/block_1") true;
       Did (SystemBusCall Blocking
              (Introspect "/org/freedesktop/UDisks2/block_devices"));
       Did InvalidateCache;
       Did (BroadcastActionDone "teardown" NoError "");
       Did (SystemBusCall Blocking
              (Introspect "/org/freedesktop/UDisks2/block_devices"));
       Did (AccessibilityChanged false "/org/x/block_1")].
Proof. vm_compute. reflexivity. Qed.

(** C1 at a concrete input: a setup is in progress on block_1. *)
Lemma request_rejected_while_busy_witness :
  (m_setupInProgress (set_setupInProgress true block_1) = true
   ∨ m_teardownInProgress (set_setupInProgress true block_1) = true)
  ∧ setup (H := sample_udisks2) usb_disk (set_setupInProgress true block_1)
    = (false, set_setupInProgress true block_1, [])
  ∧ teardown (H := sample_udisks2) usb_disk (set_setupInProgress true block_1)
    = (false, set_setupInProgress true block_1, []).
Proof.
  split; [left; reflexivity|].
  apply (request_rejected_while_busy (H := sample_udisks2)). left. reflexivity.
Defined.

(** C2 at a concrete input: the container's cleartext device got mounted
    while the cache still says inaccessible. *)
Lemma checkAccessibility_notifies_witness :
  filter (λ e, is_accessibilityChanged e = true)
    (effects (checkAccessibility (H := sample_udisks2) (luks (Some "dm_0") true) block_1))
  = [AccessibilityChanged true "/org/x/block_1"]
  ∧ ∀ n, count is_accessibilityChanged
           (effects (repeatM n (checkAccessibility (H := sample_udisks2))
                       (luks (Some "dm_0") true) block_1)) ≤ 1.
Proof.
  pose proof (checkAccessibility_notifies_iff_changed (H := sample_udisks2)
                (luks (Some "dm_0") true) block_1) as (_ & Hemit & _ & _ & Hrep).
  split; [exact Hemit | exact Hrep].
Defined.

(** C3 at a concrete input: the dialog for block_1 was canceled. *)
Lemma empty_passphraseReply_cancels_witness :
  m_passphraseRequested (after (setup (H := sample_udisks2) (luks None false) block_1)) = true
  ∧ effects (passphraseReply "" (luks None false)
               (after (setup (H := sample_udisks2) (luks None false) block_1)))
    = [UnregisterObject "/org/kde/solid/UDisks2StorageAccess_1";
       BroadcastActionDone "setup" UserCanceled ""].
Proof.
  split; [reflexivity|].
  destruct (empty_passphraseReply_cancels (luks None false)
              (after (setup (H := sample_udisks2) (luks None false) block_1)) eq_refl)
    as [Heq _].
  rewrite Heq. reflexivity.
Defined.

(** C4 at a concrete input: a reply reaches the idle object. *)
Lemma unrequested_passphraseReply_witness :
  m_passphraseRequested block_1 = false
  ∧ passphraseReply "secret" usb_disk block_1 = (tt, block_1, []).
Proof.
  split; [reflexivity|].
  apply (unrequested_passphraseReply_ignored). reflexivity.
Defined.

(** C5 at a concrete input: the scenario of the specification. *)
Lemma locked_setup_witness :
  (m_setupInProgress block_1 = false
   ∧ m_teardownInProgress block_1 = false
   ∧ isEncryptedContainer (luks None false) = true
   ∧ result (clearTextPath (H := sample_udisks2) (luks None false) block_1) = "")
  ∧ ∃ σ, run (H := sample_udisks2) unlock_scenario (idle block_1) = Some σ
         ∧ mounts_follow_unlock (trace σ).
Proof.
  split; [repeat split; reflexivity|].
  destruct (locked_setup_mounts_after_unlock (H := sample_udisks2) (luks None false) block_1
              eq_refl eq_refl eq_refl eq_refl) as (_ & _ & Hrun & _).
  eexists. split; [apply unlock_scenario_trace|].
  eapply (Hrun (tail unlock_scenario)).
  - repeat constructor.
  - apply unlock_scenario_trace.
Defined.

(** C5, a counterexample to the statement that the flag is cleared only
    when the subsequent mount completes, not at unlock completion: setup
    of the locked container block_1, the passphrase "secret", and the
    cleartext device is mounted by the time the reply to the Unlock call
    is handled.  That reply clears the flag, invalidates the cache,
    broadcasts setup-done and rechecks accessibility; no Mount call is
    sent in the whole run, and no call is outstanding at its end. *)
Lemma setup_ends_at_unlock_completion :
  (m_setupInProgress block_1 = false
   ∧ m_teardownInProgress block_1 = false
   ∧ isEncryptedContainer (luks None false) = true
   ∧ result (clearTextPath (H := sample_udisks2) (luks None false) block_1) = "")
  ∧ trace <$> run (H := sample_udisks2) mounted_at_unlock_scenario (idle block_1) =
      Some
        [Did (BroadcastActionRequested "setup");
         Did (SystemBusCall Blocking
                (Introspect "/org/freedesktop/UDisks2/block_devices"));
         Did (RegisterObject "/org/kde/solid/UDisks2StorageAccess_1");
         Did (ShowPassphraseDialog "/org/x/block_1" ":1.42"
                "/org/kde/solid/UDisks2StorageAccess_1" 0 "dolphin");
         Did (UnregisterObject "/org/kde/solid/UDisks2StorageAccess_1");
         Did (SystemBusCall (WithCallback None) (Unlock "/org/x/block_1" "secret"));
         Completed (Unlock "/org/x/block_1" "secret") true;
         Did (SystemBusCall Blocking
                (Introspect "/org/freedesktop/UDisks2/block_devices"));
         Did InvalidateCache;
         Did (BroadcastActionDone "setup" NoError "");
         Did (SystemBusCall Blocking
                (Introspect "/org/freedesktop/UDisks2/block_devices"));
         Did (AccessibilityChanged true "/org/x/block_1")]
  ∧ (λ σ, (m_setupInProgress (object σ), pending σ))
      <$> run (H := sample_udisks2) mounted_at_unlock_scenario (idle block_1)
    = Some (false, [])
  ∧ (λ σ, existsb is_mount_obs (trace σ))
      <$> run (H := sample_udisks2) mounted_at_unlock_scenario (idle block_1)
    = Some false.
Proof. repeat split; vm_compute; reflexivity. Qed.

(** C6, a counterexample to the statement that a non-removable parent
    issues neither call: the drive of a USB hard disk is not
    media-removable, the device is not optical and no cleartext device is
    involved, yet the completion of the unmount sends a PowerOff call. *)
Lemma fixed_drive_is_powered_off :
  propBool usb_disk (drivePath usb_disk) "MediaRemovable" = false
  ∧ isOpticalDisc usb_disk = false
  ∧ result (clearTextPath (H := sample_udisks2) usb_disk
              (set_teardownInProgress true block_1)) = ""
  ∧ filter (λ e, is_powerOff e = true)
      (effects (slotDBusReply (H := sample_udisks2) usb_disk
                  (set_teardownInProgress true block_1)))
    = [SystemBusCall NoBlock (PowerOff "/org/x/drive_1")].
Proof. vm_compute. done. Qed.

(** C6 as amended, at a concrete input: the card in the reader is
    ejected, the reader is not powered off. *)
Lemma teardown_completion_witness :
  (m_setupInProgress (set_teardownInProgress true block_1) = false
   ∧ m_teardownInProgress (set_teardownInProgress true block_1) = true
   ∧ result (clearTextPath (H := sample_udisks2) card_reader
               (set_teardownInProgress true block_1)) = "")
  ∧ count is_eject
      (effects (slotDBusReply (H := sample_udisks2) card_reader
                  (set_teardownInProgress true block_1))) = 1
  ∧ count is_powerOff
      (effects (slotDBusReply (H := sample_udisks2) card_reader
                  (set_teardownInProgress true block_1))) = 0.
Proof.
  split; [repeat split; reflexivity|].
  apply (teardown_completion_ejects_or_powers_off (H := sample_udisks2) card_reader
           (set_teardownInProgress true block_1) eq_refl eq_refl).
  left. reflexivity.
Defined.

(** C7 at a concrete input: the daemon reports the device busy while
    block_1 is being torn down. *)
Lemma daemon_error_witness :
  (m_setupInProgress (set_teardownInProgress true block_1) = true
   ∨ m_teardownInProgress (set_teardownInProgress true block_1) = true)
  ∧ m_teardownInProgress
      (after (slotDBusError (H := sample_udisks2)
                "org.freedesktop.UDisks2.Error.DeviceBusy" "target is busy"
                usb_disk (set_teardownInProgress true block_1))) = false
  ∧ count is_done_broadcast
      (effects (slotDBusError (H := sample_udisks2)
                  "org.freedesktop.UDisks2.Error.DeviceBusy" "target is busy"
                  usb_disk (set_teardownInProgress true block_1))) = 1
  ∧ count is_action_call
      (effects (slotDBusError (H := sample_udisks2)
                  "org.freedesktop.UDisks2.Error.DeviceBusy" "target is busy"
                  usb_disk (set_teardownInProgress true block_1))) = 0.
Proof.
  split; [right; reflexivity|].
  destruct (daemon_error_ends_action (H := sample_udisks2) usb_disk
              (set_teardownInProgress true block_1)
              "org.freedesktop.UDisks2.Error.DeviceBusy" "target is busy"
              (or_intror eq_refl)) as (_ & Htd & Hdone & Hcall & _).
  split; [apply Htd; reflexivity|]. split; [exact Hdone | exact Hcall].
Defined.

Module CacheRuns.
Import Fstab FstabFacts CacheFacts FstypeFacts RetentionFacts StabilityFacts.

(** C8, a counterexample to the statement that repeated queries answer
    alike until a flush: with the files unchanged and no flush
    in between, [fstype] answers "" for the share mounted by hand, and
    "cifs" after a [mountPoints] query has parsed the mount table. *)
Lemma fstype_changes_without_flush :
  (fstype "//srv/share" mounted_by_hand new_FstabHandling).1 = ""
  ∧ (fstype "//srv/share" mounted_by_hand
       (mountPoints "//srv/share" mounted_by_hand
          (fstype "//srv/share" mounted_by_hand new_FstabHandling).2).2).1
    = "cifs".
Proof. vm_compute. done. Qed.

(** A table that cannot be opened leaves its cache invalid: it is read
    again by the next query, without any flush. *)
Example unreadable_table_is_read_again :
  (options "//srv/share" {| etc_fstab := None; mnttab := None |}
     new_FstabHandling).1 = []
  ∧ (options "//srv/share" share_configured
       (options "//srv/share" {| etc_fstab := None; mnttab := None |}
          new_FstabHandling).2).1 = ["user"; "rw"].
Proof. vm_compute. done. Qed.

(** C8 as amended, at a concrete input: after a [deviceList] query both
    caches are valid and the answers no longer follow the files; after the
    flushes the share that was added shows. *)
Lemma caches_stable_witness :
  (m_fstabCacheValid (deviceList share_removed new_FstabHandling).2 = true
   ∧ m_mtabCacheValid (deviceList share_removed new_FstabHandling).2 = true)
  ∧ ask (MountPoints "//srv/share") share_configured
      (deviceList share_removed new_FstabHandling).2
    = ask (MountPoints "//srv/share") share_removed
        (deviceList share_removed new_FstabHandling).2
  ∧ "/mnt/share" ∈
      (mountPoints "//srv/share" share_configured
         (flushFstabCache (deviceList share_removed new_FstabHandling).2)).1.
Proof.
  destruct caches_stable_while_valid as (Hstable & _ & _ & _ & _ & Hfstab & _).
  split; [split; reflexivity|]. split.
  - apply (Hstable (MountPoints "//srv/share") share_configured share_removed
             (deviceList share_removed new_FstabHandling).2
             (λ _, eq_refl) (λ _, eq_refl)).
  - apply (Hfstab share_configured _ [root_ext4; cifs_share] cifs_share eq_refl).
    + right. left.
    + reflexivity.
Defined.

(** C9, a counterexample to the statement that a source name starting
    with "//" is kept from either table: the source name of the mounted share
    starts with "//", but its type is in no list, and the parse of the
    mount table drops it: no query shows it. *)
Lemma mounted_share_of_other_type_is_dropped :
  spec_keeps smb3_share = true
  ∧ (currentMountPoints "//srv/share" mounted_as_smb3 new_FstabHandling).1 = []
  ∧ (mountPoints "//srv/share" mounted_as_smb3 new_FstabHandling).1 = []
  ∧ (deviceList mounted_as_smb3 new_FstabHandling).1 = []
  ∧ (fstype "//srv/share" mounted_as_smb3
       (deviceList mounted_as_smb3 new_FstabHandling).2).1 = "".
Proof. vm_compute. done. Qed.

(** C9 as amended, at a concrete input: the same share with the type
    cifs is kept from the mount table and shows. *)
Lemma parse_keeps_witness :
  (m_mtabCacheValid new_FstabHandling = false
   ∧ mnttab mounted_by_hand = Some [root_ext4; cifs_share]
   ∧ cifs_share ∈ [root_ext4; cifs_share]
   ∧ mtab_keeps cifs_share = true)
  ∧ "/mnt/share" ∈ (currentMountPoints "//srv/share" mounted_by_hand new_FstabHandling).1
  ∧ "/mnt/share" ∈ (mountPoints "//srv/share" mounted_by_hand new_FstabHandling).1
  ∧ "//srv/share" ∈ (deviceList mounted_by_hand new_FstabHandling).1.
Proof.
  destruct parse_keeps_network_and_supported as (_ & _ & _ & _ & _ & Hmtab & _).
  assert (cifs_share ∈ [root_ext4; cifs_share]) as Hin by (right; left).
  split; [repeat split; (reflexivity || exact Hin)|].
  apply (Hmtab mounted_by_hand new_FstabHandling [root_ext4; cifs_share] cifs_share
           eq_refl eq_refl Hin eq_refl).
Defined.

(** C10 at a concrete input: the share was configured and mounted, then
    removed from both tables; both caches are flushed and re-parsed, the
    share has no mount point any more, and [fstype] still answers
    "cifs". *)
Lemma fstype_cache_witness :
  m_fstabFstypeCache (deviceList share_configured new_FstabHandling).2 !! "//srv/share"
    = Some "cifs"
  ∧ (mountPoints "//srv/share" share_removed
       (session [(FlushFstab, share_removed); (FlushMtab, share_removed);
                 (Ask DeviceList, share_removed)]
          (deviceList share_configured new_FstabHandling).2)).1 = []
  ∧ (fstype "//srv/share" share_removed
       (session [(FlushFstab, share_removed); (FlushMtab, share_removed);
                 (Ask DeviceList, share_removed)]
          (deviceList share_configured new_FstabHandling).2)).1 = "cifs".
Proof.
  assert (absent "//srv/share" share_removed) as Habs.
  { split; intros records fe [= <-] Hin Hk;
      apply list_elem_of_singleton in Hin; subst fe; discriminate Hk. }
  split; [vm_compute; reflexivity|]. split; [vm_compute; reflexivity|].
  destruct (fstype_cache_never_cleared
              [(FlushFstab, share_removed); (FlushMtab, share_removed);
               (Ask DeviceList, share_removed)]
              (deviceList share_configured new_FstabHandling).2
              "//srv/share" "cifs") as [_ Hkeep].
  { vm_compute. reflexivity. }
  destruct Hkeep as [_ Hfstype].
  { repeat (constructor; [exact Habs|]). constructor. }
  apply Hfstype, Habs.
Defined.

End CacheRuns.

(** * Further properties of StorageAccess *)

(** ** Hoare rules for the methods *)

Lemma hoare_ret {A} (P : StorageAccess → Prop) (a : A) (E : Effect → Prop) :
  hoare P (ret a) (λ r s, r = a ∧ P s) E.
Proof. intros w s HP. cbn. by repeat split. Qed.

Lemma hoare_this (P : StorageAccess → Prop) (E : Effect → Prop) :
  hoare P this (λ r s, r = s ∧ P s) E.
Proof. intros w s HP. cbn. by repeat split. Qed.

Lemma hoare_platform (P : StorageAccess → Prop) (E : Effect → Prop) :
  hoare P platform (λ _ s, P s) E.
Proof. intros w s HP. cbn. by repeat split. Qed.

Lemma hoare_modify (P Q : StorageAccess → Prop) (f : StorageAccess → StorageAccess)
    (E : Effect → Prop) :
  (∀ s, P s → Q (f s)) → hoare P (modify f) (λ _ s, Q s) E.
Proof. intros Hf w s HP. cbn. split; [by apply Hf | constructor]. Qed.

Lemma hoare_perform (P : StorageAccess → Prop) (e : Effect) (E : Effect → Prop) :
  E e → hoare P (perform e) (λ _ s, P s) E.
Proof. intros He w s HP. cbn. split; [done|]. by repeat constructor. Qed.

Lemma hoare_bind {A B} (P : StorageAccess → Prop) (c : M A)
    (Q : A → StorageAccess → Prop) (k : A → M B)
    (R : B → StorageAccess → Prop) (E : Effect → Prop) :
  hoare P c Q E → (∀ a, hoare (Q a) (k a) R E) → hoare P (bind c k) R E.
Proof.
  intros Hc Hk w s HP. destruct (Hc w s HP) as [HQ He1]. unfold bind.
  destruct (c w s) as [[a s1] e1]. cbn in HQ, He1.
  destruct (Hk a w s1 HQ) as [HR He2].
  destruct (k a w s1) as [[b s2] e2]. cbn in *.
  split; [done | by apply Forall_app].
Qed.

Lemma hoare_weaken {A} (P P' : StorageAccess → Prop) (c : M A)
    (Q Q' : A → StorageAccess → Prop) (E : Effect → Prop) :
  hoare P' c Q' E → (∀ s, P s → P' s) → (∀ a s, Q' a s → Q a s) → hoare P c Q E.
Proof.
  intros Hc HP HQ w s Hs. destruct (Hc w s (HP s Hs)) as [Hq He]. split; auto.
Qed.

(** A method that is a query: it keeps the object, whatever holds of
    it. *)
Lemma hoare_query {A} (P : StorageAccess → Prop) (c : M A) (E : Effect → Prop) :
  (∀ w s, after (c w s) = s) → (∀ w s, Forall E (effects (c w s))) →
  hoare P c (λ _ s, P s) E.
Proof. intros Ha He w s HP. rewrite Ha. by split. Qed.

Section ClearText.
Context `{Udisks2}.

(** The loop over the node list stops at the first node, among those
    that have a name, whose device names [udi] as its backing device. *)
Lemma clearTextPath_nodes_spec (w : Platform) (udi : string)
    (nodeList : list (option string)) :
  (clearTextPath_nodes w udi nodeList = ""
   ∧ ∀ name, Some name ∈ nodeList →
       cryptoBackingDevice w (UD2_DBUS_PATH_BLOCKDEVICES +:+ "/" +:+ name) ≠ udi)
  ∨ (∃ before name rest,
       nodeList = before ++ Some name :: rest
       ∧ clearTextPath_nodes w udi nodeList
         = UD2_DBUS_PATH_BLOCKDEVICES +:+ "/" +:+ name
       ∧ cryptoBackingDevice w (UD2_DBUS_PATH_BLOCKDEVICES +:+ "/" +:+ name) = udi
       ∧ ∀ name', Some name' ∈ before →
           cryptoBackingDevice w (UD2_DBUS_PATH_BLOCKDEVICES +:+ "/" +:+ name') ≠ udi).
Proof.
  induction nodeList as [|[name|] nodeList IH]; cbn.
  - left. split; [done|]. intros name Hin. by apply elem_of_nil in Hin.
  - destruct (String.eqb_spec udi
                (cryptoBackingDevice w (UD2_DBUS_PATH_BLOCKDEVICES +:+ "/" +:+ name)))
      as [Heq|Hne].
    + right. exists [], name, nodeList. repeat split; try done.
      intros name' Hin. by apply elem_of_nil in Hin.
    + destruct IH as [[-> Hnone] | (before & name' & rest & -> & -> & Hback & Hbefore)].
      * left. split; [done|]. intros name' [[= <-]|Hin]%elem_of_cons; auto.
      * right. exists (Some name :: before), name', rest. repeat split; try done.
        intros name'' [[= <-]|Hin]%elem_of_cons; auto.
  - destruct IH as [[-> Hnone] | (before & name' & rest & -> & -> & Hback & Hbefore)].
    + left. split; [done|]. intros name' [[=]|Hin]%elem_of_cons; auto.
    + right. exists (None :: before), name', rest. repeat split; try done.
      intros name'' [[=]|Hin]%elem_of_cons; auto.
Qed.

(** X1: [clearTextPath] is a query that sends one blocking Introspect
    call and keeps the object.  With an invalid reply it returns the empty
    path; with a valid one it returns the path of the first named node
    whose device has this device as its CryptoBackingDevice, and the empty
    path when no named node has. *)
Theorem clearTextPath_first_holder (w : Platform) (s : StorageAccess) :
  after (clearTextPath w s) = s
  ∧ effects (clearTextPath w s)
    = [SystemBusCall Blocking (Introspect UD2_DBUS_PATH_BLOCKDEVICES)]
  ∧ (introspectReply w = None → result (clearTextPath w s) = "")
  ∧ ∀ nodeList, introspectReply w = Some nodeList →
      (result (clearTextPath w s) = ""
       ∧ ∀ name, Some name ∈ nodeList →
           cryptoBackingDevice w (UD2_DBUS_PATH_BLOCKDEVICES +:+ "/" +:+ name)
           ≠ m_device s)
      ∨ (∃ before name rest,
           nodeList = before ++ Some name :: rest
           ∧ result (clearTextPath w s)
             = UD2_DBUS_PATH_BLOCKDEVICES +:+ "/" +:+ name
           ∧ cryptoBackingDevice w (result (clearTextPath w s)) = m_device s
           ∧ ∀ name', Some name' ∈ before →
               cryptoBackingDevice w (UD2_DBUS_PATH_BLOCKDEVICES +:+ "/" +:+ name')
               ≠ m_device s).
Proof.
  unfold clearTextPath. unfold_M. cbn.
  split; [done|]. split; [done|]. split; [by intros ->|].
  intros nodeList ->.
  destruct (clearTextPath_nodes_spec w (m_device s) nodeList)
    as [?|(before & name & rest & Hl & Hr & Hb & Hbefore)]; [by left|].
  right. exists before, name, rest. by rewrite Hr.
Qed.

End ClearText.

Section MountUnmount.
Context `{Udisks2}.

(** The path [mount()] and [unmount()] address. *)
Lemma mount_path_eq (w : Platform) (s : StorageAccess) :
  mount_path w s =
    (if isEncryptedContainer w && negb (String.eqb (result (clearTextPath w s)) "")
     then result (clearTextPath w s) else m_device s,
     s,
     if isEncryptedContainer w
     then [SystemBusCall Blocking (Introspect UD2_DBUS_PATH_BLOCKDEVICES)]
     else []).
Proof.
  unfold mount_path, isLuksDevice, clearTextPath. unfold_M. cbn.
  destruct (isEncryptedContainer w); cbn; [|done].
  by destruct (negb _).
Qed.

Lemma clearTextPath_same_device (w : Platform) (s s' : StorageAccess) :
  m_device s' = m_device s →
  result (clearTextPath w s') = result (clearTextPath w s)
  ∧ after (clearTextPath w s') = s'
  ∧ effects (clearTextPath w s')
    = [SystemBusCall Blocking (Introspect UD2_DBUS_PATH_BLOCKDEVICES)].
Proof. intros Hd. unfold clearTextPath. unfold_M. cbn. by rewrite Hd. Qed.

Lemma setup_open (w : Platform) (s : StorageAccess) :
  m_setupInProgress s = false →
  m_teardownInProgress s = false →
  isEncryptedContainer w = false ∨ result (clearTextPath w s) ≠ "" →
  setup w s =
    (callWithCallbackSent w,
     set_setupInProgress true s,
     BroadcastActionRequested "setup"
     :: (if isEncryptedContainer w
         then [SystemBusCall Blocking (Introspect UD2_DBUS_PATH_BLOCKDEVICES);
               SystemBusCall Blocking (Introspect UD2_DBUS_PATH_BLOCKDEVICES)]
         else [])
     ++ [SystemBusCall (WithCallback None)
           (Mount (if isEncryptedContainer w then result (clearTextPath w s)
                   else m_device s)
              (if String.eqb (propString w (m_device s) "IdType") "vfat"
               then [("options", "flush")] else []))]).
Proof.
  intros Hs Ht Hopen.
  destruct (clearTextPath_same_device w s (set_setupInProgress true s) eq_refl)
    as (Hr & Ha & He).
  assert (mount w (set_setupInProgress true s) =
    (callWithCallbackSent w, set_setupInProgress true s,
     (if isEncryptedContainer w
      then [SystemBusCall Blocking (Introspect UD2_DBUS_PATH_BLOCKDEVICES)]
      else [])
     ++ [SystemBusCall (WithCallback None)
           (Mount (if isEncryptedContainer w then result (clearTextPath w s)
                   else m_device s)
              (if String.eqb (propString w (m_device s) "IdType") "vfat"
               then [("options", "flush")] else []))])) as Hmount.
  { rewrite mount_eq, mount_path_eq. cbn [result fst snd]. rewrite Hr.
    cbn [m_device set_setupInProgress].
    destruct (isEncryptedContainer w); cbn -[clearTextPath]; [|done].
    destruct Hopen as [|Hne]; [done|].
    destruct (String.eqb_spec (result (clearTextPath w s)) ""); done. }
  unfold setup. unfold_M. rewrite Hs, Ht. cbn -[mount clearTextPath].
  destruct (isEncryptedContainer w) eqn:Henc.
  - destruct Hopen as [|Hne]; [done|].
    assert (clearTextPath w (set_setupInProgress true s)
            = (result (clearTextPath w s), set_setupInProgress true s,
               [SystemBusCall Blocking (Introspect UD2_DBUS_PATH_BLOCKDEVICES)]))
      as ->.
    { destruct (clearTextPath w (set_setupInProgress true s)) as [[ct s1] e1].
      cbn in Ha, He, Hr. by subst. }
    cbn -[mount clearTextPath].
    destruct (String.eqb_spec (result (clearTextPath w s)) ""); [done|].
    rewrite Hmount. by cbn.
  - cbn -[mount]. by rewrite Hmount.
Qed.

(** X2: [setup()] on an idle object whose device needs no passphrase (it
    is no encrypted container, or its cleartext device exists) sets
    [m_setupInProgress] and nothing else, broadcasts the request, and sends
    exactly one Mount call with a callback and no timeout: to the cleartext
    device for a container, to the device itself otherwise, with the option
    "flush" exactly when the IdType of the device is vfat.  No passphrase
    dialog is requested, and the result tells whether the bus accepted the
    call. *)
Theorem setup_mounts_without_passphrase (w : Platform) (s : StorageAccess) :
  m_setupInProgress s = false →
  m_teardownInProgress s = false →
  isEncryptedContainer w = false ∨ result (clearTextPath w s) ≠ "" →
  after (setup w s) = set_setupInProgress true s
  ∧ result (setup w s) = callWithCallbackSent w
  ∧ filter (λ e, is_action_call e = true) (effects (setup w s))
    = [SystemBusCall (WithCallback None)
         (Mount (if isEncryptedContainer w then result (clearTextPath w s)
                 else m_device s)
            (if String.eqb (propString w (m_device s) "IdType") "vfat"
             then [("options", "flush")] else []))]
  ∧ filter (λ e, is_broadcast e = true) (effects (setup w s))
    = [BroadcastActionRequested "setup"]
  ∧ count is_dialog (effects (setup w s)) = 0.
Proof.
  intros Hs Ht Hopen. rewrite (setup_open w s Hs Ht Hopen). cbn [after result effects fst snd].
  split; [done|]. split; [done|].
  by destruct (isEncryptedContainer w).
Qed.

(** X3: [teardown()] on an idle object sets [m_teardownInProgress] and
    nothing else, broadcasts the request, and sends exactly one Unmount
    call, with a callback and the unmount timeout: to the cleartext device
    when the device is a container that has one, to the device itself
    otherwise; the result tells whether the bus accepted the call. *)
Theorem teardown_unmounts (w : Platform) (s : StorageAccess) :
  m_setupInProgress s = false →
  m_teardownInProgress s = false →
  teardown w s =
    (callWithCallbackSent w,
     set_teardownInProgress true s,
     BroadcastActionRequested "teardown"
     :: (if isEncryptedContainer w
         then [SystemBusCall Blocking (Introspect UD2_DBUS_PATH_BLOCKDEVICES)]
         else [])
     ++ [SystemBusCall (WithCallback (Some s_unmountTimeout))
           (Unmount
              (if isEncryptedContainer w
                  && negb (String.eqb (result (clearTextPath w s)) "")
               then result (clearTextPath w s) else m_device s))]).
Proof.
  intros Hs Ht. unfold teardown, unmount. unfold_M. rewrite Hs, Ht.
  cbn -[mount_path]. rewrite mount_path_eq. cbn -[clearTextPath].
  assert (result (clearTextPath w (set_teardownInProgress true s))
          = result (clearTextPath w s)) as ->.
  { unfold clearTextPath. unfold_M. by cbn. }
  by rewrite ?app_nil_r.
Qed.

(** X4: a successful reply during a teardown, while a cleartext device is
    found for the device, sends exactly one Lock call (to the device
    itself when it is the container, to its CryptoBackingDevice otherwise)
    and does nothing else: the object, with its teardown flag, stays as it
    is, nothing is broadcast, and no Eject or PowerOff is sent. *)
Theorem teardown_reply_locks_container (w : Platform) (s : StorageAccess) :
  m_setupInProgress s = false →
  m_teardownInProgress s = true →
  result (clearTextPath w s) ≠ "" →
  result (clearTextPath w s) ≠ "/" →
  slotDBusReply w s =
    (tt, s,
     [SystemBusCall Blocking (Introspect UD2_DBUS_PATH_BLOCKDEVICES);
      SystemBusCall (WithCallback None)
        (Lock (if isEncryptedContainer w then m_device s
               else cryptoBackingDevice w (m_device s)))]).
Proof.
  intros Hs Ht Hne Hns.
  unfold slotDBusReply, callCryptoTeardown, isLuksDevice, clearTextPath in *.
  unfold bind, ret, this, perform, platform in *. cbn in Hne, Hns.
  rewrite Hs, Ht. cbn.
  destruct (String.eqb_spec
              match introspectReply w with
              | Some nodeList => clearTextPath_nodes w (m_device s) nodeList
              | None => ""
              end "") as [|_]; [done|].
  destruct (String.eqb_spec
              match introspectReply w with
              | Some nodeList => clearTextPath_nodes w (m_device s) nodeList
              | None => ""
              end "/") as [|_]; [done|].
  by destruct (isEncryptedContainer w).
Qed.


End MountUnmount.

(** ** Invariants of the flags *)

Lemma keeps_ret {A} P E (a : A) : keeps P E (ret a).
Proof. intros w s HP. cbn. by split. Qed.

Lemma keeps_this P E : keeps P E this.
Proof. intros w s HP. cbn. by split. Qed.

Lemma keeps_platform P E : keeps P E platform.
Proof. intros w s HP. cbn. by split. Qed.

Lemma keeps_modify (P : StorageAccess → Prop) E (f : StorageAccess → StorageAccess) :
  (∀ s, P s → P (f s)) → keeps P E (modify f).
Proof. intros Hf. by apply hoare_modify. Qed.

Lemma keeps_perform (P : StorageAccess → Prop) (E : Effect → Prop) (e : Effect) :
  E e → keeps P E (perform e).
Proof. intros He. by apply hoare_perform. Qed.

Lemma keeps_bind {A B} P E (c : M A) (k : A → M B) :
  keeps P E c → (∀ a, keeps P E (k a)) → keeps P E (bind c k).
Proof. intros Hc Hk. eapply hoare_bind; [exact Hc | exact Hk]. Qed.

(** After reading the object, the invariant may be used of what was
    read. *)
Lemma keeps_this_bind {B} (P : StorageAccess → Prop) E (k : StorageAccess → M B) :
  (∀ a, P a → keeps P E (k a)) → keeps P E (bind this k).
Proof.
  intros Hk w s HP. unfold bind, this.
  destruct (Hk s HP w s HP) as [HQ He].
  destruct (k s w s) as [[b s2] e2]. by cbn in *.
Qed.

Ltac keeps_step :=
  first
    [ apply keeps_ret | apply keeps_this | apply keeps_platform
    | apply keeps_perform; done
    | apply keeps_bind; [|intros ?]
    | match goal with |- keeps _ _ (if ?b then _ else _) => destruct b end
    | match goal with |- keeps _ _ (match ?x with _ => _ end) => destruct x end ].

Section FlagInvariants.
Context `{Udisks2}.

Lemma keeps_clearTextPath P E :
  E (SystemBusCall Blocking (Introspect UD2_DBUS_PATH_BLOCKDEVICES)) →
  keeps P E clearTextPath.
Proof. intros He. unfold clearTextPath. repeat keeps_step. Qed.

Lemma keeps_isAccessible P E :
  E (SystemBusCall Blocking (Introspect UD2_DBUS_PATH_BLOCKDEVICES)) →
  keeps P E isAccessible.
Proof.
  intros He. unfold isAccessible, isLuksDevice.
  repeat first [apply keeps_clearTextPath; done | keeps_step].
Qed.

Lemma keeps_checkAccessibility P E :
  settled P →
  E (SystemBusCall Blocking (Introspect UD2_DBUS_PATH_BLOCKDEVICES)) →
  (∀ b udi, E (AccessibilityChanged b udi)) →
  keeps P E checkAccessibility.
Proof.
  intros HP He Hc. unfold checkAccessibility, updateCache.
  repeat first [apply keeps_isAccessible; done | keeps_step].
  apply keeps_modify. intros s Hs. by apply HP.
Qed.

Lemma keeps_mount P E :
  E (SystemBusCall Blocking (Introspect UD2_DBUS_PATH_BLOCKDEVICES)) →
  (∀ path options, E (SystemBusCall (WithCallback None) (Mount path options))) →
  keeps P E mount.
Proof.
  intros He Hm. unfold mount, mount_path, isLuksDevice.
  repeat first [apply keeps_clearTextPath; done | keeps_step].
Qed.

Lemma keeps_unmount P E :
  E (SystemBusCall Blocking (Introspect UD2_DBUS_PATH_BLOCKDEVICES)) →
  (∀ path, E (SystemBusCall (WithCallback (Some s_unmountTimeout)) (Unmount path))) →
  keeps P E unmount.
Proof.
  intros He Hm. unfold unmount, mount_path, isLuksDevice.
  repeat first [apply keeps_clearTextPath; done | keeps_step].
Qed.

End FlagInvariants.

Section Exclusion.
Context `{Udisks2}.

Lemma settled_exclusive : settled exclusive.
Proof.
  intros s Hs. unfold exclusive in *. cbn.
  repeat split; try done. apply andb_false_r.
Qed.

Lemma keeps_ejectOrPowerOff P : keeps P (λ _, True) ejectOrPowerOff.
Proof. unfold ejectOrPowerOff. repeat keeps_step. Qed.

(** The slots and callbacks that set no flag keep every settled
    invariant. *)
Lemma keeps_settled_handler (P : StorageAccess → Prop) (i : Input) :
  settled P →
  is_callback i = true → is_requested_signal i = false →
  keeps P (λ _, True) (handler i).
Proof.
  intros HP Hcb Hrs.
  assert (keeps P (λ _, True) checkAccessibility) as Hcheck
    by (by apply keeps_checkAccessibility).
  assert (keeps P (λ _, True) mount) as Hmount by (by apply keeps_mount).
  assert (∀ b, keeps P (λ _, True) (modify (set_isAccessible b))) as Hacc
    by (intros b; apply keeps_modify; intros s Hs; by apply HP).
  assert (keeps P (λ _, True) (modify (set_setupInProgress false))) as Hsf
    by (apply keeps_modify; intros s Hs; by apply HP).
  assert (keeps P (λ _, True) (modify (set_teardownInProgress false))) as Htf
    by (apply keeps_modify; intros s Hs; by apply HP).
  assert (keeps P (λ _, True) (modify (set_passphraseRequested false))) as Hpf
    by (apply keeps_modify; intros s Hs; by apply HP).
  destruct i; try done; cbn [handler].
  - unfold passphraseReply, callCryptoSetup.
    repeat first [exact Hsf | exact Hpf | keeps_step].
  - unfold slotDBusReply, callCryptoTeardown, isLuksDevice.
    repeat first
      [ exact Hsf | exact Htf | exact Hcheck | exact Hmount
      | apply keeps_isAccessible; done
      | apply keeps_clearTextPath; done
      | apply keeps_ejectOrPowerOff | keeps_step ].
  - unfold slotDBusError.
    repeat first [exact Hsf | exact Htf | exact Hcheck | keeps_step].
  - unfold slotSetupDone. repeat first [exact Hsf | exact Hcheck | keeps_step].
  - unfold slotTeardownDone. repeat first [exact Htf | exact Hcheck | keeps_step].
Qed.

Lemma keeps_requestPassphrase (P : StorageAccess → Prop) :
  (∀ s, P s → (∀ b, P (set_passphraseRequested b s))
              ∧ (∀ p, P (set_lastReturnObject p s))
              ∧ (∀ n, P (set_number n s))) →
  keeps P (λ _, True) requestPassphrase.
Proof.
  intros HP. unfold requestPassphrase, generateReturnObjectPath.
  repeat first [apply keeps_modify; intros s Hs; by apply HP | keeps_step].
Qed.

(** [setup()] never touches the teardown flag, [teardown()] never the
    setup flag. *)
Lemma setup_keeps_teardown_flag (b : bool) :
  keeps (λ s, m_teardownInProgress s = b) (λ _, True) setup.
Proof.
  unfold setup.
  repeat first
    [ apply keeps_requestPassphrase; done
    | apply keeps_mount; done
    | apply keeps_clearTextPath; done
    | apply keeps_modify; intros s Hs; exact Hs
    | keeps_step ].
Qed.

Lemma teardown_keeps_setup_flag (b : bool) :
  keeps (λ s, m_setupInProgress s = b) (λ _, True) teardown.
Proof.
  unfold teardown.
  repeat first
    [ apply keeps_unmount; done
    | apply keeps_modify; intros s Hs; exact Hs
    | keeps_step ].
Qed.

Lemma setup_busy (w : Platform) (s : StorageAccess) :
  m_teardownInProgress s || m_setupInProgress s = true →
  setup w s = (false, s, []) ∧ teardown w s = (false, s, []).
Proof. intros Hb. unfold setup, teardown. unfold_M. by rewrite Hb. Qed.

Lemma handler_exclusive (w : Platform) (i : Input) (s : StorageAccess) :
  is_requested_signal i = false →
  exclusive s → exclusive (after (handler i w s)).
Proof.
  intros Hrs Hex.
  destruct (is_callback i) eqn:Hcb.
  { by apply (keeps_settled_handler exclusive i settled_exclusive Hcb Hrs w s). }
  destruct (m_teardownInProgress s || m_setupInProgress s) eqn:Hbusy.
  { destruct (setup_busy w s Hbusy) as [Hsetup Hteardown].
    destruct i; try done; cbn [handler]; unfold bind; by rewrite ?Hsetup, ?Hteardown. }
  apply orb_false_elim in Hbusy as [Ht Hs].
  destruct i; try done; cbn [handler]; unfold bind.
  - pose proof (proj1 (setup_keeps_teardown_flag false w s Ht)) as Hk.
    destruct (setup w s) as [[r s1] e1]. cbn in *.
    unfold exclusive. by rewrite Hk, andb_false_r.
  - pose proof (proj1 (teardown_keeps_setup_flag false w s Hs)) as Hk.
    destruct (teardown w s) as [[r s1] e1]. cbn in *.
    unfold exclusive. by rewrite Hk.
Qed.

(** X6: at most one of setup and teardown is in progress, at every point
    of every run of the object in which the two "requested" slots are not
    invoked: requests, passphrase replies, replies and errors of the
    daemon, device changes and "done" broadcasts all keep the two flags
    from being set together. *)
Theorem setup_and_teardown_exclusive
    (inputs : list (Platform * Input)) (σ σ' : Sys) :
  Forall (λ wi, is_requested_signal wi.2 = false) inputs →
  exclusive (object σ) →
  run inputs σ = Some σ' →
  exclusive (object σ').
Proof.
  intros Hin. revert σ.
  induction Hin as [|[w i] inputs Hi _ IH]; intros σ Hex Hrun; [by simplify_eq/=|].
  cbn in Hrun. destruct (step w i σ) as [σ1|] eqn:Hstep; simplify_eq/=.
  eapply IH; [|done]. unfold step in Hstep.
  destruct (completion i σ) as [[done rest]|]; simplify_eq/=.
  by apply handler_exclusive.
Qed.

End Exclusion.

Section NoSetup.
Context `{Udisks2}.

Lemma keeps_no_setup_handler (i : Input) :
  starts_setup i = false →
  keeps no_setup (λ e, is_setup_effect e = false) (handler i).
Proof.
  intros Hi.
  assert (settled no_setup) as Hsettled.
  { intros s [Hs Hp]. unfold no_setup. by cbn. }
  assert (keeps no_setup (λ e, is_setup_effect e = false) checkAccessibility) as Hcheck
    by (by apply keeps_checkAccessibility).
  assert (∀ f, (∀ s, m_setupInProgress (f s) = m_setupInProgress s
                     ∧ m_passphraseRequested (f s) = m_passphraseRequested s) →
               keeps no_setup (λ e, is_setup_effect e = false) (modify f)) as Hmod.
  { intros f Hf. apply keeps_modify. intros s [Hs Hp]. unfold no_setup.
    destruct (Hf s) as [-> ->]. done. }
  assert (keeps no_setup (λ e, is_setup_effect e = false)
            (modify (set_setupInProgress false))) as Hsf.
  { apply keeps_modify. by intros s [Hs Hp]. }
  destruct i; try done; cbn [handler].
  - unfold teardown, unmount, mount_path, isLuksDevice.
    repeat first
      [ apply keeps_clearTextPath; done | apply Hmod; done | keeps_step ].
  - unfold passphraseReply. apply keeps_this_bind. intros a [_ Hp]. rewrite Hp.
    apply keeps_ret.
  - unfold slotDBusReply. apply keeps_this_bind. intros a [Hs _]. rewrite Hs.
    unfold callCryptoTeardown, ejectOrPowerOff, isLuksDevice.
    repeat first
      [ exact Hcheck | apply keeps_clearTextPath; done | apply Hmod; done
      | keeps_step ].
  - unfold slotDBusError. apply keeps_this_bind. intros a [Hs _]. rewrite Hs.
    repeat first [exact Hcheck | apply Hmod; done | keeps_step].
  - unfold slotSetupDone. repeat first [exact Hcheck | exact Hsf | keeps_step].
  - unfold slotTeardownRequested. repeat first [apply Hmod; done | keeps_step].
  - unfold slotTeardownDone. repeat first [exact Hcheck | apply Hmod; done | keeps_step].
Qed.

(** X7: as long as no setup is requested or announced, the object never
    asks for a passphrase, never unlocks and never mounts: from an object
    with neither a setup nor a passphrase request under way, every run of
    teardown requests, passphrase replies, replies and errors of the daemon,
    device changes and teardown or "setup done" broadcasts leaves it so and
    adds no passphrase dialog, no Unlock call and no Mount call to the
    trace. *)
Theorem no_setup_effects_without_setup
    (inputs : list (Platform * Input)) (σ σ' : Sys) :
  Forall (λ wi, starts_setup wi.2 = false) inputs →
  no_setup (object σ) →
  run inputs σ = Some σ' →
  no_setup (object σ')
  ∧ ∃ new, trace σ' = trace σ ++ new
           ∧ Forall (λ o, ∀ e, o = Did e → is_setup_effect e = false) new.
Proof.
  intros Hin. revert σ.
  induction Hin as [|[w i] inputs Hi _ IH]; intros σ Hno Hrun.
  { simplify_eq/=. split; [done|]. exists []. by rewrite app_nil_r. }
  cbn in Hrun. destruct (step w i σ) as [σ1|] eqn:Hstep; simplify_eq/=.
  unfold step in Hstep.
  destruct (completion i σ) as [[done rest]|] eqn:Hc; simplify_eq/=.
  destruct (keeps_no_setup_handler i Hi w (object σ) Hno) as [Hno1 Heff].
  edestruct IH as [Hno' (new & Htr & Hnew)]; [|exact Hrun|]; [exact Hno1|].
  split; [done|]. cbn in Htr. eexists. split; [by rewrite Htr, <- app_assoc|].
  apply Forall_app. split; [|done]. apply Forall_app. split.
  - destruct i; cbn in Hc; simplify_eq; try by constructor.
    + destruct (pending σ !! i); simplify_eq/=. by repeat constructor.
    + destruct (pending σ !! i); simplify_eq/=. by repeat constructor.
  - apply Forall_map. eapply Forall_impl; [exact Heff|].
    intros e He e' [= <-]. exact He.
Qed.

End NoSetup.

(** ** The reply objects of the passphrase dialog *)

Lemma to_int_proper (z : Z) :
  Z.to_int z ≠ Decimal.Pos Decimal.Nil ∧ Z.to_int z ≠ Decimal.Neg Decimal.Nil.
Proof.
  destruct z as [|p|p]; cbn; split; try done.
  - intros [= Hp]. generalize (DecimalPos.Unsigned.of_to p). by rewrite Hp.
  - intros [= Hp]. generalize (DecimalPos.Unsigned.of_to p). by rewrite Hp.
Qed.

(** The decimal string of an integer parses back to it. *)
Lemma QString_number_inj (a b : Z) : QString_number a = QString_number b → a = b.
Proof.
  intros Heq. apply DecimalZ.to_int_inj.
  assert (NilZero.int_of_string (QString_number a)
          = NilZero.int_of_string (QString_number b)) as Hi by (by rewrite Heq).
  unfold QString_number in Hi.
  rewrite !NilZero.isi in Hi by apply to_int_proper. by simplify_eq.
Qed.

Lemma append_inj (p a b : string) : p +:+ a = p +:+ b → a = b.
Proof. induction p; cbn; [done|]. intros [= ?]. auto. Qed.

Lemma wrap32_id (z : Z) : (- 2 ^ 31 ≤ z < 2 ^ 31)%Z → wrap32 z = z.
Proof. intros Hz. unfold wrap32. rewrite Z.mod_small; lia. Qed.

Lemma wrap32_range (z : Z) : (- 2 ^ 31 ≤ wrap32 z < 2 ^ 31)%Z.
Proof.
  unfold wrap32. pose proof (Z.mod_pos_bound (z + 2 ^ 31) (2 ^ 32)). lia.
Qed.

Lemma wrap32_wrap32 (a b : Z) : wrap32 (wrap32 a + b) = wrap32 (a + b).
Proof.
  unfold wrap32.
  replace ((a + 2 ^ 31) mod 2 ^ 32 - 2 ^ 31 + b + 2 ^ 31)%Z
    with ((a + 2 ^ 31) mod 2 ^ 32 + b)%Z by lia.
  rewrite Zplus_mod_idemp_l. f_equal. f_equal. lia.
Qed.

Lemma wrap32_inj (n i j : Z) :
  (0 ≤ i < 2 ^ 32)%Z → (0 ≤ j < 2 ^ 32)%Z →
  wrap32 (n + i) = wrap32 (n + j) → i = j.
Proof.
  intros Hi Hj Heq. unfold wrap32 in Heq.
  assert (((n + i + 2 ^ 31) mod 2 ^ 32 = (n + j + 2 ^ 31) mod 2 ^ 32)%Z) as Hm by lia.
  assert (((n + i + 2 ^ 31) - (n + j + 2 ^ 31)) mod 2 ^ 32 = 0)%Z as Hd.
  { by rewrite Zminus_mod, Hm, Z.sub_diag. }
  replace (n + i + 2 ^ 31 - (n + j + 2 ^ 31))%Z with (i - j)%Z in Hd by lia.
  apply Z.mod_divide in Hd; [|lia]. destruct Hd as [q Hq]. nia.
Qed.

(** The [i]-th generated path carries the counter advanced [i] times. *)
Lemma returnObjectPaths_eq (k : nat) (w : Platform) (s : StorageAccess) :
  returnObjectPaths k w s =
    map (λ i, "/org/kde/solid/UDisks2StorageAccess_"
              +:+ QString_number (if i is O then number s
                                  else wrap32 (number s + Z.of_nat i)))
        (seq 0 k).
Proof.
  revert s. induction k as [|k IH]; intros s; [done|].
  cbn [returnObjectPaths seq map]. f_equal.
  rewrite IH. unfold generateReturnObjectPath. unfold_M. cbn [after fst snd number set_number].
  rewrite <- fmap_S_seq, <- list_fmap_compose.
  apply list_fmap_ext. intros _ i _. cbn. f_equal. f_equal.
  destruct i as [|i]; [done|].
  rewrite wrap32_wrap32. f_equal. lia.
Qed.

(** X8: the paths that successive calls of [generateReturnObjectPath]
    return are pairwise distinct, for up to 2^32 calls: the counter is a
    32-bit integer that wraps, and its decimal form is unambiguous. *)
Theorem returnObjectPaths_distinct (k : nat) (w : Platform) (s : StorageAccess) :
  (- 2 ^ 31 ≤ number s < 2 ^ 31)%Z →
  (Z.of_nat k ≤ 2 ^ 32)%Z →
  NoDup (returnObjectPaths k w s).
Proof.
  intros Hn Hk. rewrite returnObjectPaths_eq.
  apply NoDup_fmap_2_strong; [|apply NoDup_seq].
  intros i j Hi%elem_of_seq Hj%elem_of_seq Heq.
  apply append_inj, QString_number_inj in Heq.
  assert (∀ i : nat, (if i is O then number s else wrap32 (number s + Z.of_nat i))
                     = wrap32 (number s + Z.of_nat i)) as Hw.
  { intros [|i']; [|done]. rewrite Z.add_0_r. by rewrite wrap32_id. }
  rewrite !Hw in Heq. apply wrap32_inj in Heq; lia.
Qed.

(** ** Accessibility, mount points and ignored devices *)

Section Paths.
Context `{Udisks2}.

(** X9: a container is accessible only through a mounted cleartext
    device: if [isAccessible] answers true for an encrypted container,
    then the introspection reply was valid and names a block device that
    has the container as its CryptoBackingDevice and is mounted; the answer
    for any other device is that of its own [isMounted]. *)
Theorem accessible_container_has_mounted_cleartext (w : Platform) (s : StorageAccess) :
  (isEncryptedContainer w = false →
   result (isAccessible w s) = isMounted w (m_device s))
  ∧ (isEncryptedContainer w = true →
     result (isAccessible w s) = true →
     ∃ nodeList name,
       introspectReply w = Some nodeList
       ∧ Some name ∈ nodeList
       ∧ cryptoBackingDevice w (UD2_DBUS_PATH_BLOCKDEVICES +:+ "/" +:+ name)
         = m_device s
       ∧ isMounted w (UD2_DBUS_PATH_BLOCKDEVICES +:+ "/" +:+ name) = true).
Proof.
  split.
  - intros Henc. unfold isAccessible, isLuksDevice. unfold_M. by rewrite Henc.
  - intros Henc Hacc.
    unfold isAccessible, isLuksDevice, clearTextPath in Hacc.
    unfold bind, ret, platform, this, perform in Hacc. rewrite Henc in Hacc.
    cbn in Hacc.
    destruct (introspectReply w) as [nodeList|] eqn:Hreply; [|done].
    destruct (clearTextPath_nodes_spec w (m_device s) nodeList)
      as [[Hr _]|(before & name & rest & -> & Hr & Hback & _)];
      rewrite Hr in Hacc; [done|].
    exists (before ++ Some name :: rest), name. split; [done|].
    split; [set_solver|]. split; [done|].
    by destruct (_ || _).
Qed.

End Paths.

Lemma chop_nul_app (p : string) : chop_nul (p +:+ String zero EmptyString) = p.
Proof.
  induction p as [|c p IH]; [done|].
  destruct p as [|c' p']; [done|].
  change (chop_nul (String c (String c' p') +:+ String zero EmptyString))
    with (String c (chop_nul (String c' p' +:+ String zero EmptyString))).
  by rewrite IH.
Qed.

Lemma prefix_empty (s : string) : String.prefix "" s = true.
Proof. by destruct s. Qed.

Lemma find_rev_last {A} (f : A → bool) (l : list A) :
  match List.find f (rev l) with
  | None => ∀ x, x ∈ l → f x = false
  | Some x => ∃ before after,
      l = before ++ x :: after ∧ f x = true ∧ ∀ y, y ∈ after → f y = false
  end.
Proof.
  induction l as [|a l IH] using rev_ind; cbn.
  - intros x Hx. by apply elem_of_nil in Hx.
  - rewrite rev_app_distr. cbn. destruct (f a) eqn:Ha.
    + exists l, []. repeat split; try done. intros y Hy. by apply elem_of_nil in Hy.
    + destruct (List.find f (rev l)) as [x|].
      * destruct IH as (before & after & -> & Hx & Hafter).
        exists before, (after ++ [a]). rewrite <- app_assoc. repeat split; try done.
        intros y [Hy|Hy%list_elem_of_singleton]%elem_of_app; [auto|by subst].
      * intros x [Hx|Hx%list_elem_of_singleton]%elem_of_app; [auto|by subst].
Qed.

(** X10: [baseMountPoint] returns the decoded target of the last entry of
    the mount table whose source is the device path (without its trailing
    NUL byte) and whose root is "/", and the empty string when there is no
    such entry, when the table cannot be read, or without libmount. *)
Theorem baseMountPoint_last_entry (m : MountView) (dev : string) :
  (HAVE_LIBMOUNT m = false ∨ mountinfo m = None → baseMountPoint m dev = "")
  ∧ ∀ table,
      HAVE_LIBMOUNT m = true → mountinfo m = Some table →
      (baseMountPoint m dev = ""
       ∧ ∀ fs, fs ∈ table → is_base_mount (chop_nul dev) fs = false)
      ∨ (∃ before fs after,
           table = before ++ fs :: after
           ∧ is_base_mount (chop_nul dev) fs = true
           ∧ (∀ fs', fs' ∈ after → is_base_mount (chop_nul dev) fs' = false)
           ∧ baseMountPoint m dev = decodeName m (fs_target fs)).
Proof.
  unfold baseMountPoint. split.
  - intros [-> | Hm]; [done|]. rewrite Hm. by destruct (HAVE_LIBMOUNT m).
  - intros table -> ->.
    pose proof (find_rev_last (is_base_mount (chop_nul dev)) table) as Hfind.
    destruct (List.find _ (rev table)) as [fs|].
    + right. destruct Hfind as (before & after & -> & Hfs & Hafter).
      by exists before, fs, after.
    + by left.
Qed.

Section FilePathFacts.
Context `{Udisks2}.

(** X11: for a device that is no container, [filePath] is a query without
    effects; with no mount point it is empty; with one mount point it is
    the decoded mount point, whether or not the daemon ends it with a NUL
    byte; with several (bind mounts) it is the base mount point when that
    is not empty and the first mount point otherwise. *)
Theorem filePath_of_plain_device (m : MountView) (w : Platform) (s : StorageAccess) :
  isEncryptedContainer w = false →
  after (filePath m w s) = s
  ∧ effects (filePath m w s) = []
  ∧ (propMountPoints m (m_device s) = [] → result (filePath m w s) = "")
  ∧ (∀ p, propMountPoints m (m_device s) = [p +:+ String zero EmptyString] →
          result (filePath m w s) = decodeName m p)
  ∧ (∀ p, propMountPoints m (m_device s) = [p] → chop_nul p = p →
          result (filePath m w s) = decodeName m p)
  ∧ (∀ p q others, propMountPoints m (m_device s) = p :: q :: others →
       result (filePath m w s)
       = if String.eqb (baseMountPoint m (propDevice m)) ""
         then decodeName m (chop_nul p)
         else baseMountPoint m (propDevice m)).
Proof.
  intros Henc. unfold filePath, isLuksDevice. unfold_M. rewrite Henc.
  cbn -[baseMountPoint].
  destruct (propMountPoints m (m_device s)) as [|p [|q others]] eqn:Hmp;
    cbn -[baseMountPoint].
  - repeat split; done.
  - repeat split; try done.
    + intros p' [= ->]. by rewrite chop_nul_app.
    + intros p' [= ->] ->. done.
  - repeat split; try done.
    intros p' q' others' [= -> -> ->].
    by destruct (String.eqb (baseMountPoint m (propDevice m)) "").
Qed.

(** [filePath] of a container without a cleartext device. *)
Lemma filePath_locked (m : MountView) (w : Platform) (s : StorageAccess) :
  isEncryptedContainer w = true →
  result (clearTextPath w s) = "" →
  result (filePath m w s) = "".
Proof.
  intros Henc Hct. unfold filePath, isLuksDevice, clearTextPath in *.
  unfold bind, ret, platform, this, perform in *. rewrite Henc.
  cbn in Hct |- *. by rewrite Hct.
Qed.

Lemma isIgnored_eq (m : MountView) (w : Platform) (s : StorageAccess) :
  result (isIgnored m w s) =
    if propBool w (m_device s) "HintIgnore" then true
    else if bool_decide ("x-gdu.hide" ∈ propUserspaceMountOptions m) then true
    else negb (String.prefix "/media/" (result (filePath m w s))
               || String.prefix "/run/media/" (result (filePath m w s))
               || String.prefix (homePath m) (result (filePath m w s))).
Proof.
  unfold isIgnored. unfold_M. cbn -[filePath].
  destruct (propBool w (m_device s) "HintIgnore"); [done|].
  case_bool_decide; [done|].
  by destruct (filePath m w s) as [[path s1] e1].
Qed.

(** X12: a device with the HintIgnore property or the mount option
    x-gdu.hide is ignored wherever it is mounted; any other device is
    ignored exactly when its [filePath] is neither under /media/, under
    /run/media/ nor under the home path.  In particular a locked container
    and an unmounted plain device (no [filePath]) are ignored. *)
Theorem isIgnored_cases (m : MountView) (w : Platform) (s : StorageAccess) :
  (propBool w (m_device s) "HintIgnore" = true
   ∨ "x-gdu.hide" ∈ propUserspaceMountOptions m →
   result (isIgnored m w s) = true)
  ∧ (propBool w (m_device s) "HintIgnore" = false →
     "x-gdu.hide" ∉ propUserspaceMountOptions m →
     (result (isIgnored m w s) = false ↔
        String.prefix "/media/" (result (filePath m w s)) = true
        ∨ String.prefix "/run/media/" (result (filePath m w s)) = true
        ∨ String.prefix (homePath m) (result (filePath m w s)) = true)
     ∧ ((isEncryptedContainer w = true ∧ result (clearTextPath w s) = "")
        ∨ (isEncryptedContainer w = false ∧ propMountPoints m (m_device s) = []) →
        result (isIgnored m w s) = true)).
Proof.
  rewrite isIgnored_eq. split.
  - intros [-> | Hhide]; [done|].
    destruct (propBool _ _ _); [done|]. by rewrite bool_decide_eq_true_2.
  - intros -> Hhide. rewrite bool_decide_eq_false_2 by done.
    split.
    + rewrite negb_false_iff, !orb_true_iff. tauto.
    + intros Hcase.
      assert (result (filePath m w s) = "") as ->.
      { destruct Hcase as [[Henc Hct]|[Henc Hmp]].
        - by apply filePath_locked.
        - unfold filePath, isLuksDevice. unfold_M. rewrite Henc. cbn. by rewrite Hmp. }
      pose proof (homePath_not_empty m) as Hhome.
      destruct (homePath m); done.
Qed.

End FilePathFacts.

(** * Properties of StorageDrive *)

Module StorageDriveFacts.
Import StorageDrive.

Lemma contains_true (l : list string) (x : string) : contains l x = true ↔ x ∈ l.
Proof. unfold contains. apply bool_decide_eq_true. Qed.

Lemma contains_false (l : list string) (x : string) : contains l x = false ↔ x ∉ l.
Proof. unfold contains. apply bool_decide_eq_false. Qed.

(** X13: [driveType] answers CdromDrive for every optical drive, whatever
    media it lists; for the others the listed media decide, "floppy"
    before the flash kinds; and it answers HardDisk exactly when the drive
    is not optical and lists none of the eight media types it knows. *)
Theorem driveType_by_priority (p : Properties) :
  (isOpticalDrive p = true → driveType p = CdromDrive)
  ∧ (isOpticalDrive p = false → "floppy" ∈ MediaCompatibility p →
     driveType p = Floppy)
  ∧ (driveType p = HardDisk ↔
     isOpticalDrive p = false
     ∧ ∀ t, t ∈ known_media → t ∉ MediaCompatibility p)
  ∧ (driveType p = SdMmc →
     ∃ t, t ∈ ["flash_sd"; "flash_sdhc"; "flash_mmc"; "flash_sdxc"]
          ∧ t ∈ MediaCompatibility p).
Proof.
  unfold driveType, known_media.
  destruct (isOpticalDrive p).
  { repeat split; try done. by intros []. }
  destruct (contains _ "floppy") eqn:Hf.
  { apply contains_true in Hf. repeat split; try done. intros [_ Hnone].
    exfalso. apply (Hnone "floppy"); [set_solver|done]. }
  destruct (contains _ "flash_cf") eqn:Hcf.
  { apply contains_true in Hcf. apply contains_false in Hf.
    repeat split; try done. intros [_ Hnone].
    exfalso. apply (Hnone "flash_cf"); [set_solver|done]. }
  destruct (contains _ "flash_ms") eqn:Hms.
  { apply contains_true in Hms. apply contains_false in Hf.
    repeat split; try done. intros [_ Hnone].
    exfalso. apply (Hnone "flash_ms"); [set_solver|done]. }
  destruct (contains _ "flash_sm") eqn:Hsm.
  { apply contains_true in Hsm. apply contains_false in Hf.
    repeat split; try done. intros [_ Hnone].
    exfalso. apply (Hnone "flash_sm"); [set_solver|done]. }
  apply contains_false in Hf, Hcf, Hms, Hsm.
  destruct (contains _ "flash_sd") eqn:Hsd; cbn.
  { apply contains_true in Hsd. repeat split; try done.
    - intros [_ Hnone]. exfalso. apply (Hnone "flash_sd"); [set_solver|done].
    - intros _. exists "flash_sd". split; [set_solver|done]. }
  destruct (contains _ "flash_sdhc") eqn:Hsdhc; cbn.
  { apply contains_true in Hsdhc. repeat split; try done.
    - intros [_ Hnone]. exfalso. apply (Hnone "flash_sdhc"); [set_solver|done].
    - intros _. exists "flash_sdhc". split; [set_solver|done]. }
  destruct (contains _ "flash_mmc") eqn:Hmmc; cbn.
  { apply contains_true in Hmmc. repeat split; try done.
    - intros [_ Hnone]. exfalso. apply (Hnone "flash_mmc"); [set_solver|done].
    - intros _. exists "flash_mmc". split; [set_solver|done]. }
  destruct (contains _ "flash_sdxc") eqn:Hsdxc; cbn.
  { apply contains_true in Hsdxc. repeat split; try done.
    - intros [_ Hnone]. exfalso. apply (Hnone "flash_sdxc"); [set_solver|done].
    - intros _. exists "flash_sdxc". split; [set_solver|done]. }
  apply contains_false in Hsd, Hsdhc, Hmmc, Hsdxc.
  repeat split; try done.
  intros t Ht.
  repeat (apply elem_of_cons in Ht as [->|Ht]; [done|]).
  by apply elem_of_nil in Ht.
Qed.

(** X14: with udev, an "ata" ID_BUS decides the bus before the
    ConnectionBus of the daemon is looked at: the bus is Sata or Ide exactly
    when ID_BUS is "ata" (Sata exactly when ID_ATA_SATA is 1 as well), and
    Usb exactly when ID_BUS is not "ata" and ConnectionBus is "usb".  So a
    drive is hotpluggable exactly when its ID_BUS is not "ata" and its
    ConnectionBus is "usb" or "ieee1394", or when its UDISKS_SYSTEM
    property is valid and false. *)
Theorem udev_bus_and_hotplug (p : Properties) :
  (bus UDEV_FOUND p = Sata ↔ ID_BUS p = "ata" ∧ ID_ATA_SATA p = 1%Z)
  ∧ (bus UDEV_FOUND p = Ide ↔ ID_BUS p = "ata" ∧ ID_ATA_SATA p ≠ 1%Z)
  ∧ (bus UDEV_FOUND p = Usb ↔ ID_BUS p ≠ "ata" ∧ ConnectionBus p = "usb")
  ∧ (isHotpluggable UDEV_FOUND p = true ↔
     (ID_BUS p ≠ "ata"
      ∧ (ConnectionBus p = "usb" ∨ ConnectionBus p = "ieee1394"))
     ∨ UDISKS_SYSTEM p = Some false).
Proof.
  unfold isHotpluggable, bus.
  destruct (String.eqb_spec (ID_BUS p) "ata") as [Hata|Hata].
  { destruct (Z.eqb_spec (ID_ATA_SATA p) 1); cbn;
      destruct (UDISKS_SYSTEM p) as [[]|]; cbn; intuition congruence. }
  destruct (String.eqb_spec (ConnectionBus p) "usb") as [Husb|Husb].
  { cbn. destruct (UDISKS_SYSTEM p) as [[]|]; intuition congruence. }
  destruct (String.eqb_spec (ConnectionBus p) "ieee1394") as [Hfw|Hfw].
  { cbn. destruct (UDISKS_SYSTEM p) as [[]|]; intuition congruence. }
  destruct (String.eqb (ID_BUS p) "scsi"); cbn;
    destruct (UDISKS_SYSTEM p) as [[]|]; cbn; intuition congruence.
Qed.

End StorageDriveFacts.

(** * Further properties of the fstab / mtab cache *)

Module FstabMoreFacts.
Import Fstab FstabFacts CacheFacts FstypeFacts RetentionFacts StabilityFacts FstabMore.

Lemma append_cons (c : ascii) (s t : string) : String c s +:+ t = String c (s +:+ t).
Proof. reflexivity. Qed.

Lemma append_empty_r (s : string) : s +:+ "" = s.
Proof. induction s as [|c s IH]; [done|]. by rewrite append_cons, IH. Qed.

Lemma rev_app_append (s1 s2 t : string) :
  String.rev_app s1 s2 +:+ t = String.rev_app s1 (s2 +:+ t).
Proof. revert s2. induction s1 as [|c s1 IH]; intros s2; cbn; [done|]. by rewrite IH. Qed.

Lemma occurs_rev_app (sep : ascii) (s1 s2 : string) :
  occurs sep (String.rev_app s1 s2) = occurs sep s1 || occurs sep s2.
Proof.
  revert s2. induction s1 as [|c s1 IH]; intros s2; cbn; [done|].
  rewrite IH. cbn. by destruct (Ascii.eqb c sep), (occurs sep s1), (occurs sep s2).
Qed.

Lemma occurs_append (sep : ascii) (s1 s2 : string) :
  occurs sep (s1 +:+ s2) = occurs sep s1 || occurs sep s2.
Proof.
  induction s1 as [|c s1 IH]; [done|].
  rewrite append_cons. cbn. by rewrite IH, orb_assoc.
Qed.

Lemma join_cons (sep : ascii) (part : string) (rest : list string) :
  rest ≠ [] → join sep (part :: rest) = part +:+ String sep (join sep rest).
Proof. by destruct rest. Qed.

(** [split_from] with the part read so far ([cur], reversed): joining
    the parts gives the string back, there is at least one part, and no
    part holds the separator. *)
Lemma split_from_spec (sep : ascii) (cur s : string) :
  join sep (split_from sep cur s) = String.rev cur +:+ s
  ∧ split_from sep cur s ≠ []
  ∧ (occurs sep cur = false →
     Forall (λ part, occurs sep part = false) (split_from sep cur s)).
Proof.
  revert cur. induction s as [|c s IH]; intros cur; cbn [split_from].
  - split; [|split; [done|]].
    + cbn [join]. by rewrite append_empty_r.
    + intros Hcur. repeat constructor. unfold String.rev.
      by rewrite occurs_rev_app, Hcur.
  - destruct (Ascii.eqb_spec c sep) as [->|Hne].
    + destruct (IH EmptyString) as (Hj & Hnil & Hparts). split; [|split; [done|]].
      * by rewrite join_cons, Hj.
      * intros Hcur. constructor; [|by apply Hparts].
        unfold String.rev. by rewrite occurs_rev_app, Hcur.
    + destruct (IH (String c cur)) as (Hj & Hnil & Hparts). split; [|split; [done|]].
      * rewrite Hj. unfold String.rev. cbn. by rewrite !rev_app_append.
      * intros Hcur. apply Hparts. cbn.
        by rewrite Hcur, (proj2 (Ascii.eqb_neq c sep)).
Qed.

(** X15: [split] and [join] round-trip: splitting a string at a separator
    gives at least one part, none of which holds the separator, and joining
    the parts with the separator gives the string back; a string without
    the separator (the empty string too) is its own single part. *)
Theorem split_join_round_trip (sep : ascii) (s : string) :
  join sep (split sep s) = s
  ∧ split sep s ≠ []
  ∧ Forall (λ part, occurs sep part = false) (split sep s)
  ∧ (occurs sep s = false → split sep s = [s]).
Proof.
  unfold split. destruct (split_from_spec sep EmptyString s) as (Hj & Hnil & Hparts).
  split; [done|]. split; [done|]. split; [by apply Hparts|].
  intros Hs. clear Hj Hnil Hparts.
  assert (∀ cur, split_from sep cur s = [String.rev cur +:+ s]) as Hgen.
  { induction s as [|c s IH]; intros cur; cbn [split_from].
    - by rewrite append_empty_r.
    - cbn in Hs. apply orb_false_elim in Hs as [Hc Hs]. rewrite Hc.
      rewrite (IH Hs). unfold String.rev. cbn. by rewrite !rev_app_append. }
  by rewrite Hgen.
Qed.

Lemma removeDuplicates_from_spec (seen l : list string) :
  NoDup (removeDuplicates_from seen l)
  ∧ removeDuplicates_from seen l `sublist_of` l
  ∧ (NoDup l → (∀ x, x ∈ l → x ∉ seen) → removeDuplicates_from seen l = l).
Proof.
  revert seen. induction l as [|x l IH]; intros seen; cbn.
  - split; [constructor|]. split; [done|]. done.
  - destruct (IH seen) as (Hnd & Hsub & _).
    destruct (IH (x :: seen)) as (Hnd' & Hsub' & Hid').
    case_bool_decide as Hx.
    + split; [done|]. split; [by apply sublist_cons|].
      intros _ Hfresh. exfalso. eapply Hfresh; [left|done].
    + split; [|split].
      * apply NoDup_cons. split; [|done].
        rewrite elem_of_removeDuplicates_from. set_solver.
      * by apply sublist_skip.
      * intros [Hxl Hl]%NoDup_cons Hfresh. f_equal. apply Hid'; [done|].
        intros y Hy [->|Hys]%elem_of_cons; [done|].
        eapply Hfresh; [by right|done].
Qed.

(** X16: [removeDuplicates] keeps exactly the strings of the list, each
    once, in the order of their first occurrences, and leaves a list
    without duplicates as it is. *)
Theorem removeDuplicates_keeps_first_occurrences (l : list string) :
  NoDup (removeDuplicates l)
  ∧ (∀ x, x ∈ removeDuplicates l ↔ x ∈ l)
  ∧ removeDuplicates l `sublist_of` l
  ∧ (∀ x rest, l = x :: rest → ∃ rest', removeDuplicates l = x :: rest')
  ∧ (NoDup l → removeDuplicates l = l).
Proof.
  unfold removeDuplicates.
  destruct (removeDuplicates_from_spec [] l) as (Hnd & Hsub & Hid).
  split; [done|]. split; [apply elem_of_removeDuplicates|]. split; [done|].
  split.
  - intros x rest ->. cbn. rewrite bool_decide_eq_false_2 by apply not_elem_of_nil.
    by eexists.
  - intros Hl. apply Hid; [done|]. intros x _. apply not_elem_of_nil.
Qed.

(** X17: the answers of [mountPoints] and [deviceList] hold no string
    twice, and every current mount point of a device ([currentMountPoints])
    is among its mount points ([mountPoints]), asked of the same cache and
    files. *)
Theorem mountPoints_without_duplicates (d : string) (f : Files) (st : FstabHandling) :
  NoDup (mountPoints d f st).1
  ∧ NoDup (deviceList f st).1
  ∧ ∀ x, x ∈ (currentMountPoints d f st).1 → x ∈ (mountPoints d f st).1.
Proof.
  unfold mountPoints, deviceList, currentMountPoints. cbn [fst].
  split; [by apply removeDuplicates_from_spec|].
  split; [by apply removeDuplicates_from_spec|].
  intros x Hx. apply elem_of_removeDuplicates, elem_of_app. right.
  destruct (updateFstab_mtab f st) as [Hv Hc].
  destruct (m_mtabCacheValid st) eqn:Hvalid.
  - rewrite updateMtab_valid in Hx by done.
    rewrite updateMtab_valid by congruence. by rewrite Hc.
  - destruct (mnttab f) as [records|] eqn:Hf.
    + rewrite (updateMtab_parse f st records) in Hx by done.
      by rewrite (updateMtab_parse f _ records) by congruence.
    + rewrite updateMtab_unreadable in Hx by done.
      by rewrite updateMtab_unreadable by congruence.
Qed.

Lemma elem_of_mh_keys_iff (k : string) (h : QStringMultiHash) :
  k ∈ mh_keys h ↔ ∃ v, (k, v) ∈ h.
Proof.
  unfold mh_keys. rewrite list_elem_of_fmap. split.
  - intros ([k' v] & -> & Hin). by exists v.
  - intros [v Hin]. by exists (k, v).
Qed.

Lemma elem_of_fstab_pairs_iff (records : list mntent) (k v : string) :
  (k, v) ∈ rev (fstab_pairs records) ↔
  ∃ fe, fe ∈ records ∧ fstab_keeps fe = true ∧ device_of fe = k ∧ mnt_dir fe = v.
Proof.
  rewrite elem_of_rev. unfold fstab_pairs. rewrite list_elem_of_fmap. split.
  - intros (fe & [= -> ->] & [Hk Hin]%list_elem_of_filter). by exists fe.
  - intros (fe & Hin & Hk & <- & <-). exists fe. split; [done|].
    by apply list_elem_of_filter.
Qed.

Lemma elem_of_mtab_pairs_iff (records : list mntent) (k v : string) :
  (k, v) ∈ rev (mtab_pairs records) ↔
  ∃ fe, fe ∈ records ∧ mtab_keeps fe = true ∧ device_of fe = k ∧ mnt_dir fe = v.
Proof.
  rewrite elem_of_rev. unfold mtab_pairs. rewrite list_elem_of_fmap. split.
  - intros (fe & [= -> ->] & [Hk Hin]%list_elem_of_filter). by exists fe.
  - intros (fe & Hin & Hk & <- & <-). exists fe. split; [done|].
    by apply list_elem_of_filter.
Qed.

Lemma elem_of_option_pairs_iff (records : list mntent) (k o : string) :
  (k, o) ∈ rev (option_pairs records) ↔
  ∃ fe, fe ∈ records ∧ fstab_keeps fe = true ∧ device_of fe = k
        ∧ o ∈ split ","%char (mnt_opts fe).
Proof.
  rewrite elem_of_rev. unfold option_pairs. rewrite list_elem_of_bind. split.
  - intros (fe & Hin & [Hk Hfe]%list_elem_of_filter).
    apply list_elem_of_fmap in Hin as (o' & [= -> ->] & Ho). by exists fe.
  - intros (fe & Hin & Hk & <- & Ho). exists fe. split.
    + apply list_elem_of_fmap. by exists o.
    + by apply list_elem_of_filter.
Qed.

(** The state after both tables were read again. *)
Lemma refresh_eq (f : Files) (st : FstabHandling) (frecords mrecords : list mntent) :
  etc_fstab f = Some frecords → mnttab f = Some mrecords →
  refresh f st =
    {| m_fstabCacheValid := true;
       m_mtabCacheValid := true;
       m_mtabCache := rev (mtab_pairs mrecords);
       m_fstabCache := rev (fstab_pairs frecords);
       m_fstabOptionsCache := rev (option_pairs frecords);
       m_fstabFstypeCache :=
         foldl (λ m fe, <[device_of fe := mnt_type fe]> m)
           (foldl (λ m fe, <[device_of fe := mnt_type fe]> m) (m_fstabFstypeCache st)
              (filter (λ fe, fstab_keeps fe = true) frecords))
           (filter (λ fe, mtab_keeps fe = true) mrecords) |}.
Proof.
  intros Hf Hm. unfold refresh, deviceList. cbn [snd].
  rewrite (updateFstab_parse f _ frecords) by done.
  by rewrite (updateMtab_parse f _ mrecords).
Qed.

(** X18: once both tables were read again, the devices [deviceList]
    answers are exactly the device names of the kept records of the two
    tables, the mount points of a device are exactly the targets of the
    kept records filed under it in either table, and its current mount
    points those of the mount table alone, whatever the files hold when
    the question is asked. *)
Theorem answers_after_refresh (f f' : Files) (st : FstabHandling)
    (frecords mrecords : list mntent) :
  etc_fstab f = Some frecords → mnttab f = Some mrecords →
  (∀ d, d ∈ (deviceList f' (refresh f st)).1 ↔
     ∃ fe, (fe ∈ frecords ∧ fstab_keeps fe = true
            ∨ fe ∈ mrecords ∧ mtab_keeps fe = true)
           ∧ device_of fe = d)
  ∧ (∀ d x, x ∈ (mountPoints d f' (refresh f st)).1 ↔
       ∃ fe, (fe ∈ frecords ∧ fstab_keeps fe = true
              ∨ fe ∈ mrecords ∧ mtab_keeps fe = true)
             ∧ device_of fe = d ∧ mnt_dir fe = x)
  ∧ (∀ d x, x ∈ (currentMountPoints d f' (refresh f st)).1 ↔
       ∃ fe, fe ∈ mrecords ∧ mtab_keeps fe = true
             ∧ device_of fe = d ∧ mnt_dir fe = x).
Proof.
  intros Hf Hm. rewrite (refresh_eq f st frecords mrecords Hf Hm).
  unfold deviceList, mountPoints, currentMountPoints.
  rewrite !updateFstab_valid, !updateMtab_valid by done.
  cbn [fst m_fstabCache m_mtabCache].
  split; [|split].
  - intros d. rewrite elem_of_removeDuplicates, elem_of_app, !elem_of_mh_keys_iff.
    setoid_rewrite elem_of_fstab_pairs_iff. setoid_rewrite elem_of_mtab_pairs_iff.
    naive_solver.
  - intros d x. rewrite elem_of_removeDuplicates, elem_of_app, !elem_of_mh_values.
    rewrite elem_of_fstab_pairs_iff, elem_of_mtab_pairs_iff. naive_solver.
  - intros d x. by rewrite elem_of_mh_values, elem_of_mtab_pairs_iff.
Qed.

(** X19: once /etc/fstab was read again, the options of a device are
    exactly the comma-separated parts of the option fields of the kept
    records filed under it. *)
Theorem options_after_refresh (f f' : Files) (st : FstabHandling)
    (frecords mrecords : list mntent) (d o : string) :
  etc_fstab f = Some frecords → mnttab f = Some mrecords →
  o ∈ (options d f' (refresh f st)).1 ↔
  ∃ fe, fe ∈ frecords ∧ fstab_keeps fe = true ∧ device_of fe = d
        ∧ o ∈ split ","%char (mnt_opts fe).
Proof.
  intros Hf Hm. rewrite (refresh_eq f st frecords mrecords Hf Hm).
  unfold options. rewrite updateFstab_valid by done.
  cbn [fst m_fstabOptionsCache].
  by rewrite elem_of_mh_values, elem_of_option_pairs_iff.
Qed.

(** X20: a FUSE or overlay mount is filed under its type followed by its
    mount point, so that two such mounts of one type are one device only
    if their mount points agree, whatever their sources; every other
    record is filed under its source, whatever its mount point. *)
Theorem deviceName_of_pseudo_filesystems (fstype : string) :
  (String.prefix "fuse." fstype = true ∨ fstype = "overlay" →
   ∀ source mountpoint source' mountpoint',
     _k_deviceNameForMountpoint source fstype mountpoint = fstype +:+ mountpoint
     ∧ (_k_deviceNameForMountpoint source fstype mountpoint
        = _k_deviceNameForMountpoint source' fstype mountpoint' →
        mountpoint = mountpoint'))
  ∧ (String.prefix "fuse." fstype = false → fstype ≠ "overlay" →
     ∀ source mountpoint,
       _k_deviceNameForMountpoint source fstype mountpoint = source).
Proof.
  unfold _k_deviceNameForMountpoint. split.
  - intros Hpseudo source mountpoint source' mountpoint'.
    assert (String.prefix "fuse." fstype || String.eqb fstype "overlay" = true) as ->.
    { destruct Hpseudo as [-> | ->]; [done|]. by rewrite orb_true_r. }
    split; [done|]. apply append_inj.
  - intros -> Hne source mountpoint.
    by destruct (String.eqb_spec fstype "overlay").
Qed.

Lemma foldl_insert_last (before after : list mntent) (fe : mntent)
    (m : gmap string string) :
  Forall (λ fe', device_of fe' ≠ device_of fe) after →
  foldl (λ m fe, <[device_of fe := mnt_type fe]> m) m (before ++ fe :: after)
    !! device_of fe = Some (mnt_type fe).
Proof.
  intros Hafter. rewrite foldl_app. cbn [foldl].
  rewrite foldl_insert_other by done. apply lookup_insert_eq.
Qed.

(** X21: the filesystem type of a device is that of the last kept record
    filed under it: when /etc/fstab is parsed, [fstype] answers the type of
    the last kept record of the table with that device name, whatever was
    cached for it before. *)
Theorem fstype_of_last_record (f : Files) (st : FstabHandling)
    (before after : list mntent) (fe : mntent) :
  m_fstabCacheValid st = false →
  etc_fstab f = Some (before ++ fe :: after) →
  fstab_keeps fe = true →
  (∀ fe', fe' ∈ after → fstab_keeps fe' = true → device_of fe' ≠ device_of fe) →
  (fstype (device_of fe) f st).1 = mnt_type fe.
Proof.
  intros Hv Hf Hk Hafter. unfold fstype. cbn [fst].
  rewrite (updateFstab_parse f st _ Hv Hf). cbn [m_fstabFstypeCache].
  rewrite filter_app, filter_cons, decide_True by done.
  rewrite foldl_insert_last; [done|].
  apply Forall_forall. intros fe' [Hk' Hin]%list_elem_of_filter. by apply Hafter.
Qed.

(** Inserting the types of a list of records either leaves the type of a
    device alone or sets it to a type that does not depend on the map. *)
Lemma foldl_insert_dichotomy (records : list mntent) (d : string) :
  (∀ m : gmap string string,
     foldl (λ m fe, <[device_of fe := mnt_type fe]> m) m records !! d = m !! d)
  ∨ (∃ t, ∀ m : gmap string string,
       foldl (λ m fe, <[device_of fe := mnt_type fe]> m) m records !! d = Some t).
Proof.
  induction records as [|fe records IH]; [by left|].
  cbn [foldl]. destruct IH as [IH|[t IH]].
  - destruct (decide (device_of fe = d)) as [<-|Hne].
    + right. exists (mnt_type fe). intros m. by rewrite IH, lookup_insert_eq.
    + left. intros m. by rewrite IH, lookup_insert_ne.
  - right. exists t. intros m. apply IH.
Qed.

(** X22: reading both tables again is idempotent: when the files have
    not changed, a second refresh leaves the whole cache, the
    filesystem-type map included, exactly as the first one left it. *)
Theorem refresh_idempotent (f : Files) (st : FstabHandling)
    (frecords mrecords : list mntent) :
  etc_fstab f = Some frecords → mnttab f = Some mrecords →
  refresh f (refresh f st) = refresh f st.
Proof.
  intros Hf Hm.
  rewrite (refresh_eq f (refresh f st) frecords mrecords Hf Hm).
  rewrite (refresh_eq f st frecords mrecords Hf Hm). cbn [m_fstabFstypeCache].
  f_equal. apply map_eq. intros d.
  destruct (foldl_insert_dichotomy (filter (λ fe, mtab_keeps fe = true) mrecords) d)
    as [Hm1|[t Hm1]]; [|by rewrite !Hm1].
  rewrite !Hm1.
  destruct (foldl_insert_dichotomy (filter (λ fe, fstab_keeps fe = true) frecords) d)
    as [Hf1|[t Hf1]]; [|by rewrite !Hf1].
  by rewrite !Hf1, !Hm1, !Hf1.
Qed.

(** X23: the two caches are invalidated independently: after
    [flushMtabCache] the queries that consult only the fstab cache
    ([options], [fstype]) still answer from it without reading the files,
    and after [flushFstabCache] so does [currentMountPoints] from the
    mount-table cache. *)
Theorem flush_leaves_other_cache (q : Query) (f f' : Files) (st : FstabHandling) :
  (m_fstabCacheValid st = true → consults_mtab q = false →
   (ask q f (flushMtabCache st)).1 = (ask q f' st).1)
  ∧ (m_mtabCacheValid st = true → consults_fstab q = false →
     (ask q f (flushFstabCache st)).1 = (ask q f' st).1).
Proof.
  split; intros Hv Hq; destruct q; try done; cbn;
    unfold options, fstype, currentMountPoints;
    by rewrite ?updateFstab_valid, ?updateMtab_valid by done.
Qed.

End FstabMoreFacts.

(** ** The text parser of /etc/fstab *)

Module FstabTextFacts.
Import Fstab FstabMore FstabText.

Lemma append_cons' (c : ascii) (s t : string) : String c s +:+ t = String c (s +:+ t).
Proof. reflexivity. Qed.

Lemma append_nil_r (s : string) : s +:+ "" = s.
Proof. induction s as [|c s IH]; [done|]. by rewrite append_cons', IH. Qed.

Lemma rev_app_append' (s1 s2 t : string) :
  String.rev_app s1 s2 +:+ t = String.rev_app s1 (s2 +:+ t).
Proof. revert s2. induction s1 as [|c s1 IH]; intros s2; cbn; [done|]. by rewrite IH. Qed.

Lemma has_space_rev_app (s1 s2 : string) :
  has_space (String.rev_app s1 s2) = has_space s1 || has_space s2.
Proof.
  revert s2. induction s1 as [|c s1 IH]; intros s2; cbn; [done|].
  rewrite IH. cbn. by destruct (QChar_isSpace c), (has_space s1), (has_space s2).
Qed.

Lemma rev_app_not_empty (s1 s2 : string) :
  s2 ≠ EmptyString → String.rev_app s1 s2 ≠ EmptyString.
Proof. revert s2. induction s1 as [|c s1 IH]; intros s2 Hs2; cbn; [done|]. by apply IH. Qed.

(** A string without white space holds no space character. *)
Lemma occurs_space (s : string) : has_space s = false → occurs " "%char s = false.
Proof.
  induction s as [|c s IH]; [done|]. cbn [has_space occurs].
  intros [Hc Hs]%orb_false_elim. rewrite (IH Hs), orb_false_r.
  destruct (Ascii.eqb_spec c " "%char) as [->|]; [done|done].
Qed.

(** The word read so far ([cur], reversed) is not empty and holds no white
    space. *)
Definition word_so_far (cur : option string) : Prop :=
  match cur with
  | None => True
  | Some c => c ≠ EmptyString ∧ has_space c = false
  end.

(** The words of a line are not empty and hold no white space. *)
Lemma words_go_spec (cur : option string) (s : string) :
  word_so_far cur →
  Forall (λ w, w ≠ EmptyString ∧ has_space w = false) (words_go cur s).
Proof.
  revert cur. induction s as [|c s IH]; intros cur Hcur; cbn [words_go].
  - destruct cur as [w|]; cbn; [|constructor].
    destruct Hcur as [Hne Hsp]. constructor; [|constructor]. split.
    + unfold String.rev. destruct w as [|a w]; [done|]. cbn. by apply rev_app_not_empty.
    + unfold String.rev. by rewrite has_space_rev_app, Hsp.
  - destruct (QChar_isSpace c) eqn:Hc.
    + apply Forall_app. split; [|by apply IH].
      destruct cur as [w|]; cbn; [|constructor].
      destruct Hcur as [Hne Hsp]. constructor; [|constructor]. split.
      * unfold String.rev. destruct w as [|a w]; [done|]. cbn. by apply rev_app_not_empty.
      * unfold String.rev. by rewrite has_space_rev_app, Hsp.
    + apply IH. destruct cur as [w|]; cbn.
      * destruct Hcur as [Hne Hsp]. split; [done|]. by rewrite Hc, Hsp.
      * split; [done|]. by rewrite Hc.
Qed.

Lemma words_spec (s : string) :
  Forall (λ w, w ≠ EmptyString ∧ has_space w = false) (words s).
Proof. by apply words_go_spec. Qed.

(** Splitting a string without the separator gives the string itself. *)
Lemma split_from_one (sep : ascii) (cur w : string) :
  occurs sep w = false → split_from sep cur w = [String.rev cur +:+ w].
Proof.
  revert cur. induction w as [|c w IH]; intros cur Hw; cbn [split_from].
  - by rewrite append_nil_r.
  - cbn in Hw. apply orb_false_elim in Hw as [Hc Hw]. rewrite Hc.
    rewrite (IH _ Hw). unfold String.rev. cbn. by rewrite !rev_app_append'.
Qed.

Lemma split_from_first (sep : ascii) (cur w t : string) :
  occurs sep w = false →
  split_from sep cur (w +:+ String sep t)
  = (String.rev cur +:+ w) :: split_from sep EmptyString t.
Proof.
  revert cur. induction w as [|c w IH]; intros cur Hw.
  - change (EmptyString +:+ String sep t) with (String sep t).
    cbn [split_from]. rewrite Ascii.eqb_refl. by rewrite append_nil_r.
  - rewrite append_cons'. cbn [split_from].
    cbn in Hw. apply orb_false_elim in Hw as [Hc Hw]. rewrite Hc.
    rewrite (IH _ Hw). unfold String.rev. cbn. by rewrite !rev_app_append'.
Qed.

(** Joining words that do not hold the separator and splitting again
    gives the words back. *)
Lemma split_join (sep : ascii) (ws : list string) :
  ws ≠ [] → Forall (λ w, occurs sep w = false) ws → split sep (join sep ws) = ws.
Proof.
  induction ws as [|w ws IH]; [done|]. intros _ Hws.
  apply Forall_cons in Hws as [Hw Hws]. unfold split.
  destruct ws as [|w' ws].
  - cbn [join]. by rewrite split_from_one.
  - change (join sep (w :: w' :: ws)) with (w +:+ String sep (join sep (w' :: ws))).
    rewrite split_from_first by done. f_equal. by apply IH.
Qed.

(** The simplified line, by the words of the line. *)
Lemma simplified_empty (raw : string) :
  words raw = [] → simplified raw = EmptyString.
Proof. unfold simplified. by intros ->. Qed.

Lemma simplified_first (raw w : string) (ws : list string) :
  words raw = w :: ws →
  ∃ c w' t, w = String c w' ∧ simplified raw = String c t
            ∧ split " "%char (simplified raw) = w :: ws.
Proof.
  intros Hraw. pose proof (words_spec raw) as Hall. rewrite Hraw in Hall.
  assert (w ≠ EmptyString) as Hw by (by apply Forall_cons in Hall as [[? _] _]).
  destruct w as [|c w']; [done|]. exists c, w'.
  unfold simplified. rewrite Hraw.
  assert (∃ t, join " "%char (String c w' :: ws) = String c t) as [t Ht].
  { destruct ws; cbn [join]; [by eexists|]. rewrite append_cons'. by eexists. }
  exists t. split; [done|]. split; [done|].
  apply split_join; [done|].
  eapply Forall_impl; [exact Hall|]. intros x [_ Hx]. by apply occurs_space.
Qed.

Lemma prefix_hash (c : ascii) (s t : string) :
  String.prefix "#" (String c s) = String.prefix "#" (String c t).
Proof.
  cbn -[ascii_dec]. destruct (ascii_dec "#" c); [|done]. by rewrite !prefix_empty.
Qed.

(** What a line does to the cache, by the words of the line. *)
Lemma fstab_line_words (solaris : bool) (st : FstabHandling) (raw : string) :
  fstab_line solaris st raw =
  match words raw with
  | device :: mountpoint :: fstype :: rest =>
      if String.prefix "#" device
         || Nat.ltb (length rest) (if solaris then 2 else 1)
         || negb (_k_isFstabNetworkFileSystem fstype device
                  || _k_isFstabSupportedLocalFileSystem fstype)
      then st
      else {| m_fstabCacheValid := m_fstabCacheValid st;
              m_mtabCacheValid := m_mtabCacheValid st;
              m_mtabCache := m_mtabCache st;
              m_fstabCache := mh_insert device mountpoint (m_fstabCache st);
              m_fstabOptionsCache := m_fstabOptionsCache st;
              m_fstabFstypeCache := m_fstabFstypeCache st |}
  | _ => st
  end.
Proof.
  unfold fstab_line. destruct (words raw) as [|w ws] eqn:Hraw.
  - by rewrite (simplified_empty raw Hraw).
  - destruct (simplified_first raw w ws Hraw) as (c & w' & t & -> & Hs & Hsplit).
    rewrite Hsplit, Hs. cbn [String.eqb orb].
    rewrite (prefix_hash c t w').
    destruct (String.prefix "#" (String c w')) eqn:Hhash.
    { by destruct ws as [|? [|? ?]]. }
    destruct ws as [|p [|ty rest]]; [by destruct solaris..|].
    cbn [orb length at_ nth].
    assert (Nat.ltb (S (S (S (length rest)))) (if solaris then 5 else 4)
            = Nat.ltb (length rest) (if solaris then 2 else 1)) as ->.
    { by destruct solaris. }
    destruct (Nat.ltb (length rest) (if solaris then 2 else 1)); [done|].
    cbn [orb].
    by destruct (_k_isFstabNetworkFileSystem ty (String c w')
                 || _k_isFstabSupportedLocalFileSystem ty).
Qed.

Lemma fstab_line_other_fields (solaris : bool) (st : FstabHandling) (raw : string) :
  m_fstabOptionsCache (fstab_line solaris st raw) = m_fstabOptionsCache st
  ∧ m_fstabFstypeCache (fstab_line solaris st raw) = m_fstabFstypeCache st
  ∧ m_mtabCache (fstab_line solaris st raw) = m_mtabCache st
  ∧ m_fstabCacheValid (fstab_line solaris st raw) = m_fstabCacheValid st
  ∧ m_mtabCacheValid (fstab_line solaris st raw) = m_mtabCacheValid st.
Proof.
  rewrite fstab_line_words.
  destruct (words raw) as [|d [|p [|ty rest]]]; [done..|]. by case_match.
Qed.

(** X24: the text parser skips a line that holds only white space, whose
    first word starts with '#', that has fewer than four (Solaris: five)
    words, or whose third word is no kept type (and whose first word does
    not start with "//"); no line changes anything but the mount-point
    cache.  The words of a line are its maximal runs of characters that
    are no white space in the sense of [QChar::isSpace], so a no-break
    space separates words as a space does. *)
Theorem fstab_line_skips (solaris : bool) (st : FstabHandling) (raw : string) :
  (words raw = [] → fstab_line solaris st raw = st)
  ∧ (∀ w ws, words raw = w :: ws → String.prefix "#" w = true →
       fstab_line solaris st raw = st)
  ∧ (length (words raw) < (if solaris then 5 else 4) →
       fstab_line solaris st raw = st)
  ∧ (∀ d p ty rest, words raw = d :: p :: ty :: rest →
       _k_isFstabNetworkFileSystem ty d = false →
       _k_isFstabSupportedLocalFileSystem ty = false →
       fstab_line solaris st raw = st)
  ∧ m_fstabOptionsCache (fstab_line solaris st raw) = m_fstabOptionsCache st
  ∧ m_fstabFstypeCache (fstab_line solaris st raw) = m_fstabFstypeCache st
  ∧ m_mtabCache (fstab_line solaris st raw) = m_mtabCache st
  ∧ m_fstabCacheValid (fstab_line solaris st raw) = m_fstabCacheValid st
  ∧ m_mtabCacheValid (fstab_line solaris st raw) = m_mtabCacheValid st.
Proof.
  split; [|split; [|split; [|split; [|apply fstab_line_other_fields]]]];
    rewrite fstab_line_words.
  - by intros ->.
  - intros w ws -> Hw. destruct ws as [|? [|? ?]]; [done..|]. by rewrite Hw.
  - destruct (words raw) as [|d [|p [|ty rest]]]; [done..|].
    intros Hlen. cbn [length] in Hlen.
    assert (Nat.ltb (length rest) (if solaris then 2 else 1) = true) as ->.
    { apply Nat.ltb_lt. destruct solaris; lia. }
    by rewrite orb_true_r.
  - intros d p ty rest -> Hn Hl. rewrite Hn, Hl. cbn [orb negb]. by rewrite !orb_true_r.
Qed.

Lemma fstab_line_cache (solaris : bool) (st : FstabHandling) (raw d p : string) :
  (d, p) ∈ m_fstabCache (fstab_line solaris st raw)
  ↔ (d, p) ∈ m_fstabCache st ∨ line_gives solaris raw d p.
Proof.
  rewrite fstab_line_words. unfold line_gives.
  destruct (words raw) as [|d' [|p' [|ty rest]]];
    [split; [by left|by intros [?|(? & ? & ? & _)]]..|].
  destruct (String.prefix "#" d') eqn:Hhash.
  { cbn [orb]. split; [by left|]. intros [?|(? & ? & ? & ? & _)]; [done|].
    simplify_eq. congruence. }
  destruct (Nat.ltb (length rest) (if solaris then 2 else 1)) eqn:Hlen.
  { cbn [orb]. split; [by left|]. intros [?|(? & ? & ? & ? & ? & _)]; [done|].
    simplify_eq. apply Nat.ltb_lt in Hlen. lia. }
  destruct (_k_isFstabNetworkFileSystem ty d' || _k_isFstabSupportedLocalFileSystem ty)
    eqn:Hkept; cbn [orb negb].
  - cbn [m_fstabCache]. unfold mh_insert. rewrite elem_of_cons. split.
    + intros [?|?]; [|by left]. simplify_eq. right. exists ty, rest.
      apply Nat.ltb_ge in Hlen. done.
    + intros [?|(? & ? & ? & _)]; [by right|]. simplify_eq. by left.
  - split; [by left|]. intros [?|(? & ? & ? & ? & ? & ?)]; [done|].
    simplify_eq. congruence.
Qed.

Lemma fstab_lines_spec (solaris : bool) (ls : list string) (st : FstabHandling) :
  let st' := foldl (fstab_line solaris) st ls in
  m_fstabOptionsCache st' = m_fstabOptionsCache st
  ∧ m_fstabFstypeCache st' = m_fstabFstypeCache st
  ∧ m_mtabCache st' = m_mtabCache st
  ∧ m_mtabCacheValid st' = m_mtabCacheValid st
  ∧ ∀ d p, (d, p) ∈ m_fstabCache st'
           ↔ (d, p) ∈ m_fstabCache st ∨ ∃ line, line ∈ ls ∧ line_gives solaris line d p.
Proof.
  revert st. induction ls as [|l ls IH]; intros st; cbn [foldl].
  - repeat split; [by left|]. intros [?|(? & ?%elem_of_nil & _)]; done.
  - destruct (IH (fstab_line solaris st l)) as (Ho & Hf & Hm & Hv & Hc).
    destruct (fstab_line_other_fields solaris st l) as (Ho' & Hf' & Hm' & _ & Hv').
    cbn zeta. rewrite Ho, Hf, Hm, Hv. repeat split; [done..| |].
    + intros [Hin|(line & Hline & Hg)]%Hc.
      * apply fstab_line_cache in Hin as [?|?]; [by left|]. right. exists l.
        split; [left|done].
      * right. exists line. split; [by right|done].
    + intros [Hin|(line & Hline & Hg)]; apply Hc.
      * left. apply fstab_line_cache. by left.
      * apply elem_of_cons in Hline as [->|Hline].
        -- left. apply fstab_line_cache. by right.
        -- right. by exists line.
Qed.

(** X25: parsing /etc/fstab as text (cache not valid, file readable) makes
    the cache valid; afterwards the mount-point cache holds exactly the
    pairs (first word, second word) of the lines that have at least four
    (Solaris: five) words, do not start with '#' and name a kept type or a
    source starting with "//", the words being separated by white space
    in the sense of [QChar::isSpace]; the options cache is empty and the
    type cache, the mount-table cache and its validity are as before: this
    parser records neither options nor types. *)
Theorem text_parse_result (solaris : bool) (lines : list string) (st : FstabHandling) :
  m_fstabCacheValid st = false →
  let st' := _k_updateFstabMountPointsCache_text solaris (Some lines) st in
  m_fstabCacheValid st' = true
  ∧ m_fstabOptionsCache st' = []
  ∧ m_fstabFstypeCache st' = m_fstabFstypeCache st
  ∧ m_mtabCache st' = m_mtabCache st
  ∧ m_mtabCacheValid st' = m_mtabCacheValid st
  ∧ ∀ d p, (d, p) ∈ m_fstabCache st'
           ↔ ∃ line, line ∈ lines ∧ line_gives solaris line d p.
Proof.
  intros Hvalid. unfold _k_updateFstabMountPointsCache_text. rewrite Hvalid.
  match goal with
  | |- context [foldl (fstab_line solaris) ?c lines] =>
      destruct (fstab_lines_spec solaris lines c) as (Ho & Hf & Hm & Hv & Hc)
  end.
  cbn zeta in *. cbn [m_fstabCacheValid m_fstabOptionsCache m_fstabFstypeCache
                      m_mtabCache m_mtabCacheValid m_fstabCache] in *.
  repeat split; [done..| |].
  - intros [Hin|?]%Hc; [|done]. by apply elem_of_nil in Hin.
  - intros ?. apply Hc. by right.
Qed.

(** A no-break space separates fields: the line has four words and its
    share is recorded. *)
Example no_break_space_separates_words :
  words no_break_space_line = ["//x"; "/mnt"; "nfs"; "rw"]
  ∧ m_fstabCache (fstab_line false new_FstabHandling no_break_space_line)
    = [("//x", "/mnt")].
Proof. split; vm_compute; reflexivity. Qed.

End FstabTextFacts.

(** * The further properties at concrete inputs *)

(** X2 at a concrete input: setup of the idle partition of the USB disk
    sends one Mount call for the device. *)
Lemma setup_mounts_without_passphrase_witness :
  (m_setupInProgress block_1 = false
   ∧ m_teardownInProgress block_1 = false
   ∧ isEncryptedContainer usb_disk = false)
  ∧ filter (λ e, is_action_call e = true)
      (effects (setup (H := sample_udisks2) usb_disk block_1))
    = [SystemBusCall (WithCallback None) (Mount "/org/x/block_1" [])].
Proof.
  split; [repeat split; reflexivity|].
  destruct (setup_mounts_without_passphrase (H := sample_udisks2) usb_disk block_1
              eq_refl eq_refl (or_introl eq_refl)) as (_ & _ & Hcall & _).
  exact Hcall.
Defined.

(** X3 at a concrete input: teardown of the idle partition is accepted and
    marks the teardown as in progress. *)
Lemma teardown_unmounts_witness :
  (m_setupInProgress block_1 = false ∧ m_teardownInProgress block_1 = false)
  ∧ teardown (H := sample_udisks2) usb_disk block_1
    = (true, set_teardownInProgress true block_1,
       [BroadcastActionRequested "teardown";
        SystemBusCall (WithCallback (Some 2147483647%Z)) (Unmount "/org/x/block_1")]).
Proof.
  split; [split; reflexivity|].
  exact (teardown_unmounts (H := sample_udisks2) usb_disk block_1 eq_refl eq_refl).
Defined.

(** X4 at a concrete input: the reply to the Unmount call of the unlocked
    container sends Lock on the container. *)
Lemma teardown_reply_locks_container_witness :
  (m_setupInProgress (set_teardownInProgress true block_1) = false
   ∧ m_teardownInProgress (set_teardownInProgress true block_1) = true
   ∧ result (clearTextPath (H := sample_udisks2) (luks (Some "dm_0") false)
               (set_teardownInProgress true block_1))
     = "/org/freedesktop/UDisks2/block_devices/dm_0")
  ∧ slotDBusReply (H := sample_udisks2) (luks (Some "dm_0") false)
      (set_teardownInProgress true block_1)
    = (tt, set_teardownInProgress true block_1,
       [SystemBusCall Blocking (Introspect "/org/freedesktop/UDisks2/block_devices");
        SystemBusCall (WithCallback None) (Lock "/org/x/block_1")]).
Proof.
  split; [repeat split; reflexivity|].
  apply (teardown_reply_locks_container (H := sample_udisks2) (luks (Some "dm_0") false)
           (set_teardownInProgress true block_1) eq_refl eq_refl).
  - intros Hx. vm_compute in Hx. discriminate Hx.
  - intros Hx. vm_compute in Hx. discriminate Hx.
Defined.

(** X6 at a concrete input: the unlock scenario. *)
Lemma setup_and_teardown_exclusive_witness :
  Forall (λ wi : Platform * Input, is_requested_signal wi.2 = false) unlock_scenario
  ∧ exclusive (object (idle block_1))
  ∧ ∃ σ', run (H := sample_udisks2) unlock_scenario (idle block_1) = Some σ'
          ∧ exclusive (object σ').
Proof.
  split; [repeat constructor|]. split; [reflexivity|].
  eexists. split; [vm_compute; reflexivity|].
  eapply (setup_and_teardown_exclusive (H := sample_udisks2) unlock_scenario (idle block_1)).
  - repeat constructor.
  - reflexivity.
  - vm_compute. reflexivity.
Defined.

(** X7 at a concrete input: the teardown scenario contains no setup. *)
Lemma no_setup_effects_witness :
  Forall (λ wi : Platform * Input, starts_setup wi.2 = false) teardown_scenario
  ∧ no_setup (object (idle (set_isAccessible true block_1)))
  ∧ ∃ σ', run (H := sample_udisks2) teardown_scenario
            (idle (set_isAccessible true block_1)) = Some σ'
          ∧ no_setup (object σ').
Proof.
  split; [repeat constructor|]. split; [split; reflexivity|].
  eexists. split; [vm_compute; reflexivity|].
  eapply (no_setup_effects_without_setup (H := sample_udisks2) teardown_scenario
            (idle (set_isAccessible true block_1))).
  - repeat constructor.
  - split; reflexivity.
  - vm_compute. reflexivity.
Defined.

(** X8 at a concrete input: three paths generated in a row. *)
Lemma returnObjectPaths_distinct_witness :
  ((- 2 ^ 31 ≤ number block_1 < 2 ^ 31)%Z ∧ (Z.of_nat 3 ≤ 2 ^ 32)%Z)
  ∧ NoDup (returnObjectPaths 3 usb_disk block_1).
Proof.
  split; [cbn; lia|].
  apply (returnObjectPaths_distinct 3 usb_disk block_1); cbn; lia.
Defined.

(** X11 at a concrete input: the mount point of the mounted partition. *)
Lemma filePath_of_plain_device_witness :
  isEncryptedContainer usb_disk = false
  ∧ result (filePath (H := sample_udisks2) mounted_once usb_disk block_1)
    = "/run/media/user/disk".
Proof.
  split; [reflexivity|].
  destruct (filePath_of_plain_device (H := sample_udisks2) mounted_once usb_disk block_1
              eq_refl) as (_ & _ & _ & Hone & _).
  apply (Hone "/run/media/user/disk"). reflexivity.
Defined.

Module MoreRuns.
Import Fstab FstabFacts CacheFacts FstypeFacts RetentionFacts StabilityFacts.
Import FstabMore FstabMoreFacts FstabText FstabTextFacts.

(** X18 at a concrete input: after both tables were read with the share
    configured, the share is a device with its mount point. *)
Lemma answers_after_refresh_witness :
  (etc_fstab share_configured = Some [root_ext4; cifs_share]
   ∧ mnttab share_configured = Some [root_ext4; cifs_share])
  ∧ "//srv/share"
      ∈ (deviceList share_removed (refresh share_configured new_FstabHandling)).1
  ∧ "/mnt/share"
      ∈ (mountPoints "//srv/share" share_removed
           (refresh share_configured new_FstabHandling)).1.
Proof.
  split; [split; reflexivity|].
  destruct (answers_after_refresh share_configured share_removed new_FstabHandling
              [root_ext4; cifs_share] [root_ext4; cifs_share] eq_refl eq_refl)
    as (Hdev & Hmp & _).
  split.
  - apply Hdev. exists cifs_share. split; [|reflexivity].
    left. split; [|reflexivity]. right. left.
  - apply Hmp. exists cifs_share. split; [|split; reflexivity].
    left. split; [|reflexivity]. right. left.
Defined.

(** X19 at a concrete input: "user" is an option of the share. *)
Lemma options_after_refresh_witness :
  (etc_fstab share_configured = Some [root_ext4; cifs_share]
   ∧ mnttab share_configured = Some [root_ext4; cifs_share])
  ∧ "user" ∈ (options "//srv/share" share_removed
                (refresh share_configured new_FstabHandling)).1.
Proof.
  split; [split; reflexivity|].
  apply (options_after_refresh share_configured share_removed new_FstabHandling
           [root_ext4; cifs_share] [root_ext4; cifs_share] "//srv/share" "user"
           eq_refl eq_refl).
  exists cifs_share. split; [right; left|]. split; [reflexivity|].
  split; [reflexivity|]. right. left.
Defined.

(** X21 at a concrete input: the type of the configured share. *)
Lemma fstype_of_last_record_witness :
  (m_fstabCacheValid new_FstabHandling = false
   ∧ etc_fstab share_configured = Some ([root_ext4] ++ cifs_share :: [])
   ∧ fstab_keeps cifs_share = true)
  ∧ (fstype "//srv/share" share_configured new_FstabHandling).1 = "cifs".
Proof.
  split; [repeat split; reflexivity|].
  apply (fstype_of_last_record share_configured new_FstabHandling
           [root_ext4] [] cifs_share eq_refl eq_refl eq_refl).
  intros fe' Hfe'. by apply elem_of_nil in Hfe'.
Defined.

(** X22 at a concrete input: reading the configured tables twice. *)
Lemma refresh_idempotent_witness :
  (etc_fstab share_configured = Some [root_ext4; cifs_share]
   ∧ mnttab share_configured = Some [root_ext4; cifs_share])
  ∧ refresh share_configured (refresh share_configured new_FstabHandling)
    = refresh share_configured new_FstabHandling.
Proof.
  split; [split; reflexivity|].
  exact (refresh_idempotent share_configured new_FstabHandling
           [root_ext4; cifs_share] [root_ext4; cifs_share] eq_refl eq_refl).
Defined.

(** X25 at a concrete input: the text of an /etc/fstab with a comment, a
    blank line, a local filesystem, a share and a line of three words:
    only the share is recorded, without options. *)
Lemma text_parse_result_witness :
  m_fstabCacheValid new_FstabHandling = false
  ∧ ("//srv/share", "/mnt/share")
      ∈ m_fstabCache
          (_k_updateFstabMountPointsCache_text false (Some fstab_text) new_FstabHandling)
  ∧ m_fstabOptionsCache
      (_k_updateFstabMountPointsCache_text false (Some fstab_text) new_FstabHandling)
    = [].
Proof.
  split; [reflexivity|].
  destruct (text_parse_result false fstab_text new_FstabHandling eq_refl)
    as (_ & Hopt & _ & _ & _ & Hcache).
  split; [|exact Hopt].
  apply Hcache. exists "  //srv/share  /mnt/share  cifs  rw,user  0 0  ".
  split; [do 3 right; left|].
  exists "cifs", ["rw,user"; "0"; "0"].
  split; [reflexivity|]. split; [reflexivity|]. split; [cbn; lia|reflexivity].
Defined.

End MoreRuns.

(** * Requests, answers and outstanding calls *)

Lemma silent_counts (action : string) (es : list Effect) :
  Forall silent es →
  count (is_requested action) es = 0
  ∧ count (is_done action) es = 0
  ∧ omap with_callback es = [].
Proof.
  induction 1 as [|e es [Hb Hc] _ (IH1 & IH2 & IH3)]; [done|].
  rewrite !count_cons, IH1, IH2.
  change (omap with_callback (e :: es))
    with (match with_callback e with
          | Some c => c :: omap with_callback es
          | None => omap with_callback es
          end).
  rewrite Hc, IH3. by destruct e.
Qed.

Lemma registered_silent (w : Platform) (es : list Effect) :
  Forall silent es → registered w es = [].
Proof.
  intros Hes. unfold registered. destruct (callWithCallbackSent w); [|done].
  by apply (silent_counts "" es).
Qed.

Lemma registered_app (w : Platform) (es1 es2 : list Effect) :
  registered w (es1 ++ es2) = registered w es1 ++ registered w es2.
Proof. unfold registered. destruct (callWithCallbackSent w); [|done]. apply omap_app. Qed.

Lemma registered_length (w : Platform) (es : list Effect) (e : Effect) :
  Forall silent es → length (registered w (es ++ [e])) ≤ 1.
Proof.
  intros Hes. rewrite registered_app, (registered_silent w es Hes).
  unfold registered. destruct (callWithCallbackSent w); [|cbn; lia].
  cbn. destruct (with_callback e); cbn; lia.
Qed.

Lemma registered_one (w : Platform) (e : Effect) : length (registered w [e]) ≤ 1.
Proof. apply (registered_length w [] e). constructor. Qed.

Lemma registered_nil (w : Platform) : registered w [] = [].
Proof. unfold registered. by destruct (callWithCallbackSent w). Qed.

Lemma registered_cons_none (w : Platform) (e : Effect) (es : list Effect) :
  with_callback e = None → registered w (e :: es) = registered w es.
Proof.
  intros He. unfold registered. destruct (callWithCallbackSent w); [|done].
  change (omap with_callback (e :: es))
    with (match with_callback e with
          | Some c => c :: omap with_callback es
          | None => omap with_callback es
          end).
  by rewrite He.
Qed.

Section Accounting.
Context `{Udisks2}.

Lemma clearTextPath_shape (w : Platform) (s : StorageAccess) :
  ∃ ctPath,
    clearTextPath w s
    = (ctPath, s, [SystemBusCall Blocking (Introspect UD2_DBUS_PATH_BLOCKDEVICES)]).
Proof. unfold clearTextPath. unfold_M. cbn. by eexists. Qed.

Lemma isAccessible_shape (w : Platform) (s : StorageAccess) :
  ∃ a es, isAccessible w s = (a, s, es) ∧ Forall silent es.
Proof.
  pose proof (isAccessible_after w s) as Ha.
  pose proof (isAccessible_effects w s) as He.
  destruct (isAccessible w s) as [[a s1] es]. cbn in Ha, He. subst s1.
  exists a, es. split; [done|]. rewrite He.
  destruct (isEncryptedContainer w); repeat constructor.
Qed.

Lemma checkAccessibility_shape (w : Platform) (s : StorageAccess) :
  ∃ a es, checkAccessibility w s = (tt, set_isAccessible a s, es) ∧ Forall silent es.
Proof.
  rewrite checkAccessibility_eq. eexists _, _. split; [done|].
  rewrite isAccessible_effects. apply Forall_app. split.
  - destruct (isEncryptedContainer w); repeat constructor.
  - destruct (Bool.eqb _ _); repeat constructor.
Qed.

Lemma ejectOrPowerOff_shape (w : Platform) (s : StorageAccess) :
  ∃ es, ejectOrPowerOff w s = (tt, s, es) ∧ Forall silent es.
Proof.
  pose proof (ejectOrPowerOff_after w s) as Ha.
  pose proof (ejectOrPowerOff_effects w s) as He.
  destruct (ejectOrPowerOff w s) as [[[] s1] es]. cbn in Ha, He. subst s1.
  exists es. split; [done|]. rewrite He.
  repeat (destruct (_ && _)); repeat constructor.
Qed.

Lemma mount_shape (w : Platform) (s : StorageAccess) :
  ∃ es c,
    mount w s = (callWithCallbackSent w, s, es ++ [SystemBusCall (WithCallback None) c])
    ∧ Forall silent es.
Proof.
  rewrite mount_eq. eexists _, _. split; [done|].
  destruct (isEncryptedContainer w); repeat constructor.
Qed.

Lemma unmount_shape (w : Platform) (s : StorageAccess) :
  ∃ es c,
    unmount w s
    = (callWithCallbackSent w, s,
       es ++ [SystemBusCall (WithCallback (Some s_unmountTimeout)) c])
    ∧ Forall silent es.
Proof.
  unfold unmount, mount_path, isLuksDevice, clearTextPath. unfold_M. cbn.
  destruct (isEncryptedContainer w); cbn.
  - exists [SystemBusCall Blocking (Introspect UD2_DBUS_PATH_BLOCKDEVICES)].
    eexists. split; [done|]. repeat constructor.
  - exists []. eexists. split; [done|]. constructor.
Qed.

Lemma requestPassphrase_shape (w : Platform) (s : StorageAccess) :
  ∃ p n es,
    requestPassphrase w s
    = (showPassphraseDialogValid w,
       set_passphraseRequested (showPassphraseDialogValid w)
         (set_lastReturnObject p (set_number n s)),
       es)
    ∧ Forall silent es.
Proof.
  unfold requestPassphrase, generateReturnObjectPath. unfold_M. cbn.
  eexists _, _, _. split; [done|]. repeat constructor.
Qed.

(** What the silent parts of an effect list contribute: nothing. *)
Ltac use_silent w :=
  repeat match goal with
  | Hs : Forall silent ?es |- _ =>
      destruct (silent_counts "setup" es Hs) as (? & ? & _);
      destruct (silent_counts "teardown" es Hs) as (? & ? & _);
      pose proof (registered_silent w es Hs);
      clear Hs
  end;
  repeat first
    [ rewrite count_app | rewrite count_cons | rewrite count_nil
    | rewrite registered_app | rewrite registered_nil
    | rewrite registered_cons_none by reflexivity ];
  repeat match goal with
  | Hc : count _ _ = 0 |- _ => first [rewrite !Hc | idtac]; clear Hc
  | Hr : registered _ _ = [] |- _ => first [rewrite !Hr | idtac]; clear Hr
  end.

(** The ledger of an invocation written out as a triple. *)
Ltac ledger w :=
  unfold accounts, neutral, exclusive; cbn [after effects result fst snd];
  rewrite ?app_nil_r; use_silent w; cbn;
  repeat match goal with
  | Hf : _ = true |- _ => rewrite !Hf
  | Hf : _ = false |- _ => rewrite !Hf
  end;
  cbn; repeat split; try done; try lia; try apply registered_one.

(** The methods a slot calls, replaced by their outcomes. *)
Ltac open_call :=
  match goal with
  | |- context [clearTextPath ?w ?s] =>
      destruct (clearTextPath_shape w s) as (? & ->)
  | |- context [isAccessible ?w ?s] =>
      destruct (isAccessible_shape w s) as (? & ? & -> & ?)
  | |- context [checkAccessibility ?w ?s] =>
      destruct (checkAccessibility_shape w s) as (? & ? & -> & ?)
  | |- context [ejectOrPowerOff ?w ?s] =>
      destruct (ejectOrPowerOff_shape w s) as (? & -> & ?)
  | |- context [mount ?w ?s] =>
      destruct (mount_shape w s) as (? & ? & -> & ?)
  | |- context [unmount ?w ?s] =>
      destruct (unmount_shape w s) as (? & ? & -> & ?)
  | |- context [requestPassphrase ?w ?s] =>
      destruct (requestPassphrase_shape w s) as (? & ? & ? & -> & ?)
  | |- context [if ?b then _ else _] => destruct b eqn:?
  end;
  cbn -[clearTextPath isAccessible checkAccessibility ejectOrPowerOff mount
        unmount requestPassphrase].

Lemma setup_cases (w : Platform) (s : StorageAccess) :
  (m_passphraseRequested s = true → m_setupInProgress s = true) →
  neutral s (handler CallSetup w s)
  ∨ (acts s ∧ accounts w s (handler CallSetup w s)).
Proof.
  intros Hpr. cbn [handler].
  destruct (m_teardownInProgress s || m_setupInProgress s) eqn:Hbusy.
  { left. unfold bind. rewrite (proj1 (setup_busy w s Hbusy)). cbn.
    repeat split; constructor. }
  apply orb_false_elim in Hbusy as [Ht Hs]. right. split.
  { left. by rewrite Hs, Ht. }
  assert (m_passphraseRequested s = false) as Hp.
  { destruct (m_passphraseRequested s); [|done]. by rewrite Hpr in Hs. }
  clear Hpr.
  unfold setup. unfold_M. rewrite Hs, Ht.
  cbn -[clearTextPath requestPassphrase mount].
  repeat open_call; ledger w.
Qed.

Lemma teardown_cases (w : Platform) (s : StorageAccess) :
  (m_passphraseRequested s = true → m_setupInProgress s = true) →
  neutral s (handler CallTeardown w s)
  ∨ (acts s ∧ accounts w s (handler CallTeardown w s)).
Proof.
  intros Hpr. cbn [handler].
  destruct (m_teardownInProgress s || m_setupInProgress s) eqn:Hbusy.
  { left. unfold bind. rewrite (proj2 (setup_busy w s Hbusy)). cbn.
    repeat split; constructor. }
  apply orb_false_elim in Hbusy as [Ht Hs]. right. split.
  { left. by rewrite Hs, Ht. }
  assert (m_passphraseRequested s = false) as Hp.
  { destruct (m_passphraseRequested s); [|done]. by rewrite Hpr in Hs. }
  clear Hpr.
  unfold teardown. unfold_M. rewrite Hs, Ht.
  cbn -[unmount].
  repeat open_call; ledger w.
Qed.

Lemma passphraseReply_cases (w : Platform) (s : StorageAccess) (passphrase : string) :
  exclusive s →
  (m_passphraseRequested s = true → m_setupInProgress s = true) →
  neutral s (handler (PassphraseReply passphrase) w s)
  ∨ (acts s ∧ accounts w s (handler (PassphraseReply passphrase) w s)).
Proof.
  intros Hex Hpr. cbn [handler]. unfold passphraseReply, callCryptoSetup. unfold_M.
  destruct (m_passphraseRequested s) eqn:Hp.
  - right. split; [by right|]. specialize (Hpr eq_refl).
    unfold exclusive in Hex. rewrite Hpr in Hex. cbn in Hex.
    cbn. destruct (String.eqb passphrase ""); cbn; ledger w.
  - left. cbn. by repeat split.
Qed.

Lemma completion_cases (w : Platform) (i : Input) (s : StorageAccess) :
  is_completion i = true →
  exclusive s →
  m_passphraseRequested s = false →
  neutral s (handler i w s) ∨ accounts w s (handler i w s).
Proof.
  intros Hi Hex Hp. unfold exclusive in Hex.
  destruct i; try done; cbn [handler].
  - unfold slotDBusReply, callCryptoTeardown, isLuksDevice. unfold_M.
    cbn -[clearTextPath isAccessible checkAccessibility ejectOrPowerOff mount].
    destruct (m_setupInProgress s) eqn:Hs; [|destruct (m_teardownInProgress s) eqn:Ht];
      cbn -[clearTextPath isAccessible checkAccessibility ejectOrPowerOff mount].
    + cbn in Hex. right. repeat open_call; ledger w.
    + right. repeat open_call; ledger w.
    + left. ledger w.
  - unfold slotDBusError. unfold_M. cbn -[checkAccessibility].
    destruct (m_setupInProgress s) eqn:Hs; [|destruct (m_teardownInProgress s) eqn:Ht];
      cbn -[checkAccessibility].
    + cbn in Hex. right. repeat open_call; ledger w.
    + right. repeat open_call; ledger w.
    + left. ledger w.
Qed.

Lemma deviceChanged_neutral (w : Platform) (s : StorageAccess) :
  neutral s (handler DeviceChanged w s).
Proof.
  cbn [handler]. destruct (checkAccessibility_shape w s) as (a & es & -> & Hes).
  by repeat split.
Qed.

(** Every slot but those for the broadcasts of other objects either
    leaves the flags alone, broadcasts nothing and registers no callback,
    or accounts for what it does; and it does the latter only on a
    completion or when the object accepts a request or expects a
    passphrase. *)
Lemma handler_cases (w : Platform) (i : Input) (s : StorageAccess) :
  is_signal i = false →
  exclusive s →
  (m_passphraseRequested s = true → m_setupInProgress s = true) →
  (is_completion i = true → m_passphraseRequested s = false) →
  neutral s (handler i w s)
  ∨ ((is_completion i = true ∨ acts s) ∧ accounts w s (handler i w s)).
Proof.
  intros Hsig Hex Hpr Hcompl.
  destruct (is_completion i) eqn:Hi.
  { destruct (completion_cases w i s Hi Hex (Hcompl eq_refl)) as [?|?];
      [by left|right; split; [by left|done]]. }
  destruct i; try done.
  - destruct (setup_cases w s Hpr) as [?|[? ?]]; [by left|right; split; [by right|done]].
  - destruct (teardown_cases w s Hpr) as [?|[? ?]]; [by left|right; split; [by right|done]].
  - destruct (passphraseReply_cases w s passphrase Hex Hpr) as [?|[? ?]];
      [by left|right; split; [by right|done]].
  - left. apply deviceChanged_neutral.
Qed.

Lemma performed_app (tr1 tr2 : list Obs) :
  performed (tr1 ++ tr2) = performed tr1 ++ performed tr2.
Proof. apply omap_app. Qed.

Lemma performed_Did (es : list Effect) : performed (map Did es) = es.
Proof.
  induction es as [|e es IH]; [done|].
  change (performed (map Did (e :: es))) with (e :: performed (map Did es)).
  by rewrite IH.
Qed.

(** What an input completes: a completion takes the one outstanding
    call, anything else leaves the outstanding calls alone; neither shows
    as an effect in the trace. *)
Lemma completion_inv (i : Input) (σ : Sys) (obs : list Obs) (rest : list DaemonCall) :
  length (pending σ) ≤ 1 →
  completion i σ = Some (obs, rest) →
  performed obs = []
  ∧ if is_completion i then pending σ ≠ [] ∧ rest = [] else rest = pending σ.
Proof.
  intros Hlen Hc.
  assert (∀ n c, pending σ !! n = Some c → pending σ ≠ [] ∧ delete n (pending σ) = [])
    as Hone.
  { intros n c Hn. destruct (pending σ) as [|c0 [|c1 l]]; [done| |cbn in Hlen; lia].
    split; [done|]. by destruct n. }
  destruct i; cbn in Hc |- *; simplify_eq; try done.
  - destruct (pending σ !! i) as [c|] eqn:Hn; [|done]. cbn in Hc. simplify_eq.
    split; [done|]. by apply (Hone i c).
  - destruct (pending σ !! i) as [c|] eqn:Hn; [|done]. cbn in Hc. simplify_eq.
    split; [done|]. by apply (Hone i c).
Qed.

Lemma step_orderly (w : Platform) (i : Input) (σ σ' : Sys) :
  is_signal i = false →
  orderly σ →
  step w i σ = Some σ' →
  orderly σ'.
Proof.
  intros Hsig ((Hset & Htear) & Hex & Hpr & Hlen & Hpend) Hstep.
  unfold step in Hstep.
  destruct (completion i σ) as [[obs rest]|] eqn:Hc; [|done].
  cbn in Hstep. simplify_eq.
  destruct (completion_inv i σ obs rest Hlen Hc) as [Hdone Hrest].
  assert (is_completion i = true → m_passphraseRequested (object σ) = false) as Hcompl.
  { intros Hi. rewrite Hi in Hrest. destruct Hrest as [Hne _].
    by destruct (Hpend Hne). }
  unfold orderly, answered, one_outstanding.
  cbn [object pending trace].
  rewrite !performed_app, Hdone, performed_Did, !count_app. cbn [app].
  destruct (handler_cases w i (object σ) Hsig Hex Hpr Hcompl)
    as [(Hs & Ht & Hp & Hsil)|[Hwhen (Hrs & Hrt & Hex' & Hpr' & Hlen' & Hreg')]].
  - destruct (silent_counts "setup" _ Hsil) as (-> & -> & _).
    destruct (silent_counts "teardown" _ Hsil) as (-> & -> & _).
    rewrite (registered_silent w _ Hsil), app_nil_r, Hs, Ht, Hp.
    assert (length rest ≤ 1 ∧ (rest ≠ [] → pending σ ≠ [])) as [Hl Hne].
    { destruct (is_completion i).
      - destruct Hrest as [_ ->]. split; [cbn; lia|done].
      - by subst rest. }
    unfold exclusive. rewrite Hs, Ht.
    rewrite !count_nil.
    split; [split; lia|]. split; [done|]. split; [done|]. split; [done|].
    intros Hr. by apply Hpend, Hne.
  - assert (rest = []) as ->.
    { destruct (is_completion i) eqn:Hi; [by destruct Hrest|].
      subst rest. destruct Hwhen as [?|Hacts]; [done|].
      destruct (pending σ) as [|c l] eqn:Hpe; [done|].
      destruct (Hpend ltac:(done)) as [Hbusy Hp].
      destruct Hacts as [Hidle|Hp']; congruence. }
    cbn [app]. rewrite !count_nil.
    split; [split; lia|]. split; [done|]. split; [by apply Hpr'|]. split; [done|].
    intros Hne. split; [by apply Hreg'|].
    destruct (m_passphraseRequested (after _)) eqn:Hp; [|done].
    by destruct (Hpr' eq_refl).
Qed.

Lemma run_orderly (inputs : list (Platform * Input)) (σ σ' : Sys) :
  Forall (λ wi, is_signal wi.2 = false) inputs →
  orderly σ →
  run inputs σ = Some σ' →
  orderly σ'.
Proof.
  revert σ. induction inputs as [|[w i] inputs IH]; intros σ Hin Hσ Hrun.
  - cbn in Hrun. by simplify_eq.
  - apply Forall_cons in Hin as [Hi Hin]. cbn in Hrun.
    destruct (step w i σ) as [σ1|] eqn:Hstep; [|done]. cbn in Hrun.
    apply (IH σ1); [done| |done]. by apply (step_orderly w i σ).
Qed.

Lemma idle_orderly (s : StorageAccess) :
  m_setupInProgress s = false →
  m_teardownInProgress s = false →
  m_passphraseRequested s = false →
  orderly (idle s).
Proof.
  intros Hs Ht Hp. unfold orderly, answered, one_outstanding, exclusive. cbn.
  rewrite Hs, Ht, Hp. repeat split; try done. lia.
Qed.


(** X27: at most one call with a callback is outstanding.  In every run
    of an object that starts idle and in which none of the four slots for
    the broadcasts ([slotSetupRequested], [slotSetupDone],
    [slotTeardownRequested], [slotTeardownDone]) is invoked, be it for a
    broadcast of another object or for the echo of the object's own, at
    most one Mount, Unmount, Unlock or Lock call awaits its reply, and only while a setup or teardown is in progress and no
    passphrase is being asked for; while the passphrase dialog is open the
    setup is in progress. *)
Theorem one_call_outstanding
    (inputs : list (Platform * Input)) (s : StorageAccess) (σ' : Sys) :
  Forall (λ wi, is_signal wi.2 = false) inputs →
  m_setupInProgress s = false →
  m_teardownInProgress s = false →
  m_passphraseRequested s = false →
  run inputs (idle s) = Some σ' →
  one_outstanding σ'
  ∧ (m_passphraseRequested (object σ') = true → m_setupInProgress (object σ') = true).
Proof.
  intros Hin Hs Ht Hp Hrun.
  by destruct (run_orderly inputs (idle s) σ' Hin (idle_orderly s Hs Ht Hp) Hrun)
    as (_ & _ & ? & ?).
Qed.

(** ** A dispatch that fails *)






End Accounting.

(** X28: the passphrase round trip.  [requestPassphrase] registers the
    object path made from the counter and hands the same path to the
    dialog; if the dialog could be requested, the reply unregisters that
    very path, then sends Unlock with the passphrase (or, for an empty
    one, broadcasts the cancelled setup), and a second reply is ignored; if
    the dialog could not be requested, every reply is ignored, so the path
    stays registered. *)
Theorem passphrase_round_trip
    (w w' w'' : Platform) (s : StorageAccess) (passphrase again : string) :
  let path := "/org/kde/solid/UDisks2StorageAccess_" +:+ QString_number (number s) in
  let r := requestPassphrase w s in
  let r' := passphraseReply passphrase w' (after r) in
  result r = showPassphraseDialogValid w
  ∧ effects r
    = [RegisterObject path;
       ShowPassphraseDialog (m_device s) (sessionBaseService w) path
         (match focusWindow w with Some id => id | None => 0%Z end)
         (applicationName w)]
  ∧ (showPassphraseDialogValid w = true →
     effects r'
     = UnregisterObject path
       :: (if String.eqb passphrase ""
           then [BroadcastActionDone "setup" UserCanceled ""]
           else [SystemBusCall (WithCallback None) (Unlock (m_device s) passphrase)])
     ∧ m_passphraseRequested (after r') = false
     ∧ passphraseReply again w'' (after r') = (tt, after r', []))
  ∧ (showPassphraseDialogValid w = false → r' = (tt, after r, [])).
Proof.
  unfold requestPassphrase, generateReturnObjectPath, passphraseReply, callCryptoSetup.
  unfold_M. cbn.
  split; [done|]. split; [done|]. split.
  - intros ->. cbn. by destruct (String.eqb passphrase "").
  - by intros ->.
Qed.


(** X27 at a concrete input: the teardown scenario. *)
Lemma one_call_outstanding_witness :
  (Forall (λ wi : Platform * Input, is_signal wi.2 = false) teardown_scenario
   ∧ m_setupInProgress (set_isAccessible true block_1) = false
   ∧ m_teardownInProgress (set_isAccessible true block_1) = false
   ∧ m_passphraseRequested (set_isAccessible true block_1) = false)
  ∧ ∃ σ', run (H := sample_udisks2) teardown_scenario
            (idle (set_isAccessible true block_1)) = Some σ'
          ∧ one_outstanding σ'.
Proof.
  split; [repeat split; repeat constructor|].
  eexists. split; [vm_compute; reflexivity|].
  eapply (one_call_outstanding (H := sample_udisks2) teardown_scenario
            (set_isAccessible true block_1)).
  - repeat constructor.
  - reflexivity.
  - reflexivity.
  - reflexivity.
  - vm_compute. reflexivity.
Defined.

